(** * Power BI custom visual detector: a shallow embedding

    The development follows the two scan scripts of the repository,
    [get_reports_pbi_sp.py] (service principal; module [SP] below) and
    [get_reports_pbi_interactive.py] (device code flow; module
    [Interactive]).  Python values are modelled as the scripts meet them:
    [str] as a list of code points, [bytes] as a list of bytes, the objects
    [json.loads] builds as the inductive [pyobj], exceptions as the [Raise]
    outcome of a [result].  The libraries the scripts call ([zipfile],
    [requests], the file system) are not re-implemented: what a call answers
    is part of the input of the function that makes the call. *)

From Stdlib Require Import List ZArith NArith Bool String Ascii Lia.
From Stdlib Require Import Strings.Byte.
Import ListNotations.

Set Implicit Arguments.
Set Warnings "-register-all".

Local Open Scope list_scope.

(** ** Python strings and bytes *)

(** A [str] is a sequence of Unicode code points. *)
Definition pystr : Type := list N.
Definition bytes : Type := list byte.

(** The code points of an ASCII literal of the source. *)
Definition str (s : string) : pystr := map N_of_ascii (list_ascii_of_string s).

Definition str_eqb (a b : pystr) : bool :=
  if list_eq_dec N.eq_dec a b then true else false.

(** [s.startswith(p)] *)
Fixpoint startswith (s p : pystr) : bool :=
  match p, s with
  | [], _ => true
  | _ :: _, [] => false
  | c :: p', d :: s' => N.eqb c d && startswith s' p'
  end.

(** [s.endswith(p)] *)
Definition endswith (s p : pystr) : bool := startswith (rev s) (rev p).

(** [p in s] for two strings: [p] occurs in [s] as a substring. *)
Fixpoint str_contains (p s : pystr) : bool :=
  startswith s p ||
  match s with
  | [] => false
  | _ :: s' => str_contains p s'
  end.

(** [s[:n]] *)
Definition str_prefix (n : nat) (s : pystr) : pystr := firstn n s.

(** [x in xs] for a set or list of strings. *)
Definition str_mem (x : pystr) (xs : list pystr) : bool := existsb (str_eqb x) xs.

(** ** Exceptions and results *)

Inductive exn : Type :=
| UnicodeDecodeError
| UnicodeEncodeError
| JSONDecodeError
| TypeError
| AttributeError
| KeyError
| BadZipFile
| OSError
| HTTPError
| RequestException.

Inductive result (A : Type) : Type :=
| Ok (a : A)
| Raise (e : exn).

Arguments Ok {A} a.
Arguments Raise {A} e.

Definition bind {A B : Type} (r : result A) (k : A -> result B) : result B :=
  match r with
  | Ok a => k a
  | Raise e => Raise e
  end.

Declare Scope result_scope.
Delimit Scope result_scope with result.
Notation "'let*' x ':=' r 'in' k" := (bind r (fun x => k))
  (at level 10, x name, r at level 100, k at level 200) : result_scope.
Local Open Scope result_scope.

Definition exn_eqb (a b : exn) : bool :=
  match a, b with
  | UnicodeDecodeError, UnicodeDecodeError
  | UnicodeEncodeError, UnicodeEncodeError
  | JSONDecodeError, JSONDecodeError
  | TypeError, TypeError
  | AttributeError, AttributeError
  | KeyError, KeyError
  | BadZipFile, BadZipFile
  | OSError, OSError
  | HTTPError, HTTPError
  | RequestException, RequestException => true
  | _, _ => false
  end.

(** ** The objects [json.loads] builds *)

(** A Python [float]: an IEEE 754 binary64 value.  A finite non-zero value is
    [m * 2^e] with [m < 2^53]; the decoder below produces it normalised
    ([2^52 <= m], or [e = -1074] for a subnormal), so that two finite values
    are equal as numbers exactly when they are equal as terms. *)
Inductive pyfloat : Type :=
| FZero (neg : bool)
| FInf (neg : bool)
| FNan
| FFinite (neg : bool) (m : positive) (e : Z).

Inductive pyobj : Type :=
| PNone
| PBool (b : bool)
| PInt (z : Z)
| PFloat (f : pyfloat)
| PStr (s : pystr)
| PList (l : list pyobj)
| PDict (d : list (pystr * pyobj)).

(** [bool(x)] *)
Definition truthy (x : pyobj) : bool :=
  match x with
  | PNone => false
  | PBool b => b
  | PInt z => negb (Z.eqb z 0)
  | PFloat (FZero _) => false
  | PFloat _ => true
  | PStr s => match s with [] => false | _ => true end
  | PList l => match l with [] => false | _ => true end
  | PDict d => match d with [] => false | _ => true end
  end.

(** A [dict] keeps its keys in insertion order; storing under a key already
    present replaces the value in place. *)
Fixpoint dict_lookup {V : Type} (k : pystr) (d : list (pystr * V)) : option V :=
  match d with
  | [] => None
  | (k', v) :: d' => if str_eqb k k' then Some v else dict_lookup k d'
  end.

Fixpoint dict_set {V : Type} (k : pystr) (v : V) (d : list (pystr * V)) : list (pystr * V) :=
  match d with
  | [] => [(k, v)]
  | (k', v') :: d' => if str_eqb k k' then (k', v) :: d' else (k', v') :: dict_set k v d'
  end.

(** [x == y] where [y] is a [str]: only a [str] equals a [str]. *)
Definition eq_str (x : pyobj) (s : pystr) : bool :=
  match x with
  | PStr t => str_eqb t s
  | _ => false
  end.

(** [k in x] for a [str] [k]: key of a dict, element of a list, substring of
    a string; other objects are not containers. *)
Definition py_in (k : pystr) (x : pyobj) : result bool :=
  match x with
  | PDict d => Ok (match dict_lookup k d with Some _ => true | None => false end)
  | PList l => Ok (existsb (fun y => eq_str y k) l)
  | PStr s => Ok (str_contains k s)
  | PNone | PBool _ | PInt _ | PFloat _ => Raise TypeError
  end.

(** [x[k]] for a [str] [k]. *)
Definition py_getitem (x : pyobj) (k : pystr) : result pyobj :=
  match x with
  | PDict d => match dict_lookup k d with Some v => Ok v | None => Raise KeyError end
  | _ => Raise TypeError
  end.

(** [x.get(k, default)]: only a dict has the method. *)
Definition py_get (x : pyobj) (k : pystr) (default : pyobj) : result pyobj :=
  match x with
  | PDict d => Ok (match dict_lookup k d with Some v => v | None => default end)
  | _ => Raise AttributeError
  end.

(** The elements [for y in x] visits. *)
Definition py_iter (x : pyobj) : result (list pyobj) :=
  match x with
  | PList l => Ok l
  | PDict d => Ok (map (fun kv => PStr (fst kv)) d)
  | PStr s => Ok (map (fun c => PStr [c]) s)
  | PNone | PBool _ | PInt _ | PFloat _ => Raise TypeError
  end.

(** ** Text codecs: [bytes.decode] *)

Definition is_high_surrogate (u : N) : bool := (55296 <=? u)%N && (u <=? 56319)%N.
Definition is_low_surrogate (u : N) : bool := (56320 <=? u)%N && (u <=? 57343)%N.

(** The 16-bit code units of a byte string, low byte first; [None] when a
    byte is left over. *)
Fixpoint utf16le_units (b : bytes) : option (list N) :=
  match b with
  | [] => Some []
  | [_] => None
  | lo :: hi :: b' =>
      match utf16le_units b' with
      | Some us => Some ((Byte.to_N lo + 256 * Byte.to_N hi)%N :: us)
      | None => None
      end
  end.

(** Code units to code points: a high surrogate must be followed by a low
    one, and a low surrogate cannot stand alone. *)
Fixpoint utf16_join (us : list N) : option pystr :=
  match us with
  | [] => Some []
  | u :: us' =>
      if is_high_surrogate u then
        match us' with
        | v :: us'' =>
            if is_low_surrogate v then
              match utf16_join us'' with
              | Some s => Some ((65536 + (u - 55296) * 1024 + (v - 56320))%N :: s)
              | None => None
              end
            else None
        | [] => None
        end
      else if is_low_surrogate u then None
      else
        match utf16_join us' with
        | Some s => Some (u :: s)
        | None => None
        end
  end.

(** [b.decode('utf-16-le')] *)
Definition decode_utf16le (b : bytes) : result pystr :=
  match utf16le_units b with
  | Some us =>
      match utf16_join us with
      | Some s => Ok s
      | None => Raise UnicodeDecodeError
      end
  | None => Raise UnicodeDecodeError
  end.

Definition in_range (lo hi x : N) : bool := (lo <=? x)%N && (x <=? hi)%N.
Definition is_cont (x : N) : bool := in_range 128 191 x.

(** One code point off the front of a UTF-8 byte string, with the bytes
    left; [None] on an ill-formed sequence (overlong forms, surrogates and
    code points above U+10FFFF are ill-formed). *)
Definition utf8_step (b : list N) : option (N * list N) :=
  match b with
  | [] => None
  | b0 :: r0 =>
      if (b0 <? 128)%N then Some (b0, r0)
      else if in_range 194 223 b0 then
        match r0 with
        | b1 :: r1 =>
            if is_cont b1 then Some (((b0 - 192) * 64 + (b1 - 128))%N, r1) else None
        | _ => None
        end
      else if in_range 224 239 b0 then
        match r0 with
        | b1 :: b2 :: r2 =>
            let lo := if (b0 =? 224)%N then 160%N else 128%N in
            let hi := if (b0 =? 237)%N then 159%N else 191%N in
            if in_range lo hi b1 && is_cont b2
            then Some (((b0 - 224) * 4096 + (b1 - 128) * 64 + (b2 - 128))%N, r2)
            else None
        | _ => None
        end
      else if in_range 240 244 b0 then
        match r0 with
        | b1 :: b2 :: b3 :: r3 =>
            let lo := if (b0 =? 240)%N then 144%N else 128%N in
            let hi := if (b0 =? 244)%N then 143%N else 191%N in
            if in_range lo hi b1 && is_cont b2 && is_cont b3
            then Some (((b0 - 240) * 262144 + (b1 - 128) * 4096
                        + (b2 - 128) * 64 + (b3 - 128))%N, r3)
            else None
        | _ => None
        end
      else None
  end.

Fixpoint utf8_points (fuel : nat) (b : list N) : option pystr :=
  match b with
  | [] => Some []
  | _ :: _ =>
      match fuel with
      | O => None
      | S fuel' =>
          match utf8_step b with
          | Some (c, r) =>
              match utf8_points fuel' r with
              | Some s => Some (c :: s)
              | None => None
              end
          | None => None
          end
      end
  end.

(** [b.decode('utf-8')]: every step consumes a byte, so one unit of fuel per
    byte is enough. *)
Definition decode_utf8 (b : bytes) : result pystr :=
  match utf8_points (List.length b) (map Byte.to_N b) with
  | Some s => Ok s
  | None => Raise UnicodeDecodeError
  end.

Definition byte_of (n : N) : byte :=
  match Byte.of_N n with
  | Some b => b
  | None => Byte.x00
  end.

(** The UTF-8 bytes of a code point; a surrogate has none. *)
Definition utf8_char (c : N) : option bytes :=
  if (c <? 128)%N then Some [byte_of c]
  else if (c <? 2048)%N then Some [byte_of (192 + c / 64); byte_of (128 + c mod 64)]
  else if (c <? 65536)%N then
    if in_range 55296 57343 c then None
    else Some [byte_of (224 + c / 4096); byte_of (128 + (c / 64) mod 64);
               byte_of (128 + c mod 64)]
  else if (c <? 1114112)%N then
    Some [byte_of (240 + c / 262144); byte_of (128 + (c / 4096) mod 64);
          byte_of (128 + (c / 64) mod 64); byte_of (128 + c mod 64)]
  else None.

(** [s.encode('utf-8')] *)
Fixpoint encode_utf8 (s : pystr) : result bytes :=
  match s with
  | [] => Ok []
  | c :: s' =>
      match utf8_char c with
      | Some b =>
          match encode_utf8 s' with
          | Ok bs => Ok (b ++ bs)
          | Raise e => Raise e
          end
      | None => Raise UnicodeEncodeError
      end
  end.

(** ** [json.loads]

    The decoder follows CPython's scanner ([Modules/_json.c]) on a [str]:
    [scan_once] dispatches on the first character, objects and arrays are
    read member by member, a string is read up to its closing quote with the
    escapes decoded.  Every way of rejecting the text is a [JSONDecodeError];
    the interpreter's bounds on the depth of nesting and on the number of
    digits of an integer are not part of the model. *)

Definition ch (c : ascii) : N := N_of_ascii c.
Definition quote : N := 34%N.
Definition backslash : N := 92%N.

Definition is_ws (c : N) : bool :=
  (c =? 32)%N || (c =? 9)%N || (c =? 10)%N || (c =? 13)%N.

Fixpoint skip_ws (s : pystr) : pystr :=
  match s with
  | c :: s' => if is_ws c then skip_ws s' else s
  | [] => []
  end.

Definition is_digit (c : N) : bool := in_range 48 57 c.

Fixpoint span_digits (s : pystr) : pystr * pystr :=
  match s with
  | c :: s' =>
      if is_digit c then let (ds, r) := span_digits s' in (c :: ds, r) else ([], s)
  | [] => ([], [])
  end.

Definition digits_value (ds : pystr) : N :=
  fold_left (fun acc c => (10 * acc + (c - 48))%N) ds 0%N.

(** The binary64 value nearest to [n / d], ties to even. *)
Definition round_binary64 (neg : bool) (n d : positive) : pyfloat :=
  let est := (Z.log2 (Zpos n) - Z.log2 (Zpos d))%Z in
  let num (e : Z) := if (0 <=? e)%Z then Zpos n else (Zpos n * 2 ^ (- e))%Z in
  let den (e : Z) := if (0 <=? e)%Z then (Zpos d * 2 ^ e)%Z else Zpos d in
  let e0 := Z.max (est - 52) (-1074) in
  let e := if ((num e0 / den e0 <? 2 ^ 52) && (-1074 <? e0))%Z then (e0 - 1)%Z else e0 in
  let q := (num e / den e)%Z in
  let r := (num e mod den e)%Z in
  let q' := match (2 * r ?= den e)%Z with
            | Gt => (q + 1)%Z
            | Eq => if Z.odd q then (q + 1)%Z else q
            | Lt => q
            end in
  let m := if (q' =? 2 ^ 53)%Z then (2 ^ 52)%Z else q' in
  let e' := if (q' =? 2 ^ 53)%Z then (e + 1)%Z else e in
  if (971 <? e')%Z then FInf neg
  else match m with
       | Zpos p => FFinite neg p e'
       | _ => FZero neg
       end.

(** [float(lexeme)] for the decimal [m * 10^e10]. *)
Definition float_of_decimal (neg : bool) (m : N) (e10 : Z) : pyfloat :=
  match m with
  | N0 => FZero neg
  | Npos p =>
      if (0 <=? e10)%Z
      then round_binary64 neg (p * Z.to_pos (10 ^ e10)) 1
      else round_binary64 neg p (Z.to_pos (10 ^ (- e10)))
  end.

(** A number: an optional minus sign; an integer part, either a single zero
    or digits that do not start with zero; an optional fraction, a dot and at
    least one digit; an optional exponent, [e] or [E], an optional sign and at
    least one digit.  A fraction or exponent that lacks its digits is left
    unread.  The value is an [int] when there is neither fraction nor
    exponent, a [float] otherwise. *)
Definition match_number (s : pystr) : option (pyobj * pystr) :=
  let (neg, s1) :=
    match s with
    | c :: s' => if (c =? ch "-")%N then (true, s') else (false, s)
    | [] => (false, s)
    end in
  let int_part : option (pystr * pystr) :=
    match s1 with
    | c :: s2 =>
        if in_range 49 57 c then let (ds, r) := span_digits s2 in Some (c :: ds, r)
        else if (c =? 48)%N then Some ([c], s2)
        else None
    | [] => None
    end in
  match int_part with
  | None => None
  | Some (ids, r1) =>
      let (fds, r2) :=
        match r1 with
        | c :: d :: _ =>
            if (c =? ch ".")%N && is_digit d then span_digits (tl r1) else ([], r1)
        | _ => ([], r1)
        end in
      let exp_part : option (Z * pystr) :=
        match r2 with
        | c :: r3 =>
            if (c =? ch "e")%N || (c =? ch "E")%N then
              let (eneg, r4) :=
                match r3 with
                | sg :: r3' =>
                    if (sg =? ch "-")%N then (true, r3')
                    else if (sg =? ch "+")%N then (false, r3')
                    else (false, r3)
                | [] => (false, r3)
                end in
              match span_digits r4 with
              | ([], _) => None
              | (eds, r5) =>
                  let v := Z.of_N (digits_value eds) in
                  Some (if eneg then (- v)%Z else v, r5)
              end
            else None
        | [] => None
        end in
      match fds, exp_part with
      | [], None =>
          let v := Z.of_N (digits_value ids) in
          Some (PInt (if neg then (- v)%Z else v), r2)
      | _, _ =>
          let e10 := match exp_part with Some (e, _) => e | None => 0%Z end in
          let r := match exp_part with Some (_, r5) => r5 | None => r2 end in
          Some (PFloat (float_of_decimal neg (digits_value (ids ++ fds))
                          (e10 - Z.of_nat (List.length fds))), r)
      end
  end.

Definition hex_digit (c : N) : option N :=
  if in_range 48 57 c then Some (c - 48)%N
  else if in_range 97 102 c then Some (c - 87)%N
  else if in_range 65 70 c then Some (c - 55)%N
  else None.

(** Four hexadecimal digits: the code unit of a [\uXXXX] escape. *)
Definition hex4 (s : pystr) : option (N * pystr) :=
  match s with
  | a :: b :: c :: d :: r =>
      match hex_digit a, hex_digit b, hex_digit c, hex_digit d with
      | Some x, Some y, Some z, Some w => Some ((((x * 16 + y) * 16 + z) * 16 + w)%N, r)
      | _, _, _, _ => None
      end
  | _ => None
  end.

Definition escape (c : N) : option N :=
  if (c =? quote)%N || (c =? backslash)%N || (c =? ch "/")%N then Some c
  else if (c =? ch "b")%N then Some 8%N
  else if (c =? ch "f")%N then Some 12%N
  else if (c =? ch "n")%N then Some 10%N
  else if (c =? ch "r")%N then Some 13%N
  else if (c =? ch "t")%N then Some 9%N
  else None.

(** The text of a string from just after its opening quote, and what
    follows the closing quote.  [acc] holds the characters read so far, last
    first. *)
Fixpoint scanstring (fuel : nat) (s acc : pystr) : option (pystr * pystr) :=
  match fuel with
  | O => None
  | S fuel' =>
      match s with
      | [] => None
      | c :: s' =>
          if (c =? quote)%N then Some (rev acc, s')
          else if (c =? backslash)%N then
            match s' with
            | [] => None
            | e :: s'' =>
                if (e =? ch "u")%N then
                  match hex4 s'' with
                  | None => None
                  | Some (u1, r1) =>
                      if is_high_surrogate u1 && (6 <=? List.length r1)%nat
                         && startswith r1 [backslash; ch "u"]
                      then
                        match hex4 (skipn 2 r1) with
                        | None => None
                        | Some (u2, r2) =>
                            if is_low_surrogate u2
                            then scanstring fuel' r2
                                   ((65536 + (u1 - 55296) * 1024 + (u2 - 56320))%N :: acc)
                            else scanstring fuel' r1 (u1 :: acc)
                        end
                      else scanstring fuel' r1 (u1 :: acc)
                  end
                else
                  match escape e with
                  | Some x => scanstring fuel' s'' (x :: acc)
                  | None => None
                  end
            end
          else if (c <=? 31)%N then None
          else scanstring fuel' s' (c :: acc)
      end
  end.

(** [scan_once] reads one value; [parse_members] reads the members of an
    object from the opening quote of a key on, [parse_elements] the elements
    of an array.  Of two nested calls at least one consumes a character, so
    fuel above twice the length of the text is never used up. *)
Fixpoint scan_once (fuel : nat) (s : pystr) : option (pyobj * pystr) :=
  match fuel with
  | O => None
  | S f =>
      match s with
      | [] => None
      | c :: s' =>
          if (c =? quote)%N then
            match scanstring (S (List.length s')) s' [] with
            | Some (t, r) => Some (PStr t, r)
            | None => None
            end
          else if (c =? ch "{")%N then
            match skip_ws s' with
            | c1 :: r1 =>
                if (c1 =? ch "}")%N then Some (PDict [], r1)
                else parse_members f [] (c1 :: r1)
            | [] => None
            end
          else if (c =? ch "[")%N then
            match skip_ws s' with
            | c1 :: r1 =>
                if (c1 =? ch "]")%N then Some (PList [], r1)
                else parse_elements f [] (c1 :: r1)
            | [] => None
            end
          else if startswith s (str "null") then Some (PNone, skipn 4 s)
          else if startswith s (str "true") then Some (PBool true, skipn 4 s)
          else if startswith s (str "false") then Some (PBool false, skipn 5 s)
          else if startswith s (str "NaN") then Some (PFloat FNan, skipn 3 s)
          else if startswith s (str "Infinity") then Some (PFloat (FInf false), skipn 8 s)
          else if startswith s (str "-Infinity") then Some (PFloat (FInf true), skipn 9 s)
          else match_number s
      end
  end
with parse_members (fuel : nat) (acc : list (pystr * pyobj)) (s : pystr)
  : option (pyobj * pystr) :=
  match fuel with
  | O => None
  | S f =>
      match s with
      | c :: s' =>
          if (c =? quote)%N then
            match scanstring (S (List.length s')) s' [] with
            | Some (key, r) =>
                match skip_ws r with
                | c2 :: r2 =>
                    if (c2 =? ch ":")%N then
                      match scan_once f (skip_ws r2) with
                      | Some (v, r3) =>
                          let acc' := dict_set key v acc in
                          match skip_ws r3 with
                          | c4 :: r4 =>
                              if (c4 =? ch "}")%N then Some (PDict acc', r4)
                              else if (c4 =? ch ",")%N then parse_members f acc' (skip_ws r4)
                              else None
                          | [] => None
                          end
                      | None => None
                      end
                    else None
                | [] => None
                end
            | None => None
            end
          else None
      | [] => None
      end
  end
with parse_elements (fuel : nat) (acc : list pyobj) (s : pystr)
  : option (pyobj * pystr) :=
  match fuel with
  | O => None
  | S f =>
      match scan_once f s with
      | Some (v, r) =>
          match skip_ws r with
          | c :: r' =>
              if (c =? ch "]")%N then Some (PList (rev (v :: acc)), r')
              else if (c =? ch ",")%N then parse_elements f (v :: acc) (skip_ws r')
              else None
          | [] => None
          end
      | None => None
      end
  end.

(** [json.loads(s)] for a [str]: a leading byte order mark is refused, white
    space may surround the value, nothing else may follow it. *)
Definition json_loads_fuel (fuel : nat) (s : pystr) : result pyobj :=
  if startswith s [65279%N] then Raise JSONDecodeError
  else
    match scan_once fuel (skip_ws s) with
    | Some (v, r) =>
        match skip_ws r with
        | [] => Ok v
        | _ :: _ => Raise JSONDecodeError
        end
    | None => Raise JSONDecodeError
    end.

Definition json_loads (s : pystr) : result pyobj :=
  json_loads_fuel (2 * List.length s + 2) s.

(** [json.loads(x)] for an object taken out of a document: anything but a
    [str] is a [TypeError]. *)
Definition json_loads_obj (x : pyobj) : result pyobj :=
  match x with
  | PStr s => json_loads s
  | _ => Raise TypeError
  end.

(** ** More of Python's dynamic operations *)

(** [len(x)] *)
Definition py_len (x : pyobj) : result nat :=
  match x with
  | PStr s => Ok (List.length s)
  | PList l => Ok (List.length l)
  | PDict d => Ok (List.length d)
  | PNone | PBool _ | PInt _ | PFloat _ => Raise TypeError
  end.

(** [x in xs] for a set of strings [xs]: [x] is hashed first, which a list
    or a dict refuses. *)
Definition set_contains (xs : list pystr) (x : pyobj) : result bool :=
  match x with
  | PList _ | PDict _ => Raise TypeError
  | _ => Ok (existsb (eq_str x) xs)
  end.

(** [x.startswith(p)]: a method of [str] only. *)
Definition py_startswith (x : pyobj) (p : pystr) : result bool :=
  match x with
  | PStr s => Ok (startswith s p)
  | _ => Raise AttributeError
  end.

(** [any(x.startswith(p) for p in ps)] *)
Fixpoint any_startswith (x : pyobj) (ps : list pystr) : result bool :=
  match ps with
  | [] => Ok false
  | p :: ps' =>
      let* b := py_startswith x p in
      if b then Ok true else any_startswith x ps'
  end.

(** [s.lower()].  The scripts only test the result for membership in a set of
    ASCII names, so the model maps the code points whose lower case contains
    an ASCII letter (the capitals, U+212A and U+0130) and keeps every other
    code point: the lower case of any other character is not ASCII either. *)
Definition lower_char (c : N) : pystr :=
  if in_range 65 90 c then [(c + 32)%N]
  else if (c =? 8490)%N then [107%N]
  else if (c =? 304)%N then [105%N; 775%N]
  else [c].

Definition lower (s : pystr) : pystr := flat_map lower_char s.

(** [c.isspace()]: the characters [str.strip] takes off. *)
Definition is_space (c : N) : bool :=
  in_range 9 13 c || in_range 28 32 c || (c =? 133)%N || (c =? 160)%N || (c =? 5760)%N
  || in_range 8192 8202 c || (c =? 8232)%N || (c =? 8233)%N || (c =? 8239)%N
  || (c =? 8287)%N || (c =? 12288)%N.

Fixpoint lstrip (s : pystr) : pystr :=
  match s with
  | c :: s' => if is_space c then lstrip s' else s
  | [] => []
  end.

(** [s.strip()] *)
Definition strip (s : pystr) : pystr := rev (lstrip (rev (lstrip s))).

(** [s.split(sep)] for a separator of one character: the pieces between the
    separators, empty ones included; there is always at least one piece. *)
Fixpoint str_split (sep : N) (s : pystr) : list pystr :=
  match s with
  | [] => [[]]
  | c :: s' =>
      if (c =? sep)%N then [] :: str_split sep s'
      else
        match str_split sep s' with
        | piece :: pieces => (c :: piece) :: pieces
        | [] => [[c]]
        end
  end.

(** [[x for x in xs if test(x)]]: the test of an element may raise, which
    ends the comprehension. *)
Fixpoint filter_result {A : Type} (test : A -> result bool) (xs : list A) : result (list A) :=
  match xs with
  | [] => Ok []
  | x :: xs' =>
      let* keep := test x in
      let* kept := filter_result test xs' in
      Ok (if keep then x :: kept else kept)
  end.

(** ** Visual records *)

Record VisualRecord : Type := mkVisual {
  name : pyobj;
  type : pyobj;
  is_custom : bool;
  page : pyobj
}.


(** ** Code that mutates a variable and may raise

    [SE S A] is a computation over a mutable [S] (the list [visuals] being
    appended to, the log of the requests made) that ends with a value or
    with an exception; what was done to [S] before the exception stays. *)

Definition SE (S A : Type) : Type := S -> S * result A.

Definition ret {S A : Type} (a : A) : SE S A := fun s => (s, Ok a).

Definition se_bind {S A B : Type} (m : SE S A) (k : A -> SE S B) : SE S B :=
  fun s =>
    match m s with
    | (s', Ok a) => k a s'
    | (s', Raise e) => (s', Raise e)
    end.

Definition lift {S A : Type} (r : result A) : SE S A := fun s => (s, r).

Declare Scope se_scope.
Delimit Scope se_scope with se.
Notation "x <- m ;; k" := (se_bind m (fun x => k))
  (at level 61, m at next level, right associativity) : se_scope.
Notation "m ;;; k" := (se_bind m (fun _ => k))
  (at level 61, right associativity) : se_scope.

(** [for x in xs: body] *)
Fixpoint for_each {S A : Type} (xs : list A) (body : A -> SE S unit) : SE S unit :=
  match xs with
  | [] => ret tt
  | x :: xs' => se_bind (body x) (fun _ => for_each xs' body)
  end.

(** ** Archives

    What [zipfile] shows of an archive: its members in directory order, each
    with what reading it gives.  [zip_file.read(name)] looks the name up in
    the directory, where a later member replaces an earlier one of the same
    name. *)

Definition ZipFile : Type := list (pystr * result bytes).

Definition namelist (z : ZipFile) : list pystr := map fst z.

Definition zip_read (z : ZipFile) (file_name : pystr) : result bytes :=
  match dict_lookup file_name (rev z) with
  | Some r => r
  | None => Raise KeyError
  end.

(** The body of an export response, as [zipfile.ZipFile] takes it: bytes it
    refuses, or an archive. *)
Inductive pbix : Type :=
| NotZip (raw : bytes)
| Zip (z : ZipFile).

(** [zipfile.ZipFile(io.BytesIO(pbix_content))] *)
Definition open_zip (pbix_content : pbix) : result ZipFile :=
  match pbix_content with
  | NotZip _ => Raise BadZipFile
  | Zip z => Ok z
  end.

(** [bool(pbix_content)] for the optional bytes an export returns: [None]
    and the empty byte string are false; an archive is never empty. *)
Definition pbix_truthy (pbix_content : option pbix) : bool :=
  match pbix_content with
  | None => false
  | Some (NotZip []) => false
  | Some _ => true
  end.

(** The test on the name of a member: it holds [Layout] and does not end
    with a slash. *)
Definition is_layout_member (file_name : pystr) : bool :=
  str_contains (str "Layout") file_name && negb (endswith file_name (str "/")).

(** ** [extract_visuals_from_pbix]

    The two scripts carry the same text, each calling its own
    [is_custom_visual]. *)

Section Extraction.

Variable is_custom_visual : pyobj -> result bool.

Local Open Scope se_scope.

Definition append (v : VisualRecord) : SE (list VisualRecord) unit :=
  fun visuals => (visuals ++ [v], Ok tt).

(** The body of [for container in section["visualContainers"]]. *)
Definition visit_container (section_name container : pyobj) : SE (list VisualRecord) unit :=
  has_config <- lift (py_in (str "config") container) ;;
  if (has_config : bool) then
    config_str <- lift (py_getitem container (str "config")) ;;
    config <- lift (json_loads_obj config_str) ;;
    single <- lift (py_get config (str "singleVisual") (PDict [])) ;;
    visual_type <- lift (py_get single (str "visualType") (PStr (str "Unknown"))) ;;
    visual_name <- lift (py_get config (str "name") (PStr (str "Unnamed"))) ;;
    custom <- lift (is_custom_visual visual_type) ;;
    append (mkVisual visual_name visual_type custom section_name)
  else ret tt.

(** The body of [for section in layout_data["sections"]]. *)
Definition visit_section (section : pyobj) : SE (list VisualRecord) unit :=
  section_name <- lift (py_get section (str "displayName") (PStr (str "Unnamed Section"))) ;;
  has_containers <- lift (py_in (str "visualContainers") section) ;;
  if (has_containers : bool) then
    containers <- lift (let* c := py_getitem section (str "visualContainers") in py_iter c) ;;
    for_each containers (visit_container section_name)
  else ret tt.

(** The text under [try:] for one layout file, and again under
    [except UnicodeDecodeError:] with the other codec. *)
Definition read_layout (decode : bytes -> result pystr) (zip_file : ZipFile)
  (file_name : pystr) : SE (list VisualRecord) unit :=
  raw <- lift (zip_read zip_file file_name) ;;
  layout_content <- lift (decode raw) ;;
  layout_data <- lift (json_loads layout_content) ;;
  has_sections <- lift (py_in (str "sections") layout_data) ;;
  if (has_sections : bool) then
    sections <- lift (let* x := py_getitem layout_data (str "sections") in py_iter x) ;;
    for_each sections visit_section
  else ret tt.

(** The inner [try]: only a [UnicodeDecodeError] is handled, by a second
    attempt whose own exceptions are all swallowed; any other exception of
    the first attempt goes on to the outer handler. *)
Definition try_layout (zip_file : ZipFile) (file_name : pystr) : SE (list VisualRecord) unit :=
  fun visuals =>
    match read_layout decode_utf16le zip_file file_name visuals with
    | (visuals1, Raise UnicodeDecodeError) =>
        (fst (read_layout decode_utf8 zip_file file_name visuals1), Ok tt)
    | other => other
    end.

Definition visit_member (zip_file : ZipFile) (file_name : pystr) : SE (list VisualRecord) unit :=
  if is_layout_member file_name
  then try_layout zip_file file_name
  else ret tt.

(** The outer [try] swallows every exception; [visuals] is returned as it
    stands. *)
Definition extract_visuals_from_pbix_with (pbix_content : pbix) : list VisualRecord :=
  fst ((zip_file <- lift (open_zip pbix_content) ;;
        for_each (namelist zip_file) (visit_member zip_file)) []).

End Extraction.

(** ** Grouping visuals by page

    [pages = {}] is keyed by [visual["page"]]; of the groups only their
    number is used, so the model keeps the keys, in insertion order.  A
    list or a dict cannot be a key. *)

Definition hashable (x : pyobj) : bool :=
  match x with
  | PList _ | PDict _ => false
  | _ => true
  end.

(** The integer a float is equal to, when there is one. *)
Definition float_int (f : pyfloat) : option Z :=
  match f with
  | FZero _ => Some 0%Z
  | FFinite neg m e =>
      let sign (z : Z) := if neg then (- z)%Z else z in
      if (0 <=? e)%Z then Some (sign (Zpos m * 2 ^ e)%Z)
      else if (Zpos m mod 2 ^ (- e) =? 0)%Z then Some (sign (Zpos m / 2 ^ (- e))%Z)
      else None
  | FInf _ | FNan => None
  end.

Definition pyfloat_eqb (f g : pyfloat) : bool :=
  match f, g with
  | FZero _, FZero _ => true
  | FInf a, FInf b => Bool.eqb a b
  | FNan, FNan => true
  | FFinite a m e, FFinite b n k => Bool.eqb a b && Pos.eqb m n && Z.eqb e k
  | _, _ => false
  end.

(** Numbers are compared by value across [bool], [int] and [float]. *)
Definition int_of_number (x : pyobj) : option Z :=
  match x with
  | PBool b => Some (if b then 1 else 0)%Z
  | PInt z => Some z
  | PFloat f => float_int f
  | _ => None
  end.

(** Equality of two dictionary keys.  The one [NaN] object of the [json]
    module is found again by identity. *)
Definition key_eqb (x y : pyobj) : bool :=
  match x, y with
  | PNone, PNone => true
  | PStr s, PStr t => str_eqb s t
  | _, _ =>
      match int_of_number x, int_of_number y with
      | Some a, Some b => Z.eqb a b
      | None, None =>
          match x, y with
          | PFloat f, PFloat g => pyfloat_eqb f g
          | _, _ => false
          end
      | _, _ => false
      end
  end.

Fixpoint group_pages (visuals : list VisualRecord) (pages : list pyobj) : result (list pyobj) :=
  match visuals with
  | [] => Ok pages
  | visual :: rest =>
      if hashable (page visual) then
        group_pages rest
          (if existsb (key_eqb (page visual)) pages then pages else pages ++ [page visual])
      else Raise TypeError
  end.

(** ** The REST service, the disk and the clock

    [requests] either raises or answers with a [Response], of which the
    scripts read the status, the body as bytes, as text or as JSON. *)

Record Response : Type := mkResponse {
  status_code : Z;
  content : pbix;
  text : pystr;
  json : result pyobj
}.

(** [response.raise_for_status()] *)
Definition raise_for_status (r : Response) : result unit :=
  if ((400 <=? status_code r) && (status_code r <? 600))%Z then Raise HTTPError else Ok tt.

(** What the scripts ask of the outside, in the order asked. *)
Inductive call : Type :=
| GetReports
| ExportReport (report_id : pyobj)
| CloneReport (report_id : pyobj)
| DeleteReport (report_id : pyobj)
| GetReportPages (report_id : pyobj)
| WriteFile (filename : pystr)
| RemoveFile (filename : pystr)
| Sleep.

Definition trace : Type := list call.

Definition emit (c : call) : SE trace unit := fun t => (t ++ [c], Ok tt).

Definition is_delete (c : call) : bool :=
  match c with
  | DeleteReport _ => true
  | _ => false
  end.

(** The number of deletion requests in a log. *)
Definition deletions (t : trace) : nat := List.length (filter is_delete t).

(** A workspace and a report as the listing calls give them; [None] stands
    for a key the service left out.  The values the service sends under
    these keys are taken to be strings. *)
Record Workspace : Type := mkWorkspace {
  ws_name : option pystr;
  ws_id : option pystr;
  ws_capacityId : option pystr
}.

Record Report : Type := mkReport {
  rep_name : option pystr;
  rep_id : option pystr;
  rep_webUrl : option pystr
}.

(** What the outside answers while one report is analysed. *)
Record ReportWorld : Type := mkReportWorld {
  export_response : result Response;
  clone_response : result Response;
  clone_export_response : result Response;
  pages_response : result Response;
  write_pbix : result unit
}.

(** What the outside answers for one workspace: the listing of its reports,
    or the exception [get_reports_in_workspace] leaves with, and the answers
    for each report. *)
Definition WorkspaceWorld : Type := result (list (Report * ReportWorld)).

Definition get_default {A : Type} (o : option A) (default : A) : A :=
  match o with
  | Some a => a
  | None => default
  end.

Definition id_obj (report_id : option pystr) : pyobj :=
  match report_id with
  | Some s => PStr s
  | None => PNone
  end.

(** [f"report_{report_id[:8]}.pbix"]: [None] cannot be sliced. *)
Definition pbix_filename_of (report_id : option pystr) : result pystr :=
  match report_id with
  | Some s => Ok (str "report_" ++ str_prefix 8 s ++ str ".pbix")
  | None => Raise TypeError
  end.

(** ** The CSV sink

    [csv.DictWriter] in its default dialect: fields joined by commas, a
    field that holds a comma, a quote, a carriage return or a line feed put
    between quotes with its quotes doubled, each row ended by CR LF.  The
    file, opened with [encoding='utf-8'] and [newline=''], is held as its
    bytes. *)

Definition needs_quotes (field : pystr) : bool :=
  existsb (fun c => (c =? ch ",")%N || (c =? quote)%N || (c =? 13)%N || (c =? 10)%N) field.

Definition csv_field (field : pystr) : pystr :=
  if needs_quotes field
  then quote :: flat_map (fun c => if (c =? quote)%N then [quote; quote] else [c]) field ++ [quote]
  else field.

Fixpoint join_fields (fields : list pystr) : pystr :=
  match fields with
  | [] => []
  | [f] => f
  | f :: rest => f ++ ch "," :: join_fields rest
  end.

(** [writer.writerow] on the fields of a row. *)
Definition csv_row (fields : list pystr) : pystr :=
  join_fields (map csv_field fields) ++ [13%N; 10%N].

Fixpoint uint_str (u : Decimal.uint) : pystr :=
  match u with
  | Decimal.Nil => []
  | Decimal.D0 u' => 48%N :: uint_str u'
  | Decimal.D1 u' => 49%N :: uint_str u'
  | Decimal.D2 u' => 50%N :: uint_str u'
  | Decimal.D3 u' => 51%N :: uint_str u'
  | Decimal.D4 u' => 52%N :: uint_str u'
  | Decimal.D5 u' => 53%N :: uint_str u'
  | Decimal.D6 u' => 54%N :: uint_str u'
  | Decimal.D7 u' => 55%N :: uint_str u'
  | Decimal.D8 u' => 56%N :: uint_str u'
  | Decimal.D9 u' => 57%N :: uint_str u'
  end.

(** [str(n)] *)
Definition str_of_nat (n : nat) : pystr := uint_str (Nat.to_uint n).

(** The text of an optional string field: [None] is written as nothing. *)
Definition field_of_option (o : option pystr) : pystr := get_default o [].

(** [writer.writerow]: the text of the row is handed to the file, which
    encodes it; a row that cannot be encoded raises and adds nothing. *)
Definition writerow (fields : list pystr) : SE bytes unit :=
  fun csvfile =>
    match encode_utf8 (csv_row fields) with
    | Ok b => (csvfile ++ b, Ok tt)
    | Raise e => (csvfile, Raise e)
    end.

(** The figures [main] prints at the end of a run. *)
Record Summary : Type := mkSummary {
  total_reports : nat;
  reports_with_custom : nat;
  directlake_reports : nat;
  successful_exports : nat
}.

(** * [get_reports_pbi_sp.py] *)

Module SP.

Local Open Scope se_scope.

Definition builtin_visuals : list pystr := map str [
  "barChart"; "clusteredBarChart"; "clusteredColumnChart"; "columnChart";
  "lineChart"; "areaChart"; "lineClusteredColumnComboChart"; "lineStackedColumnComboChart";
  "pieChart"; "donutChart"; "funnel"; "gauge"; "card"; "multiRowCard";
  "table"; "matrix"; "slicer"; "map"; "filledMap"; "shape"; "image";
  "textbox"; "scatterChart"; "pivotTable"; "treemap"; "waterfallChart";
  "hundredPercentStackedBarChart"; "hundredPercentStackedColumnChart";
  "ribbonChart"; "kpi"; "decompositionTreeVisual";
  "stackedBarChart"; "stackedColumnChart"; "lineStackedAreaChart";
  "hundredPercentStackedAreaChart"; "stackedAreaChart";
  "ribbon"; "actionButton"; "basicShape"
]%string.

Definition custom_prefixes : list pystr := map str ["PBI_CV"; "custom"; "Custom"]%string.

Definition is_custom_visual (visual_type : pyobj) : result bool :=
  if negb (truthy visual_type) || eq_str visual_type (str "Unknown") then Ok false
  else
    let* known := set_contains builtin_visuals visual_type in
    if known then Ok false
    else
      let* dotted := py_in (str ".") visual_type in
      if dotted then Ok true
      else
        let* n := py_len visual_type in
        if (25 <? n)%nat then Ok true
        else
          let* prefixed := any_startswith visual_type custom_prefixes in
          if prefixed then Ok true else Ok false.

Definition extract_visuals_from_pbix : pbix -> list VisualRecord :=
  extract_visuals_from_pbix_with is_custom_visual.

(** [extract_visuals_from_scan], with [debug] left at [False]: the visuals
    of every report of a Scanner API result, keyed by report identifier.
    The exception of any step ends the walk; the reports stored so far are
    returned. *)

Definition scan_visual (page_name visual : pyobj) : SE (list VisualRecord) unit :=
  visual_type <- lift (py_get visual (str "visualType") (PStr (str "Unknown"))) ;;
  visual_name <- lift (py_get visual (str "name") (PStr (str "Unnamed"))) ;;
  custom <- lift (is_custom_visual visual_type) ;;
  append (mkVisual visual_name visual_type custom page_name).

Definition scan_page (page : pyobj) : SE (list VisualRecord) unit :=
  page_name <- lift (py_get page (str "name") (PStr (str "Unnamed Page"))) ;;
  visuals <- lift (let* v := py_get page (str "visuals") (PList []) in py_iter v) ;;
  for_each visuals (scan_visual page_name).

Definition ReportVisuals : Type := list (pyobj * (pyobj * list VisualRecord)).

(** [report_visuals[report_id] = ...] *)
Fixpoint store_report (report_id : pyobj) (entry : pyobj * list VisualRecord)
  (report_visuals : ReportVisuals) : ReportVisuals :=
  match report_visuals with
  | [] => [(report_id, entry)]
  | (k, v) :: rest =>
      if key_eqb report_id k then (k, entry) :: rest
      else (k, v) :: store_report report_id entry rest
  end.

Definition scan_report (report : pyobj) : SE ReportVisuals unit :=
  report_id <- lift (py_get report (str "id") PNone) ;;
  report_name <- lift (py_get report (str "name") (PStr (str "Unknown"))) ;;
  pages <- lift (let* p := py_get report (str "pages") (PList []) in py_iter p) ;;
  match for_each pages scan_page [] with
  | (all_visuals, Ok _) =>
      if hashable report_id
      then fun report_visuals =>
             (store_report report_id (report_name, all_visuals) report_visuals, Ok tt)
      else lift (Raise TypeError)
  | (_, Raise e) => lift (Raise e)
  end.

Definition scan_workspace_reports (workspace : pyobj) : SE ReportVisuals unit :=
  reports <- lift (let* r := py_get workspace (str "reports") (PList []) in py_iter r) ;;
  for_each reports scan_report.

Definition extract_visuals_from_scan (scan_data : pyobj) : ReportVisuals :=
  fst ((workspaces <- lift (let* w := py_get scan_data (str "workspaces") (PList []) in
                            py_iter w) ;;
        for_each workspaces scan_workspace_reports) []).

(** [export_report_as_pbix]: the body of a 200 answer, [None] for any other
    answer and for any exception, whatever the service says went wrong. *)
Definition export_result (response : result Response) : option pbix :=
  match response with
  | Ok r =>
      if (status_code r =? 200)%Z then Some (content r)
      else
        match (let* body := json r in
               let* error := py_get body (str "error") (PDict []) in
               py_get error (str "code") (PStr (str "Unknown"))) with
        | Ok error_msg => None
        | Raise _ => None
        end
  | Raise _ => None
  end.

Definition export_report_as_pbix (response : result Response) (report_id : pyobj)
  (is_clone : bool) : SE trace (option pbix) :=
  emit (ExportReport report_id) ;;;
  ret (export_result response).

(** [clone_report]: the name of the clone is built from [report_id[:8]]
    before the [try], so a missing identifier raises; inside the [try] every
    failure gives [None]. *)
Definition clone_result (response : result Response) : pyobj :=
  match response with
  | Ok r =>
      if ((status_code r =? 200) || (status_code r =? 201))%Z then
        match (let* body := json r in py_get body (str "id") PNone) with
        | Ok clone_id => clone_id
        | Raise _ => PNone
        end
      else PNone
  | Raise _ => PNone
  end.

Definition clone_report (response : result Response) (report_id : option pystr)
  : SE trace pyobj :=
  match report_id with
  | None => lift (Raise TypeError)
  | Some rid =>
      let clone_name := str "temp_analysis_" ++ str_prefix 8 rid in
      emit (CloneReport (PStr rid)) ;;;
      ret (clone_result response)
  end.

(** [delete_report]: the request is made and its outcome ignored. *)
Definition delete_report (report_id : pyobj) : SE trace unit :=
  emit (DeleteReport report_id).

(** [get_report_pages]: the [value] of the answer, the empty list on any
    failure. *)
Definition pages_result (response : result Response) : pyobj :=
  match (let* r := response in
         let* _ := raise_for_status r in
         let* body := json r in
         py_get body (str "value") (PList [])) with
  | Ok pages => pages
  | Raise _ => PList []
  end.

Definition get_report_pages (response : result Response) (report_id : pyobj)
  : SE trace pyobj :=
  emit (GetReportPages report_id) ;;;
  ret (pages_result response).

Record ScanResult : Type := mkResult {
  workspace : pystr;
  report : pystr;
  report_id : option pystr;
  method : pystr;
  num_pages : nat;
  is_directlake : pystr;
  total_visuals : nat;
  custom_visuals : nat
}.

Definition set_method (r : ScanResult) (m : pystr) : ScanResult :=
  mkResult (workspace r) (report r) (report_id r) m (num_pages r) (is_directlake r)
    (total_visuals r) (custom_visuals r).

Definition set_num_pages (r : ScanResult) (n : nat) : ScanResult :=
  mkResult (workspace r) (report r) (report_id r) (method r) n (is_directlake r)
    (total_visuals r) (custom_visuals r).

Definition set_is_directlake (r : ScanResult) (d : pystr) : ScanResult :=
  mkResult (workspace r) (report r) (report_id r) (method r) (num_pages r) d
    (total_visuals r) (custom_visuals r).

Definition set_total_visuals (r : ScanResult) (n : nat) : ScanResult :=
  mkResult (workspace r) (report r) (report_id r) (method r) (num_pages r) (is_directlake r)
    n (custom_visuals r).

Definition set_custom_visuals (r : ScanResult) (n : nat) : ScanResult :=
  mkResult (workspace r) (report r) (report_id r) (method r) (num_pages r) (is_directlake r)
    (total_visuals r) n.

(** [if pbix_content:] taken: the file is saved, the visuals extracted and
    counted. *)
Definition analyze_pbix (result : ScanResult) (report_id : option pystr) (w : ReportWorld)
  (pbix_content : pbix) : SE trace ScanResult :=
  pbix_filename <- lift (pbix_filename_of report_id) ;;
  emit (WriteFile pbix_filename) ;;;
  lift (write_pbix w) ;;;
  let visuals := extract_visuals_from_pbix pbix_content in
  match visuals with
  | _ :: _ =>
      pages <- lift (group_pages visuals []) ;;
      let custom_visuals := filter is_custom visuals in
      let result := set_method result (str "Direct Export") in
      let result := set_total_visuals result (List.length visuals) in
      let result := set_custom_visuals result (List.length custom_visuals) in
      let result := set_is_directlake result (str "No") in
      let result := set_num_pages result (List.length pages) in
      ret result
  | [] =>
      let result := set_method result (str "Direct Export (No Visuals)") in
      let result := set_is_directlake result (str "No") in
      ret result
  end.

(** [else:] the pages are listed; each is asked for its [displayName] to be
    printed. *)
Definition list_pages (result : ScanResult) (report_id : option pystr) (w : ReportWorld)
  : SE trace ScanResult :=
  pages <- get_report_pages (pages_response w) (id_obj report_id) ;;
  if truthy pages then
    n <- lift (py_len pages) ;;
    items <- lift (py_iter pages) ;;
    for_each items (fun page => lift (let* _ := py_get page (str "displayName") PNone in Ok tt)) ;;;
    let result := set_method result (str "Page Listing Only") in
    let result := set_num_pages result n in
    ret result
  else
    ret (set_method result (str "Failed")).

(** [if not pbix_content:] the direct export gave nothing: the result is
    marked, the report cloned and the clone exported.  The three variables
    the rest of the body reads are returned: [result], [pbix_content] and
    [clone_id]. *)
Definition clone_and_export (result : ScanResult) (direct : option pbix)
  (report_id : option pystr) (w : ReportWorld)
  : SE trace (ScanResult * option pbix * pyobj) :=
  if negb (pbix_truthy direct) then
    let result := set_is_directlake result (str "Yes") in
    clone_id <- clone_report (clone_response w) report_id ;;
    if truthy clone_id then
      emit Sleep ;;;
      cloned <- export_report_as_pbix (clone_export_response w) clone_id true ;;
      ret (result, cloned, clone_id)
    else ret (result, direct, clone_id)
  else ret (result, direct, PNone).

(** The body of [for report in reports:]; [None] when the report is passed
    over by [continue]. *)
Definition analyze_report (workspace_name : pystr) (report : Report) (w : ReportWorld)
  : SE trace (option ScanResult) :=
  let report_name := get_default (rep_name report) (str "Unknown") in
  let report_id := rep_id report in
  if str_contains (str "temp_analysis_") report_name
     || str_contains (str "temp_clone_for_analysis") report_name
  then ret None
  else
    let result :=
      mkResult workspace_name report_name report_id (str "Failed") 0 (str "Unknown") 0 0 in
    direct <- export_report_as_pbix (export_response w) (id_obj report_id) false ;;
    st <- clone_and_export result direct report_id w ;;
    let '(result, pbix_content, clone_id) := st in
    result <- match pbix_content with
              | Some content =>
                  if pbix_truthy pbix_content
                  then analyze_pbix result report_id w content
                  else list_pages result report_id w
              | None => list_pages result report_id w
              end ;;
    (if truthy clone_id then delete_report clone_id else ret tt) ;;;
    ret (Some result).

(** The loop over the reports, with [results] as it grows. *)
Fixpoint analyze_reports (workspace_name : pystr) (reports : list (Report * ReportWorld))
  (results : list ScanResult) : SE trace (list ScanResult) :=
  match reports with
  | [] => ret results
  | (report, w) :: rest =>
      r <- analyze_report workspace_name report w ;;
      analyze_reports workspace_name rest
        (match r with
         | Some result => results ++ [result]
         | None => results
         end)
  end.

Definition analyze_workspace_reports (workspace_name : pystr) (ww : WorkspaceWorld)
  : SE trace (list ScanResult) :=
  emit GetReports ;;;
  reports <- lift ww ;;
  analyze_reports workspace_name reports [].

(** The loop of [main]: an exception of a workspace is printed and the
    workspace left out. *)
Fixpoint scan_workspaces (workspaces : list (Workspace * WorkspaceWorld))
  (all_results : list ScanResult) (t : trace) : trace * list ScanResult :=
  match workspaces with
  | [] => (t, all_results)
  | (ws, ww) :: rest =>
      let workspace_name := get_default (ws_name ws) (str "Unknown") in
      match analyze_workspace_reports workspace_name ww t with
      | (t', Ok results) => scan_workspaces rest (all_results ++ results) t'
      | (t', Raise _) => scan_workspaces rest all_results t'
      end
  end.

Definition fieldnames : list pystr := map str [
  "workspace"; "report"; "report_id"; "method"; "num_pages";
  "is_directlake"; "total_visuals"; "custom_visuals"
]%string.

Definition row_fields (r : ScanResult) : list pystr :=
  [workspace r; report r; field_of_option (report_id r); method r; str_of_nat (num_pages r);
   is_directlake r; str_of_nat (total_visuals r); str_of_nat (custom_visuals r)].

(** The file written at the end of the run, opened with ['w']: the
    header, then a row per result. *)
Definition write_csv (all_results : list ScanResult) : bytes * result unit :=
  (writerow fieldnames ;;;
   for_each all_results (fun result => writerow (row_fields result))) [].

Definition summary (all_results : list ScanResult) : Summary :=
  mkSummary
    (List.length all_results)
    (List.length (filter (fun r => (0 <? custom_visuals r)%nat) all_results))
    (List.length (filter (fun r => str_eqb (is_directlake r) (str "Yes")) all_results))
    (List.length (filter (fun r => str_contains (str "Export") (method r)) all_results)).

(** [main], from the listing of the workspaces on: the requests made, the
    file, and the summary unless writing the file raised. *)
Definition main (workspaces : list (Workspace * WorkspaceWorld))
  : trace * bytes * result Summary :=
  let '(t, all_results) := scan_workspaces workspaces [] [] in
  match write_csv all_results with
  | (csvfile, Ok _) => (t, csvfile, Ok (summary all_results))
  | (csvfile, Raise e) => (t, csvfile, Raise e)
  end.

(** [scan_workspace]: what the scripts read of the answer to the scan
    request is its status and its [Location] header.  An accepted scan is
    named by what follows the last slash of the header; a header that is
    missing or empty names none.  An exception of the request is not
    caught. *)
Record ScanAnswer : Type := mkScanAnswer {
  scan_status : Z;
  scan_location : option pystr
}.

Definition scan_id_of_location (location : pystr) : option pystr :=
  match location with
  | [] => None
  | _ :: _ => Some (last (str_split (ch "/") location) [])
  end.

Definition scan_workspace (response : result ScanAnswer) : result (option pystr) :=
  let* r := response in
  if (scan_status r =? 202)%Z
  then Ok (scan_id_of_location (get_default (scan_location r) []))
  else Ok None.

End SP.

(** * [get_reports_pbi_interactive.py] *)

Module Interactive.

Local Open Scope se_scope.

Definition builtin_visuals : list pystr := map str [
  "clusteredBarChart"; "clusteredColumnChart"; "hundredPercentStackedBarChart";
  "hundredPercentStackedColumnChart"; "lineChart"; "areaChart"; "stackedAreaChart";
  "lineStackedColumnComboChart"; "lineClusteredColumnComboChart"; "ribbonChart";
  "waterfallChart"; "funnelChart"; "scatterChart"; "pieChart"; "donutChart";
  "gauge"; "card"; "multiRowCard"; "kpi"; "slicer"; "table"; "matrix";
  "filledMap"; "map"; "shape"; "image"; "textbox"; "treemap"; "basicShape";
  "actionButton"; "columnChart"; "barChart"; "pivotTable"
]%string.

(** [visual_type.lower()] is a method call: anything but a [str] raises. *)
Definition is_custom_visual (visual_type : pyobj) : result bool :=
  match visual_type with
  | PStr s =>
      if str_mem (lower s) builtin_visuals then Ok false
      else if str_contains (str ".") s || (25 <? List.length s)%nat
              || startswith s (str "PBI_CV_")
      then Ok true
      else Ok false
  | _ => Raise AttributeError
  end.

Definition extract_visuals_from_pbix : pbix -> list VisualRecord :=
  extract_visuals_from_pbix_with is_custom_visual.

Definition directlake_marker : pystr := str "ExportData_DisabledForModelWithDirectLakeMode".

(** [export_report_as_pbix]: the error text is searched for the marker and
    [None] is returned whether it is found or not. *)
Definition export_result (response : result Response) : option pbix :=
  match response with
  | Ok r =>
      if (status_code r =? 200)%Z then Some (content r)
      else
        let error_msg := text r in
        if str_contains directlake_marker error_msg then None
        else None
  | Raise _ => None
  end.

Definition export_report_as_pbix (response : result Response) (report_id : pyobj)
  : SE trace (option pbix) :=
  emit (ExportReport report_id) ;;;
  ret (export_result response).

Definition pages_result (response : result Response) : pyobj :=
  match (let* r := response in
         let* _ := raise_for_status r in
         let* body := json r in
         py_get body (str "value") (PList [])) with
  | Ok pages => pages
  | Raise _ => PList []
  end.

Definition get_report_pages (response : result Response) (report_id : pyobj)
  : SE trace pyobj :=
  emit (GetReportPages report_id) ;;;
  ret (pages_result response).

Record ScanResult : Type := mkResult {
  workspace : pystr;
  workspace_id : option pystr;
  capacity_id : pystr;
  report : pystr;
  report_id : option pystr;
  method : pystr;
  num_pages : nat;
  is_directlake : pystr;
  total_visuals : nat;
  custom_visuals : nat
}.

Definition set_method (r : ScanResult) (m : pystr) : ScanResult :=
  mkResult (workspace r) (workspace_id r) (capacity_id r) (report r) (report_id r) m
    (num_pages r) (is_directlake r) (total_visuals r) (custom_visuals r).

Definition set_num_pages (r : ScanResult) (n : nat) : ScanResult :=
  mkResult (workspace r) (workspace_id r) (capacity_id r) (report r) (report_id r) (method r)
    n (is_directlake r) (total_visuals r) (custom_visuals r).

Definition set_is_directlake (r : ScanResult) (d : pystr) : ScanResult :=
  mkResult (workspace r) (workspace_id r) (capacity_id r) (report r) (report_id r) (method r)
    (num_pages r) d (total_visuals r) (custom_visuals r).

Definition set_total_visuals (r : ScanResult) (n : nat) : ScanResult :=
  mkResult (workspace r) (workspace_id r) (capacity_id r) (report r) (report_id r) (method r)
    (num_pages r) (is_directlake r) n (custom_visuals r).

Definition set_custom_visuals (r : ScanResult) (n : nat) : ScanResult :=
  mkResult (workspace r) (workspace_id r) (capacity_id r) (report r) (report_id r) (method r)
    (num_pages r) (is_directlake r) (total_visuals r) n.

(** [if pbix_content:] taken: the file is saved, read and removed again; a
    failure to remove it is only reported. *)
Definition analyze_pbix (result : ScanResult) (report_id : option pystr) (w : ReportWorld)
  (pbix_content : pbix) : SE trace ScanResult :=
  filename <- lift (pbix_filename_of report_id) ;;
  emit (WriteFile filename) ;;;
  lift (write_pbix w) ;;;
  let visuals := extract_visuals_from_pbix pbix_content in
  emit (RemoveFile filename) ;;;
  match visuals with
  | _ :: _ =>
      pages <- lift (group_pages visuals []) ;;
      let custom_visuals := filter is_custom visuals in
      let result := set_method result (str "Direct Export") in
      let result := set_total_visuals result (List.length visuals) in
      let result := set_custom_visuals result (List.length custom_visuals) in
      let result := set_is_directlake result (str "No") in
      let result := set_num_pages result (List.length pages) in
      ret result
  | [] =>
      let result := set_method result (str "Direct Export (No Visuals)") in
      let result := set_is_directlake result (str "No") in
      ret result
  end.

(** [else:] the export failed, for whatever reason. *)
Definition list_pages (result : ScanResult) (report_id : option pystr) (w : ReportWorld)
  : SE trace ScanResult :=
  let result := set_is_directlake result (str "Yes") in
  pages <- get_report_pages (pages_response w) (id_obj report_id) ;;
  if truthy pages then
    n <- lift (py_len pages) ;;
    items <- lift (py_iter pages) ;;
    for_each items (fun page =>
      lift (let* unnamed := py_get page (str "name") (PStr (str "Unnamed")) in
            let* _ := py_get page (str "displayName") unnamed in
            Ok tt)) ;;;
    let result := set_method result (str "Page Listing Only") in
    let result := set_num_pages result n in
    ret result
  else
    ret (set_method result (str "Failed")).

(** The body of [for report in reports:]. *)
Definition analyze_report (workspace_id : option pystr) (workspace_name capacity_id : pystr)
  (report : Report) (w : ReportWorld) : SE trace ScanResult :=
  let report_name := get_default (rep_name report) (str "Unnamed Report") in
  let report_id := rep_id report in
  let result :=
    mkResult workspace_name workspace_id capacity_id report_name report_id
      (str "Failed") 0 (str "Unknown") 0 0 in
  pbix_content <- export_report_as_pbix (export_response w) (id_obj report_id) ;;
  match pbix_content with
  | Some content =>
      if pbix_truthy pbix_content
      then analyze_pbix result report_id w content
      else list_pages result report_id w
  | None => list_pages result report_id w
  end.

Fixpoint analyze_reports (workspace_id : option pystr) (workspace_name capacity_id : pystr)
  (reports : list (Report * ReportWorld)) (results : list ScanResult)
  : SE trace (list ScanResult) :=
  match reports with
  | [] => ret results
  | (report, w) :: rest =>
      result <- analyze_report workspace_id workspace_name capacity_id report w ;;
      analyze_reports workspace_id workspace_name capacity_id rest (results ++ [result])
  end.

Definition analyze_workspace_reports (workspace_id : option pystr)
  (workspace_name capacity_id : pystr) (ww : WorkspaceWorld) : SE trace (list ScanResult) :=
  emit GetReports ;;;
  reports <- lift ww ;;
  analyze_reports workspace_id workspace_name capacity_id reports [].

Definition fieldnames : list pystr := map str [
  "workspace"; "workspace_id"; "capacity_id"; "report"; "report_id"; "method"; "num_pages";
  "is_directlake"; "total_visuals"; "custom_visuals"
]%string.

Definition row_fields (r : ScanResult) : list pystr :=
  [workspace r; field_of_option (workspace_id r); capacity_id r; report r;
   field_of_option (report_id r); method r; str_of_nat (num_pages r);
   is_directlake r; str_of_nat (total_visuals r); str_of_nat (custom_visuals r)].

(** The file once created: [open(csv_filename, 'w')] and [writeheader()]. *)
Definition create_csv : bytes * result unit := writerow fieldnames [].

(** [open(csv_filename, 'a')] and a [writerow] per result, behind
    [if results:]. *)
Definition append_csv (results : list ScanResult) : SE bytes unit :=
  match results with
  | [] => ret tt
  | _ :: _ => for_each results (fun result => writerow (row_fields result))
  end.

(** The file after the results of each workspace were appended in turn, and
    whether an append raised. *)
Definition csv_after (batches : list (list ScanResult)) : bytes * result unit :=
  (writerow fieldnames ;;; for_each batches append_csv) [].

(** The same rows written in one go after the header, as the other script
    writes its file. *)
Definition single_flush (all_results : list ScanResult) : bytes * result unit :=
  (writerow fieldnames ;;;
   for_each all_results (fun result => writerow (row_fields result))) [].

(** The loop of [main]: nothing catches an exception of a workspace or of an
    append, the run ends there with the file as it stands. *)
Fixpoint scan_workspaces (workspaces : list (Workspace * WorkspaceWorld))
  (all_results : list ScanResult) (csvfile : bytes) (t : trace)
  : trace * bytes * result (list ScanResult) :=
  match workspaces with
  | [] => (t, csvfile, Ok all_results)
  | (ws, ww) :: rest =>
      let workspace_name := get_default (ws_name ws) (str "Unnamed Workspace") in
      let workspace_id := ws_id ws in
      let capacity_id := get_default (ws_capacityId ws) [] in
      match analyze_workspace_reports workspace_id workspace_name capacity_id ww t with
      | (t', Ok results) =>
          match append_csv results csvfile with
          | (csvfile', Ok _) => scan_workspaces rest (all_results ++ results) csvfile' t'
          | (csvfile', Raise e) => (t', csvfile', Raise e)
          end
      | (t', Raise e) => (t', csvfile, Raise e)
      end
  end.

Definition summary (all_results : list ScanResult) : Summary :=
  mkSummary
    (List.length all_results)
    (List.length (filter (fun r => (0 <? custom_visuals r)%nat) all_results))
    (List.length (filter (fun r => str_eqb (is_directlake r) (str "Yes")) all_results))
    (List.length (filter (fun r => str_contains (str "Export") (method r)) all_results)).

(** [main], from the listing of the workspaces on: the requests made, the
    file, and the summary unless the run was cut short. *)
Definition main (workspaces : list (Workspace * WorkspaceWorld))
  : trace * bytes * result Summary :=
  match create_csv with
  | (csvfile, Ok _) =>
      match scan_workspaces workspaces [] csvfile [] with
      | (t, csvfile', Ok all_results) => (t, csvfile', Ok (summary all_results))
      | (t, csvfile', Raise e) => (t, csvfile', Raise e)
      end
  | (csvfile, Raise e) => ([], csvfile, Raise e)
  end.

(** The capacity filter of [main]: the line read is stripped; an empty line
    asks for no filter, any other is cut at its commas and the pieces that
    are not blank are kept, stripped. *)
Definition capacity_ids_of_input (line : pystr) : option (list pystr) :=
  let capacity_input := strip line in
  match capacity_input with
  | [] => None
  | _ :: _ =>
      Some (map strip
              (filter (fun c => match strip c with [] => false | _ :: _ => true end)
                 (str_split (ch ",") capacity_input)))
  end.

(** [get_workspaces].  Both sides of the comparison of capacities are put
    in lower case, identifiers of any script: [str.lower] is not
    re-implemented here, the function is read for whatever it computes. *)
Section Workspaces.

Variable str_lower : pystr -> pystr.

(** [ws.get("type") != "PersonalGroup"] *)
Definition not_personal (ws : pyobj) : result bool :=
  let* t := py_get ws (str "type") PNone in
  Ok (negb (eq_str t (str "PersonalGroup"))).

(** [ws.get("capacityId", "").lower() in capacity_ids_lower] *)
Definition on_capacity (capacity_ids_lower : list pystr) (ws : pyobj) : result bool :=
  let* c := py_get ws (str "capacityId") (PStr []) in
  match c with
  | PStr s => Ok (str_mem (str_lower s) capacity_ids_lower)
  | _ => Raise AttributeError
  end.

Definition get_workspaces (response : result Response) (exclude_personal : bool)
  (capacity_ids : option (list pystr)) : result pyobj :=
  let* r := response in
  let* _ := raise_for_status r in
  let* body := json r in
  let* workspaces := py_get body (str "value") (PList []) in
  let* workspaces :=
    if exclude_personal then
      let* items := py_iter workspaces in
      let* kept := filter_result not_personal items in
      Ok (PList kept)
    else Ok workspaces in
  match capacity_ids with
  | Some ((_ :: _) as ids) =>
      let capacity_ids_lower := map str_lower ids in
      let* items := py_iter workspaces in
      let* kept := filter_result (on_capacity capacity_ids_lower) items in
      Ok (PList kept)
  | _ => Ok workspaces
  end.

End Workspaces.

End Interactive.

(** * Fixtures *)

(** A literal in which an apostrophe stands for a double quote. *)
Definition unquote (s : string) : pystr :=
  map (fun c => if (c =? 39)%N then quote else c) (str s).

(** The bytes of a text of ASCII characters in UTF-8, one byte each. *)
Definition utf8_of_ascii (s : pystr) : bytes :=
  map (fun c => match Byte.of_N c with Some b => b | None => Byte.x00 end) s.

(** The bytes of a text of ASCII characters in UTF-16, low byte first. *)
Definition utf16le_of_ascii (s : pystr) : bytes :=
  flat_map (fun c => [match Byte.of_N c with Some b => b | None => Byte.x00 end; Byte.x00]) s.

(** The layout document of the parser round trip: one page, [Page1], with one
    visual container whose [config] is itself a JSON text. *)
Definition spec_layout : pystr :=
  unquote "{'sections':[{'displayName':'Page1','visualContainers':[{'config':'{\'name\':\'v1\',\'singleVisual\':{\'visualType\':\'card\'}}'}]}]}".

Definition page1_record : VisualRecord :=
  mkVisual (PStr (str "v1")) (PStr (str "card")) false (PStr (str "Page1")).

(** An answer of the service with the given status, body and error text. *)
Definition response_of (status : Z) (body : pbix) (error_text : pystr) (js : result pyobj)
  : Response :=
  mkResponse status body error_text js.

Definition no_body : pbix := NotZip [].

(** A refused export: status 403 with the restriction marker in the text. *)
Definition restricted_export : result Response :=
  Ok (response_of 403 no_body
        (unquote "{'error':{'code':'ExportData_DisabledForModelWithDirectLakeMode'}}")
        (Ok (PDict [(str "error",
                     PDict [(str "code",
                             PStr (str "ExportData_DisabledForModelWithDirectLakeMode"))])]))).

(** A refused export that says nothing of storage modes: status 401. *)
Definition unauthorized_export : result Response :=
  Ok (response_of 401 no_body (str "Unauthorized") (Raise JSONDecodeError)).

(** A clone made: status 200 and the identifier of the clone. *)
Definition clone_made (clone_id : string) : result Response :=
  Ok (response_of 200 no_body [] (Ok (PDict [(str "id", PStr (str clone_id))]))).

Definition not_found : result Response :=
  Ok (response_of 404 no_body (str "Not Found") (Raise JSONDecodeError)).

(** An export that succeeds with the given body. *)
Definition exported (body : pbix) : result Response :=
  Ok (response_of 200 body [] (Raise JSONDecodeError)).

(** An archive whose only member is the round-trip layout in UTF-16. *)
Definition page1_archive : pbix :=
  Zip [(str "Report/Layout", Ok (utf16le_of_ascii spec_layout))].

(** Bytes that are no archive. *)
Definition garbage : bytes := utf8_of_ascii (str "<html>Service unavailable</html>").

Definition report_r1 : Report :=
  mkReport (Some (str "Sales")) (Some (str "0123456789abcdef")) None.

(** A report whose export is answered with an error page. *)
Definition garbage_world : ReportWorld :=
  mkReportWorld (exported (NotZip garbage)) not_found not_found not_found (Ok tt).

Definition garbage_world_result : SP.ScanResult :=
  SP.mkResult (str "WS") (str "Sales") (Some (str "0123456789abcdef"))
    (str "Direct Export (No Visuals)") 0 (str "No") 0 0.

(** A report whose export is an archive without members. *)
Definition empty_archive_world : ReportWorld :=
  mkReportWorld (exported (Zip [])) not_found not_found not_found (Ok tt).

(** A report whose export is refused with the restriction marker, whose
    clone is made and exported, with one visual in the archive. *)
Definition clone_world : ReportWorld :=
  mkReportWorld restricted_export (clone_made "c1") (exported page1_archive) not_found (Ok tt).

Definition clone_world_result : SP.ScanResult :=
  SP.mkResult (str "WS") (str "Sales") (Some (str "0123456789abcdef"))
    (str "Direct Export") 1 (str "No") 1 0.

(** The requests of its analysis. *)
Definition clone_world_trace : trace :=
  [ExportReport (PStr (str "0123456789abcdef")); CloneReport (PStr (str "0123456789abcdef"));
   Sleep; ExportReport (PStr (str "c1")); WriteFile (str "report_01234567.pbix");
   DeleteReport (PStr (str "c1"))].

(** The same report when the exported file cannot be written. *)
Definition disk_full_world : ReportWorld :=
  mkReportWorld restricted_export (clone_made "c1") (exported page1_archive) not_found
    (Raise OSError).

(** A report whose export is refused with status 401, that cannot be
    cloned and whose pages cannot be listed. *)
Definition unauthorized_world : ReportWorld :=
  mkReportWorld unauthorized_export not_found not_found not_found (Ok tt).

Definition unauthorized_result : Interactive.ScanResult :=
  Interactive.mkResult (str "WS") None [] (str "Sales") (Some (str "0123456789abcdef"))
    (str "Failed") 0 (str "Yes") 0 0.

Definition unauthorized_result_sp : SP.ScanResult :=
  SP.mkResult (str "WS") (str "Sales") (Some (str "0123456789abcdef"))
    (str "Failed") 0 (str "Yes") 0 0.

(** A report left behind by an earlier run. *)
Definition leftover_clone : Report :=
  mkReport (Some (str "temp_analysis_01234567")) (Some (str "89abcdef01234567")) None.

(** A workspace that lists both. *)
Definition two_reports : list (Report * ReportWorld) :=
  [(report_r1, clone_world); (leftover_clone, unauthorized_world)].

(** A visual container whose config only names the visual. *)
Definition bare_container : pyobj :=
  PDict [(str "config", PStr (unquote "{'name':'v7'}"))].

(** Three batches of results, the second empty; a name holds a comma. *)
Definition three_batches : list (list Interactive.ScanResult) :=
  [[unauthorized_result];
   [];
   [Interactive.mkResult (str "Finance, EMEA") (Some (str "w2")) (str "cap1") (str "Margins")
      (Some (str "fedcba9876543210")) (str "Direct Export") 2 (str "No") 7 1;
    unauthorized_result]].

(** A layout whose text is no JSON, in UTF-16. *)
Definition broken_layout : bytes := utf16le_of_ascii (str "{sections").

(** The members before and after a layout under test. *)
Definition first_layout : ZipFile :=
  [(str "Report/Layout", Ok (utf16le_of_ascii spec_layout))].

Definition last_layout : ZipFile :=
  [(str "Backup/Layout", Ok (utf16le_of_ascii spec_layout))].

(** A section of two containers, one without config. *)
Definition page1_section : pyobj :=
  PDict [(str "displayName", PStr (str "Page1"));
         (str "visualContainers", PList [bare_container; PDict [(str "x", PInt 100)]])].

(** Reports of a scan result: one with a page of one visual, one whose pages
    are [null]. *)
Definition scanned_report : pyobj :=
  PDict [(str "id", PStr (str "r1")); (str "name", PStr (str "Sales"));
         (str "pages",
          PList [PDict [(str "name", PStr (str "Page1"));
                        (str "visuals",
                         PList [PDict [(str "visualType", PStr (str "card"));
                                       (str "name", PStr (str "v1"))]])]])].

Definition unread_report : pyobj :=
  PDict [(str "id", PStr (str "r2")); (str "pages", PNone)].

(** A report without identifier. *)
Definition draft_report : Report := mkReport (Some (str "Draft")) None None.

Definition workspace_ws : Workspace := mkWorkspace (Some (str "WS")) (Some (str "w1")) None.

(** A run over one workspace of two reports. *)
Definition one_workspace : list (Workspace * WorkspaceWorld) :=
  [(workspace_ws, Ok two_reports)].

(** A workspace of one report that cannot be exported, and one whose
    reports cannot be listed. *)
Definition closed_workspace : Workspace * WorkspaceWorld :=
  (workspace_ws, Ok [(report_r1, unauthorized_world)]).

Definition unlisted_workspace : Workspace * WorkspaceWorld :=
  (mkWorkspace (Some (str "Ops")) (Some (str "w2")) None, Raise HTTPError).

Definition closed_workspace_row : Interactive.ScanResult :=
  Interactive.mkResult (str "WS") (Some (str "w1")) [] (str "Sales")
    (Some (str "0123456789abcdef")) (str "Failed") 0 (str "Yes") 0 0.

(** A row whose report name holds a lone surrogate. *)
Definition surrogate_row : SP.ScanResult :=
  SP.mkResult (str "WS") [55357%N; 97%N] (Some (str "fedcba9876543210"))
    (str "Failed") 0 (str "Yes") 0 0.

(** The workspaces a listing answers with. *)
Definition sales_workspace : pyobj :=
  PDict [(str "id", PStr (str "w1")); (str "name", PStr (str "Sales"));
         (str "type", PStr (str "Workspace")); (str "capacityId", PStr (str "ABCD-12"))].

Definition personal_workspace : pyobj :=
  PDict [(str "id", PStr (str "w2")); (str "name", PStr (str "My workspace"));
         (str "type", PStr (str "PersonalGroup"))].

Definition ops_workspace : pyobj :=
  PDict [(str "id", PStr (str "w3")); (str "name", PStr (str "Ops"));
         (str "type", PStr (str "Workspace")); (str "capacityId", PStr (str "ffff-00"))].

Definition listing_response : result Response :=
  Ok (response_of 200 no_body []
        (Ok (PDict [(str "value",
                     PList [sales_workspace; personal_workspace; ops_workspace])]))).

(** * Notions the properties are stated with *)

Unset Implicit Arguments.

Local Open Scope se_scope.

(** A report [analyze_report] passes over: its name is that of a clone. *)
Definition SP_skipped (report : Report) : bool :=
  let report_name := get_default (rep_name report) (str "Unknown") in
  str_contains (str "temp_analysis_") report_name
  || str_contains (str "temp_clone_for_analysis") report_name.

Definition SP_kept (rw : Report * ReportWorld) : bool := negb (SP_skipped (fst rw)).

(** The identifier [clone_id] ends with: that of the clone made after a
    direct export that gave nothing, [None] otherwise. *)
Definition SP_clone_id (w : ReportWorld) : pyobj :=
  if pbix_truthy (SP.export_result (export_response w)) then PNone
  else SP.clone_result (clone_response w).

(** The content [pbix_content] ends with: that of the direct export, or
    that of the export of the clone. *)
Definition SP_pbix_content (w : ReportWorld) : option pbix :=
  let direct := SP.export_result (export_response w) in
  if pbix_truthy direct then direct
  else if truthy (SP.clone_result (clone_response w))
       then SP.export_result (clone_export_response w)
       else direct.

(** The result as it stands when the content is looked at. *)
Definition SP_initial (workspace_name : pystr) (report : Report) (w : ReportWorld)
  : SP.ScanResult :=
  SP.mkResult workspace_name (get_default (rep_name report) (str "Unknown")) (rep_id report)
    (str "Failed") 0
    (if pbix_truthy (SP.export_result (export_response w)) then str "Unknown" else str "Yes")
    0 0.

(** What is done with the content: the text between the export attempts
    and the cleanup. *)
Definition SP_body (workspace_name : pystr) (report : Report) (w : ReportWorld)
  : SE trace SP.ScanResult :=
  match SP_pbix_content w with
  | Some content =>
      if pbix_truthy (SP_pbix_content w)
      then SP.analyze_pbix (SP_initial workspace_name report w) (rep_id report) w content
      else SP.list_pages (SP_initial workspace_name report w) (rep_id report) w
  | None => SP.list_pages (SP_initial workspace_name report w) (rep_id report) w
  end.

(** What identifies the row of a report: its name and identifier. *)
Definition SP_row_key (r : SP.ScanResult) : pystr * option pystr :=
  (SP.report r, SP.report_id r).

Definition SP_report_key (rw : Report * ReportWorld) : pystr * option pystr :=
  (get_default (rep_name (fst rw)) (str "Unknown"), rep_id (fst rw)).

Definition Interactive_row_key (r : Interactive.ScanResult) : pystr * option pystr :=
  (Interactive.report r, Interactive.report_id r).

Definition Interactive_report_key (rw : Report * ReportWorld) : pystr * option pystr :=
  (get_default (rep_name (fst rw)) (str "Unnamed Report"), rep_id (fst rw)).

(** The rows a workspace adds to a run of the service-principal script: those
    of its analysis, none if the analysis raises. *)
Definition SP_workspace_rows (wsw : Workspace * WorkspaceWorld) : list SP.ScanResult :=
  match snd (SP.analyze_workspace_reports
               (get_default (ws_name (fst wsw)) (str "Unknown")) (snd wsw) []) with
  | Ok results => results
  | Raise _ => []
  end.

(** The outcome of the analysis of a workspace in the interactive script. *)
Definition Interactive_workspace_outcome (wsw : Workspace * WorkspaceWorld)
  : result (list Interactive.ScanResult) :=
  snd (Interactive.analyze_workspace_reports (ws_id (fst wsw))
         (get_default (ws_name (fst wsw)) (str "Unnamed Workspace"))
         (get_default (ws_capacityId (fst wsw)) []) (snd wsw) []).

(** The rows it adds to a run. *)
Definition Interactive_workspace_rows (wsw : Workspace * WorkspaceWorld)
  : list Interactive.ScanResult :=
  match Interactive_workspace_outcome wsw with
  | Ok results => results
  | Raise _ => []
  end.

(** A record of type [Unknown]. *)
Definition is_unknown (v : VisualRecord) : bool := eq_str (type v) (str "Unknown").

(** A dict without [singleVisual.visualType]: no [singleVisual], or a dict
    under it that has no [visualType]. *)
Definition lacks_visual_type (config : list (pystr * pyobj)) : bool :=
  match dict_lookup (str "singleVisual") config with
  | None => true
  | Some (PDict single) =>
      match dict_lookup (str "visualType") single with
      | None => true
      | Some _ => false
      end
  | Some _ => false
  end.

(** A record carries the verdict of the classifier on its type. *)
Definition classified (is_custom_visual : pyobj -> result bool) (v : VisualRecord) : Prop :=
  is_custom_visual (type v) = Ok (is_custom v).

(** A computation that leaves a measure of the state as it found it. *)
Definition keeps {S A X : Type} (f : S -> X) (m : SE S A) : Prop :=
  forall s s' r, m s = (s', r) -> f s' = f s.

(** A computation that keeps a property of the state. *)
Definition preserves {S A : Type} (P : S -> Prop) (m : SE S A) : Prop :=
  forall s s' r, m s = (s', r) -> P s -> P s'.

(** A computation whose outcome does not depend on the state it starts in. *)
Definition blind {S A : Type} (m : SE S A) : Prop :=
  forall s1 s2, snd (m s1) = snd (m s2).

(** The test of the capacity filter of [Interactive.get_workspaces], as the
    comprehension reads it: an element is kept when the test gives [True]. *)
Definition on_capacity_bool (str_lower : pystr -> pystr) (ids : list pystr) (ws : pyobj) : bool :=
  match Interactive.on_capacity str_lower (map str_lower ids) ws with
  | Ok true => true
  | _ => false
  end.

(** The names of the built-in set of the service-principal script that are
    longer than 25 characters. *)
Definition long_builtins : list pystr := map str [
  "lineClusteredColumnComboChart"; "lineStackedColumnComboChart";
  "hundredPercentStackedBarChart"; "hundredPercentStackedColumnChart";
  "hundredPercentStackedAreaChart"
]%string.

Definition is_str (x : pyobj) : bool :=
  match x with
  | PStr _ => true
  | _ => false
  end.

(** The containers [visit_section] walks: those of [visualContainers], none
    when the key is absent or its value cannot be iterated. *)
Definition section_containers (section : pyobj) : list pyobj :=
  match py_in (str "visualContainers") section with
  | Ok true =>
      match (let* c := py_getitem section (str "visualContainers") in py_iter c) with
      | Ok containers => containers
      | Raise _ => []
      end
  | _ => []
  end.

(** ["config" in container] *)
Definition has_config (container : pyobj) : bool :=
  match py_in (str "config") container with
  | Ok b => b
  | Raise _ => false
  end.

(** The name [clone_report] gives the clone of a report. *)
Definition SP_clone_name (report_id : pystr) : pystr :=
  str "temp_analysis_" ++ str_prefix 8 report_id.

(** The file an analysis saves the content under, none when the name cannot
    be built. *)
Definition saved_file (report_id : option pystr) : list pystr :=
  match pbix_filename_of report_id with
  | Ok pbix_filename => [pbix_filename]
  | Raise _ => []
  end.

(** The calls of an analysis of the service-principal script that ends with
    a result, in their order: the direct export; the clone, the pause and the
    export of the clone; the file or the listing of pages; the deletion of the
    clone. *)
Definition SP_requests (report : Report) (w : ReportWorld) : trace :=
  let report_id := id_obj (rep_id report) in
  [ExportReport report_id]
  ++ (if pbix_truthy (SP.export_result (export_response w)) then []
      else CloneReport report_id
           :: (if truthy (SP.clone_result (clone_response w))
               then [Sleep; ExportReport (SP.clone_result (clone_response w))]
               else []))
  ++ (if pbix_truthy (SP_pbix_content w)
      then map WriteFile (saved_file (rep_id report))
      else [GetReportPages report_id])
  ++ (if truthy (SP_clone_id w) then [DeleteReport (SP_clone_id w)] else []).

(** Those of the interactive script: the export, then the file written and
    removed, or the listing of pages. *)
Definition Interactive_requests (report : Report) (w : ReportWorld) : trace :=
  let report_id := id_obj (rep_id report) in
  ExportReport report_id
  :: (if pbix_truthy (Interactive.export_result (export_response w))
      then flat_map (fun f => [WriteFile f; RemoveFile f]) (saved_file (rep_id report))
      else [GetReportPages report_id]).

(** The number of pages a result counts, by its method. *)
Definition pages_by_method (method : pystr) (num_pages total_visuals : nat) : Prop :=
  (method = str "Direct Export" /\ 1 <= num_pages /\ num_pages <= total_visuals)
  \/ (method = str "Direct Export (No Visuals)" /\ num_pages = 0)
  \/ (method = str "Page Listing Only" /\ 1 <= num_pages)
  \/ (method = str "Failed" /\ num_pages = 0).

(** What the summary reads of a row: whether its DirectLake column says
    [Yes], whether its method holds [Export], and its custom visuals. *)
Definition row_sorted (is_directlake method : pystr) (custom_visuals : nat) : Prop :=
  (str_eqb is_directlake (str "Yes") = true
   /\ str_contains (str "Export") method = false /\ custom_visuals = 0)
  \/ (str_eqb is_directlake (str "Yes") = false
      /\ str_contains (str "Export") method = true).

(** A scan result of the given workspaces, a workspace of the given
    reports. *)
Definition scan_of (workspaces : list pyobj) : pyobj :=
  PDict [(str "workspaces", PList workspaces)].

Definition workspace_of (reports : list pyobj) : pyobj :=
  PDict [(str "reports", PList reports)].

(** An entry of [extract_visuals_from_scan]: a key that can be hashed, and
    records that carry the verdict of the classifier. *)
Definition entry_classified (entry : pyobj * (pyobj * list VisualRecord)) : Prop :=
  hashable (fst entry) = true
  /\ Forall (classified SP.is_custom_visual) (snd (snd entry)).

(** The code points UTF-8 has no encoding for. *)
Definition is_surrogate (c : N) : bool := in_range 55296 57343 c.

(** The byte order marks of UTF-16, low byte first, and of UTF-8. *)
Definition bom_utf16le : bytes := [Byte.xff; Byte.xfe].

Definition bom_utf8 : bytes := [Byte.xef; Byte.xbb; Byte.xbf].

(** The first line of the file of each script. *)
Definition SP_header : pystr :=
  str "workspace,report,report_id,method,num_pages,is_directlake,total_visuals,custom_visuals"
  ++ [13%N; 10%N].

Definition Interactive_header : pystr :=
  str "workspace,workspace_id,capacity_id,report,report_id,method,num_pages,is_directlake,total_visuals,custom_visuals"
  ++ [13%N; 10%N].

(** * Properties *)

(** ** Strings *)

Lemma str_eqb_eq (a b : pystr) : str_eqb a b = true <-> a = b.
Proof.
  unfold str_eqb. destruct (list_eq_dec N.eq_dec a b); split; congruence.
Qed.

Lemma str_eqb_refl (a : pystr) : str_eqb a a = true.
Proof. now apply str_eqb_eq. Qed.

Lemma str_mem_In (x : pystr) (xs : list pystr) : str_mem x xs = true <-> In x xs.
Proof.
  unfold str_mem. rewrite existsb_exists. split.
  - intros [y [Hy E]]. apply str_eqb_eq in E. now subst.
  - intros H. exists x. split; [assumption | apply str_eqb_refl].
Qed.

Lemma zip_read_single (file_name : pystr) (r : result bytes) :
  zip_read [(file_name, r)] file_name = r.
Proof. unfold zip_read. simpl. now rewrite str_eqb_refl. Qed.

(** ** Fuel

    The scanners that are not structurally recursive run on fuel.  Each of
    them hands back strictly less text than it was given, so the fuel that
    [json_loads] and [decode_utf8] supply is never used up: more fuel gives
    the same answer. *)

Lemma skip_ws_length (s : pystr) : List.length (skip_ws s) <= List.length s.
Proof.
  induction s as [| c s IH]; simpl; [lia |].
  destruct (is_ws c); simpl; lia.
Qed.

Lemma span_digits_length (s : pystr) :
  List.length (snd (span_digits s)) <= List.length s.
Proof.
  induction s as [| c s IH]; simpl; [lia |].
  destruct (is_digit c); simpl; [| lia].
  destruct (span_digits s) as [ds r]. simpl in *. lia.
Qed.

Lemma skipn_shorter (n : nat) (s : pystr) :
  0 < n -> s <> [] -> List.length (skipn n s) < List.length s.
Proof.
  intros Hn Hs. rewrite length_skipn. destruct s; [congruence |]. cbn [List.length]. lia.
Qed.

Lemma match_number_shorter (s : pystr) (v : pyobj) (r : pystr) :
  match_number s = Some (v, r) -> List.length r < List.length s.
Proof.
  unfold match_number.
  match goal with
  | |- (let (_, _) := ?e in _) = _ -> _ => destruct e as [neg s1] eqn:Es1
  end.
  assert (H1 : List.length s1 <= List.length s).
  { destruct s as [| c s']; [inversion Es1; subst; simpl; lia |].
    destruct (c =? ch "-")%N; inversion Es1; subst; simpl; lia. }
  clear Es1.
  destruct s1 as [| c s2]; cbv beta iota; [discriminate |].
  match goal with
  | |- match ?e with Some _ => _ | None => _ end = _ -> _ =>
      destruct e as [[ids r1] |] eqn:Eint
  end; [| discriminate].
  assert (H2 : List.length r1 <= List.length s2).
  { destruct (in_range 49 57 c).
    - pose proof (span_digits_length s2) as L. destruct (span_digits s2) as [ds r0].
      inversion Eint; subst. exact L.
    - destruct (c =? 48)%N; inversion Eint; subst. lia. }
  clear Eint.
  match goal with
  | |- (let (_, _) := ?e in _) = _ -> _ => destruct e as [fds r2] eqn:Efr
  end.
  assert (H3 : List.length r2 <= List.length r1).
  { destruct r1 as [| c0 [| d r1']]; try (inversion Efr; subst; simpl; lia).
    destruct ((c0 =? ch ".")%N && is_digit d); [| inversion Efr; subst; simpl; lia].
    pose proof (span_digits_length (tl (c0 :: d :: r1'))) as L.
    rewrite Efr in L. simpl in L. simpl. lia. }
  clear Efr.
  match goal with
  | |- match fds with
       | [] => match ?e with Some _ => _ | None => _ end
       | _ :: _ => _
       end = _ -> _ =>
      destruct e as [[e10 r5] |] eqn:Eex
  end.
  - assert (H4 : List.length r5 <= List.length r2).
    { destruct r2 as [| c0 r3]; [discriminate |].
      destruct ((c0 =? ch "e")%N || (c0 =? ch "E")%N); [| discriminate].
      match type of Eex with
      | (let (_, _) := ?e in _) = _ => destruct e as [eneg r4] eqn:Esg
      end.
      assert (Hs : List.length r4 <= List.length r3).
      { destruct r3 as [| x r3']; [inversion Esg; subst; simpl; lia |].
        destruct (x =? ch "-")%N; [inversion Esg; subst; simpl; lia |].
        destruct (x =? ch "+")%N; inversion Esg; subst; simpl; lia. }
      pose proof (span_digits_length r4) as L.
      destruct (span_digits r4) as [[| d eds] r6]; [discriminate |].
      inversion Eex; subst. simpl in *. lia. }
    destruct fds; intros H; inversion H; subst; simpl in *; lia.
  - destruct fds; intros H; inversion H; subst; simpl in *; lia.
Qed.

Lemma hex4_length (s : pystr) (u : N) (r : pystr) :
  hex4 s = Some (u, r) -> List.length s = 4 + List.length r.
Proof.
  unfold hex4. destruct s as [| a [| b [| c [| d s']]]]; try discriminate.
  destruct (hex_digit a), (hex_digit b), (hex_digit c), (hex_digit d); try discriminate.
  intros H. inversion H; subst. reflexivity.
Qed.

Lemma scanstring_shorter (fuel : nat) :
  forall s acc t r, scanstring fuel s acc = Some (t, r) -> List.length r < List.length s.
Proof.
  induction fuel as [| f IH]; intros s acc t r; cbn [scanstring]; [discriminate |].
  destruct s as [| c s']; [discriminate |].
  destruct (c =? quote)%N.
  { intros H. inversion H; subst. simpl. lia. }
  destruct (c =? backslash)%N.
  - destruct s' as [| e s'']; [discriminate |].
    destruct (e =? ch "u")%N.
    + destruct (hex4 s'') as [[u1 r1] |] eqn:E1; [| discriminate].
      apply hex4_length in E1.
      destruct (is_high_surrogate u1 && (6 <=? List.length r1)%nat
                && startswith r1 [backslash; ch "u"]).
      * destruct (hex4 (skipn 2 r1)) as [[u2 r2] |] eqn:E2; [| discriminate].
        apply hex4_length in E2. rewrite length_skipn in E2.
        destruct (is_low_surrogate u2); intros H; apply IH in H; simpl; lia.
      * intros H. apply IH in H. simpl. lia.
    + destruct (escape e); [| discriminate].
      intros H. apply IH in H. simpl. lia.
  - destruct (c <=? 31)%N; [discriminate |].
    intros H. apply IH in H. simpl. lia.
Qed.

Lemma scanstring_fuel (f1 : nat) :
  forall f2 s acc,
    List.length s <= f1 -> List.length s <= f2 ->
    scanstring f1 s acc = scanstring f2 s acc.
Proof.
  induction f1 as [| f1 IH]; intros f2 s acc H1 H2.
  - destruct s; [| simpl in H1; lia]. destruct f2; reflexivity.
  - destruct f2 as [| f2]; [destruct s; [reflexivity | simpl in H2; lia] |].
    cbn [scanstring]. destruct s as [| c s']; [reflexivity |]. simpl in H1, H2.
    destruct (c =? quote)%N; [reflexivity |].
    destruct (c =? backslash)%N.
    + destruct s' as [| e s'']; [reflexivity |]. simpl in H1, H2.
      destruct (e =? ch "u")%N.
      * destruct (hex4 s'') as [[u1 r1] |] eqn:E1; [| reflexivity].
        apply hex4_length in E1.
        destruct (is_high_surrogate u1 && (6 <=? List.length r1)%nat
                  && startswith r1 [backslash; ch "u"]).
        -- destruct (hex4 (skipn 2 r1)) as [[u2 r2] |] eqn:E2; [| reflexivity].
           apply hex4_length in E2. rewrite length_skipn in E2.
           destruct (is_low_surrogate u2); apply IH; lia.
        -- apply IH; lia.
      * destruct (escape e); [| reflexivity]. apply IH; lia.
    + destruct (c <=? 31)%N; [reflexivity |]. apply IH; lia.
Qed.

Lemma rest_shorter (x v : pyobj) (r0 r s : pystr) :
  List.length r0 < List.length s ->
  Some (x, r0) = Some (v, r) -> List.length r < List.length s.
Proof. intros H E. now inversion E; subst. Qed.

Lemma scan_shorter (fuel : nat) :
  (forall s v r, scan_once fuel s = Some (v, r) -> List.length r < List.length s)
  /\ (forall acc s v r,
        parse_members fuel acc s = Some (v, r) -> List.length r < List.length s)
  /\ (forall acc s v r,
        parse_elements fuel acc s = Some (v, r) -> List.length r < List.length s).
Proof.
  induction fuel as [| f [IHs [IHm IHe]]].
  { repeat split; intros; discriminate. }
  assert (Hs : forall s v r,
             scan_once (S f) s = Some (v, r) -> List.length r < List.length s).
  { intros s v r. cbn [scan_once].
    destruct s as [| c s']; [discriminate |].
    destruct (c =? quote)%N.
    { destruct (scanstring (S (List.length s')) s' []) as [[t r0] |] eqn:E; [| discriminate].
      apply scanstring_shorter in E. intros H. inversion H; subst. cbn [List.length]. lia. }
    destruct (c =? ch "{")%N.
    { pose proof (skip_ws_length s') as L.
      destruct (skip_ws s') as [| c1 r1]; [discriminate |].
      destruct (c1 =? ch "}")%N.
      - intros H. inversion H; subst. cbn [List.length] in *. lia.
      - intros H. apply IHm in H. cbn [List.length] in *. lia. }
    destruct (c =? ch "[")%N.
    { pose proof (skip_ws_length s') as L.
      destruct (skip_ws s') as [| c1 r1]; [discriminate |].
      destruct (c1 =? ch "]")%N.
      - intros H. inversion H; subst. cbn [List.length] in *. lia.
      - intros H. apply IHe in H. cbn [List.length] in *. lia. }
    repeat match goal with
           | |- (if startswith ?x ?p then _ else _) = _ -> _ =>
               destruct (startswith x p);
               [apply rest_shorter, skipn_shorter; [lia | discriminate] |]
           end.
    apply match_number_shorter. }
  split; [exact Hs |]. split.
  - intros acc s v r. cbn [parse_members].
    destruct s as [| c s']; [discriminate |].
    destruct (c =? quote)%N; [| discriminate].
    destruct (scanstring (S (List.length s')) s' []) as [[key r0] |] eqn:E; [| discriminate].
    apply scanstring_shorter in E.
    pose proof (skip_ws_length r0) as L0.
    destruct (skip_ws r0) as [| c2 r2]; [discriminate |].
    destruct (c2 =? ch ":")%N; [| discriminate].
    pose proof (skip_ws_length r2) as L2.
    destruct (scan_once f (skip_ws r2)) as [[v0 r3] |] eqn:E3; [| discriminate].
    apply IHs in E3.
    pose proof (skip_ws_length r3) as L3.
    destruct (skip_ws r3) as [| c4 r4]; [discriminate |].
    destruct (c4 =? ch "}")%N.
    + intros H. inversion H; subst. cbn [List.length] in *. lia.
    + destruct (c4 =? ch ",")%N; [| discriminate].
      pose proof (skip_ws_length r4) as L4.
      intros H. apply IHm in H. cbn [List.length] in *. lia.
  - intros acc s v r. cbn [parse_elements].
    destruct (scan_once f s) as [[v0 r0] |] eqn:E; [| discriminate].
    apply IHs in E.
    pose proof (skip_ws_length r0) as L0.
    destruct (skip_ws r0) as [| c r']; [discriminate |].
    destruct (c =? ch "]")%N.
    + intros H. inversion H; subst. cbn [List.length] in *. lia.
    + destruct (c =? ch ",")%N; [| discriminate].
      pose proof (skip_ws_length r') as L1.
      intros H. apply IHe in H. cbn [List.length] in *. lia.
Qed.

Lemma scan_fuel (f1 : nat) :
  forall f2,
    (forall s, 2 * List.length s + 1 <= f1 -> 2 * List.length s + 1 <= f2 ->
               scan_once f1 s = scan_once f2 s)
    /\ (forall acc s, 2 * List.length s + 1 <= f1 -> 2 * List.length s + 1 <= f2 ->
                      parse_members f1 acc s = parse_members f2 acc s)
    /\ (forall acc s, 2 * List.length s + 2 <= f1 -> 2 * List.length s + 2 <= f2 ->
                      parse_elements f1 acc s = parse_elements f2 acc s).
Proof.
  induction f1 as [| f1 IH]; intros f2.
  { repeat split; intros; lia. }
  destruct f2 as [| f2]; [repeat split; intros; lia |].
  destruct (IH f2) as [IHs [IHm IHe]]. clear IH.
  split; [| split].
  - intros s H1 H2. cbn [scan_once].
    destruct s as [| c s']; [reflexivity |]. cbn [List.length] in H1, H2.
    destruct (c =? quote)%N; [reflexivity |].
    destruct (c =? ch "{")%N.
    { pose proof (skip_ws_length s') as L.
      destruct (skip_ws s') as [| c1 r1]; [reflexivity |]. cbn [List.length] in L.
      destruct (c1 =? ch "}")%N; [reflexivity |].
      apply IHm; cbn [List.length]; lia. }
    destruct (c =? ch "[")%N; [| reflexivity].
    pose proof (skip_ws_length s') as L.
    destruct (skip_ws s') as [| c1 r1]; [reflexivity |]. cbn [List.length] in L.
    destruct (c1 =? ch "]")%N; [reflexivity |].
    apply IHe; cbn [List.length]; lia.
  - intros acc s H1 H2. cbn [parse_members].
    destruct s as [| c s']; [reflexivity |]. cbn [List.length] in H1, H2.
    destruct (c =? quote)%N; [| reflexivity].
    destruct (scanstring (S (List.length s')) s' []) as [[key r0] |] eqn:E; [| reflexivity].
    apply scanstring_shorter in E.
    pose proof (skip_ws_length r0) as L0.
    destruct (skip_ws r0) as [| c2 r2]; [reflexivity |]. cbn [List.length] in L0.
    destruct (c2 =? ch ":")%N; [| reflexivity].
    pose proof (skip_ws_length r2) as L2.
    rewrite (IHs (skip_ws r2)) by lia.
    destruct (scan_once f2 (skip_ws r2)) as [[v0 r3] |] eqn:E3; [| reflexivity].
    apply (proj1 (scan_shorter f2)) in E3.
    pose proof (skip_ws_length r3) as L3.
    destruct (skip_ws r3) as [| c4 r4]; [reflexivity |]. cbn [List.length] in L3.
    destruct (c4 =? ch "}")%N; [reflexivity |].
    destruct (c4 =? ch ",")%N; [| reflexivity].
    pose proof (skip_ws_length r4) as L4.
    apply IHm; lia.
  - intros acc s H1 H2. cbn [parse_elements].
    rewrite (IHs s) by lia.
    destruct (scan_once f2 s) as [[v0 r0] |] eqn:E; [| reflexivity].
    apply (proj1 (scan_shorter f2)) in E.
    pose proof (skip_ws_length r0) as L0.
    destruct (skip_ws r0) as [| c r']; [reflexivity |]. cbn [List.length] in L0.
    destruct (c =? ch "]")%N; [reflexivity |].
    destruct (c =? ch ",")%N; [| reflexivity].
    pose proof (skip_ws_length r') as L1.
    apply IHe; lia.
Qed.

(** Fuel beyond what [json_loads] gives changes nothing. *)
Lemma json_loads_fuel_enough (fuel : nat) (s : pystr) :
  2 * List.length s + 2 <= fuel -> json_loads_fuel fuel s = json_loads s.
Proof.
  intros H. unfold json_loads, json_loads_fuel.
  pose proof (skip_ws_length s) as L.
  rewrite (proj1 (scan_fuel fuel (2 * List.length s + 2)) (skip_ws s)) by lia.
  reflexivity.
Qed.

Lemma utf8_step_shorter (b : list N) (c : N) (r : list N) :
  utf8_step b = Some (c, r) -> List.length r < List.length b.
Proof.
  unfold utf8_step. destruct b as [| b0 r0]; [discriminate |].
  destruct (b0 <? 128)%N; [intros H; inversion H; subst; simpl; lia |].
  destruct (in_range 194 223 b0).
  { destruct r0 as [| b1 r1]; [discriminate |].
    destruct (is_cont b1); [| discriminate].
    intros H; inversion H; subst; simpl; lia. }
  destruct (in_range 224 239 b0).
  { destruct r0 as [| b1 [| b2 r2]]; try discriminate. cbv zeta.
    match goal with |- (if ?x then _ else _) = _ -> _ => destruct x end; [| discriminate].
    intros H; inversion H; subst; simpl; lia. }
  destruct (in_range 240 244 b0); [| discriminate].
  destruct r0 as [| b1 [| b2 [| b3 r3]]]; try discriminate. cbv zeta.
  match goal with |- (if ?x then _ else _) = _ -> _ => destruct x end; [| discriminate].
  intros H; inversion H; subst; simpl; lia.
Qed.

(** A unit of fuel per byte is enough for [utf8_points]. *)
Lemma utf8_points_fuel (f1 : nat) :
  forall f2 b, List.length b <= f1 -> List.length b <= f2 ->
               utf8_points f1 b = utf8_points f2 b.
Proof.
  induction f1 as [| f1 IH]; intros f2 b H1 H2.
  - destruct b; [| simpl in H1; lia]. destruct f2; reflexivity.
  - destruct b as [| b0 r0]; [destruct f2; reflexivity |].
    destruct f2 as [| f2]; [simpl in H2; lia |].
    cbn [utf8_points].
    destruct (utf8_step (b0 :: r0)) as [[c r] |] eqn:E; [| reflexivity].
    apply utf8_step_shorter in E. cbn [List.length] in *.
    rewrite (IH f2 r) by lia. reflexivity.
Qed.

Lemma decode_utf8_fuel (fuel : nat) (b : bytes) :
  List.length b <= fuel ->
  utf8_points fuel (map Byte.to_N b) = utf8_points (List.length b) (map Byte.to_N b).
Proof.
  intros H. apply utf8_points_fuel; rewrite length_map; lia.
Qed.

(** ** Runs of [SE] computations *)

Lemma se_bind_ok_inv {S A B : Type} (m : SE S A) (k : A -> SE S B) (s s' : S) (b : B) :
  se_bind m k s = (s', Ok b) ->
  exists s1 a, m s = (s1, Ok a) /\ k a s1 = (s', Ok b).
Proof.
  unfold se_bind. destruct (m s) as [s1 [a | e]]; intros H.
  - now exists s1, a.
  - discriminate.
Qed.

Lemma se_bind_inv {S A B : Type} (m : SE S A) (k : A -> SE S B) (s s' : S) (r : result B) :
  se_bind m k s = (s', r) ->
  (exists s1 a, m s = (s1, Ok a) /\ k a s1 = (s', r))
  \/ (exists e, m s = (s', Raise e) /\ r = Raise e).
Proof.
  unfold se_bind. destruct (m s) as [s1 [a | e]]; intros H.
  - left. now exists s1, a.
  - right. exists e. now inversion H.
Qed.

Lemma keeps_ret {S A X : Type} (f : S -> X) (a : A) : keeps f (ret a).
Proof. intros s s' r H. now inversion H. Qed.

Lemma keeps_lift {S A X : Type} (f : S -> X) (r : result A) : keeps f (lift r).
Proof. intros s s' r' H. now inversion H. Qed.

Lemma keeps_bind {S A B X : Type} (f : S -> X) (m : SE S A) (k : A -> SE S B) :
  keeps f m -> (forall a, keeps f (k a)) -> keeps f (se_bind m k).
Proof.
  intros Hm Hk s s' r H. apply se_bind_inv in H as [(s1 & a & H1 & H2) | (e & H1 & _)].
  - rewrite (Hk a _ _ _ H2). now apply (Hm _ _ _ H1).
  - now apply (Hm _ _ _ H1).
Qed.

Lemma keeps_for_each {S A X : Type} (f : S -> X) (xs : list A) (body : A -> SE S unit) :
  (forall x, keeps f (body x)) -> keeps f (for_each xs body).
Proof.
  intros Hb. induction xs as [| x xs IH]; simpl.
  - apply keeps_ret.
  - apply keeps_bind; [apply Hb | intros _; exact IH].
Qed.

Lemma deletions_app (t u : trace) : deletions (t ++ u) = deletions t + deletions u.
Proof. unfold deletions. now rewrite filter_app, length_app. Qed.

Lemma keeps_emit (c : call) : is_delete c = false -> keeps deletions (emit c).
Proof.
  intros Hc s s' r H. inversion H; subst. rewrite deletions_app.
  unfold deletions at 2. simpl. rewrite Hc. simpl. lia.
Qed.

Ltac keeps_tac :=
  repeat first
    [ apply keeps_bind; [| intros ? ]
    | apply keeps_for_each; intros ?
    | apply keeps_ret
    | apply keeps_lift
    | apply keeps_emit; reflexivity
    | match goal with
      | |- keeps _ (if ?b then _ else _) => destruct b
      | |- keeps _ (match ?x with _ => _ end) => destruct x
      end ].

(** ** The deletions of an analysis *)

Lemma SP_analyze_pbix_keeps result rid w content :
  keeps deletions (SP.analyze_pbix result rid w content).
Proof. unfold SP.analyze_pbix. keeps_tac. Qed.

Lemma SP_list_pages_keeps result rid w :
  keeps deletions (SP.list_pages result rid w).
Proof. unfold SP.list_pages, SP.get_report_pages. keeps_tac. Qed.

Lemma SP_export_run (resp : result Response) (rid : pyobj) (b : bool) (t : trace) :
  SP.export_report_as_pbix resp rid b t = (t ++ [ExportReport rid], Ok (SP.export_result resp)).
Proof. reflexivity. Qed.

Lemma SP_clone_run (resp : result Response) (rid : pystr) (t : trace) :
  SP.clone_report resp (Some rid) t = (t ++ [CloneReport (PStr rid)], Ok (SP.clone_result resp)).
Proof. reflexivity. Qed.

Lemma SP_analyze_report_run ws report w t0 t r :
  SP.analyze_report ws report w t0 = (t, Ok (Some r)) ->
  SP_skipped report = false /\
  exists t2 t3,
    deletions t2 = deletions t0 /\
    SP_body ws report w t2 = (t3, Ok r) /\
    t = if truthy (SP_clone_id w) then t3 ++ [DeleteReport (SP_clone_id w)] else t3.
Proof.
  unfold SP.analyze_report. fold (SP_skipped report).
  destruct (SP_skipped report); [discriminate |]. intros H. split; [reflexivity |].
  apply se_bind_ok_inv in H as (t1 & direct & H1 & H).
  rewrite SP_export_run in H1. inversion H1; subst t1 direct; clear H1.
  apply se_bind_ok_inv in H as (t2 & [[result pbix_content] clone_id] & H2 & H).
  apply se_bind_ok_inv in H as (t3 & result' & H3 & H).
  apply se_bind_ok_inv in H as (t4 & [] & H4 & H).
  inversion H; subst t4 result'; clear H.
  unfold SP_body, SP_pbix_content, SP_clone_id, SP_initial.
  unfold SP.clone_and_export in H2.
  destruct (pbix_truthy (SP.export_result (export_response w))) eqn:Hd; simpl in H2.
  - inversion H2; subst. exists (t0 ++ [ExportReport (id_obj (rep_id report))]), t3.
    simpl in H4. inversion H4; subst.
    repeat split; try assumption.
    rewrite deletions_app. unfold deletions at 2. simpl. lia.
  - apply se_bind_ok_inv in H2 as (t1 & cid & Hc & H2).
    destruct (rep_id report) as [rid |] eqn:Hrid; [| discriminate].
    rewrite SP_clone_run in Hc. inversion Hc; subst t1 cid; clear Hc.
    destruct (truthy (SP.clone_result (clone_response w))) eqn:Ht.
    + simpl in H2. inversion H2; subst. rewrite Ht in H4.
      exists ((((t0 ++ [ExportReport (id_obj (Some rid))]) ++ [CloneReport (PStr rid)]) ++ [Sleep])
              ++ [ExportReport (SP.clone_result (clone_response w))]), t3.
      inversion H4; subst. repeat split; try assumption.
      rewrite !deletions_app. unfold deletions. simpl. lia.
    + simpl in H2. inversion H2; subst. rewrite Ht in H4.
      exists ((t0 ++ [ExportReport (id_obj (Some rid))]) ++ [CloneReport (PStr rid)]), t3.
      inversion H4; subst. repeat split; try assumption.
      rewrite !deletions_app. unfold deletions. simpl. lia.
Qed.

(** ** The shapes of a result *)

Lemma SP_analyze_pbix_shape result rid w content t0 t r :
  SP.analyze_pbix result rid w content t0 = (t, Ok r) ->
  SP.workspace r = SP.workspace result /\ SP.report r = SP.report result /\
  SP.report_id r = SP.report_id result /\ SP.is_directlake r = str "No" /\
  ((SP.extract_visuals_from_pbix content <> [] /\
    SP.method r = str "Direct Export" /\
    SP.total_visuals r = List.length (SP.extract_visuals_from_pbix content) /\
    SP.custom_visuals r = List.length (filter is_custom (SP.extract_visuals_from_pbix content)))
   \/
   (SP.extract_visuals_from_pbix content = [] /\
    SP.method r = str "Direct Export (No Visuals)" /\
    SP.total_visuals r = SP.total_visuals result /\
    SP.custom_visuals r = SP.custom_visuals result /\
    SP.num_pages r = SP.num_pages result)).
Proof.
  unfold SP.analyze_pbix. intros H.
  apply se_bind_ok_inv in H as (t1 & fname & _ & H).
  apply se_bind_ok_inv in H as (t2 & [] & _ & H).
  apply se_bind_ok_inv in H as (t3 & [] & _ & H).
  destruct (SP.extract_visuals_from_pbix content) as [| v vs] eqn:Hv.
  - inversion H; subst. simpl. repeat split. right. repeat split.
  - apply se_bind_ok_inv in H as (t4 & pages & _ & H).
    inversion H; subst. simpl. repeat split. left. repeat split. discriminate.
Qed.

Lemma SP_list_pages_shape result rid w t0 t r :
  SP.list_pages result rid w t0 = (t, Ok r) ->
  SP.workspace r = SP.workspace result /\ SP.report r = SP.report result /\
  SP.report_id r = SP.report_id result /\ SP.is_directlake r = SP.is_directlake result /\
  SP.total_visuals r = SP.total_visuals result /\
  SP.custom_visuals r = SP.custom_visuals result /\
  (SP.method r = str "Page Listing Only" \/ SP.method r = str "Failed").
Proof.
  unfold SP.list_pages. intros H.
  apply se_bind_ok_inv in H as (t1 & pages & _ & H).
  destruct (truthy pages).
  - apply se_bind_ok_inv in H as (t2 & n & _ & H).
    apply se_bind_ok_inv in H as (t3 & items & _ & H).
    apply se_bind_ok_inv in H as (t4 & [] & _ & H).
    inversion H; subst. simpl. repeat split. now left.
  - inversion H; subst. simpl. repeat split. now right.
Qed.

(** The four shapes of a result of the service-principal script. *)
Lemma SP_result_shape ws report w t0 t r :
  SP.analyze_report ws report w t0 = (t, Ok (Some r)) ->
  SP.workspace r = ws /\
  SP.report r = get_default (rep_name report) (str "Unknown") /\
  SP.report_id r = rep_id report /\
  ((exists content, SP_pbix_content w = Some content /\
      pbix_truthy (SP_pbix_content w) = true /\
      SP.is_directlake r = str "No" /\
      ((SP.extract_visuals_from_pbix content <> [] /\
        SP.method r = str "Direct Export" /\
        SP.total_visuals r = List.length (SP.extract_visuals_from_pbix content) /\
        SP.custom_visuals r
        = List.length (filter is_custom (SP.extract_visuals_from_pbix content)))
       \/
       (SP.extract_visuals_from_pbix content = [] /\
        SP.method r = str "Direct Export (No Visuals)" /\
        SP.total_visuals r = 0 /\ SP.custom_visuals r = 0)))
   \/
   (pbix_truthy (SP_pbix_content w) = false /\
    pbix_truthy (SP.export_result (export_response w)) = false /\
    SP.is_directlake r = str "Yes" /\
    SP.total_visuals r = 0 /\ SP.custom_visuals r = 0 /\
    (SP.method r = str "Page Listing Only" \/ SP.method r = str "Failed"))).
Proof.
  intros H. apply SP_analyze_report_run in H as (_ & t2 & t3 & _ & Hb & _).
  unfold SP_body in Hb.
  assert (Hfalse : pbix_truthy (SP_pbix_content w) = false ->
                   pbix_truthy (SP.export_result (export_response w)) = false).
  { unfold SP_pbix_content.
    destruct (pbix_truthy (SP.export_result (export_response w))) eqn:Hd; [| reflexivity].
    now rewrite Hd. }
  assert (Hlist : forall t2 t3 r,
             pbix_truthy (SP_pbix_content w) = false ->
             SP.list_pages (SP_initial ws report w) (rep_id report) w t2 = (t3, Ok r) ->
             SP.workspace r = ws /\
             SP.report r = get_default (rep_name report) (str "Unknown") /\
             SP.report_id r = rep_id report /\
             pbix_truthy (SP_pbix_content w) = false /\
             pbix_truthy (SP.export_result (export_response w)) = false /\
             SP.is_directlake r = str "Yes" /\
             SP.total_visuals r = 0 /\ SP.custom_visuals r = 0 /\
             (SP.method r = str "Page Listing Only" \/ SP.method r = str "Failed")).
  { intros u1 u2 r' Hf Hl.
    apply SP_list_pages_shape in Hl as (Hw & Hr & Hi & Hdl & Ht & Hc & Hm).
    unfold SP_initial in *. simpl in *. rewrite (Hfalse Hf) in Hdl.
    repeat split; auto. }
  destruct (SP_pbix_content w) as [content |] eqn:Hp.
  - destruct (pbix_truthy (Some content)) eqn:Ht.
    + apply SP_analyze_pbix_shape in Hb as (Hw & Hr & Hi & Hdl & Hcases).
      unfold SP_initial in *. simpl in *. repeat split; auto.
      left. exists content. repeat split; auto.
      destruct Hcases as [(Hne & Hm & Htot & Hcus) | (He & Hm & Htot & Hcus & _)];
        [left | right]; repeat split; auto.
    + destruct (Hlist _ _ _ eq_refl Hb) as (Hw & Hr & Hi & Hrest). repeat split; auto.
  - destruct (Hlist _ _ _ eq_refl Hb) as (Hw & Hr & Hi & Hrest). repeat split; auto.
Qed.

Lemma Interactive_analyze_pbix_shape result rid w content t0 t r :
  Interactive.analyze_pbix result rid w content t0 = (t, Ok r) ->
  Interactive.workspace r = Interactive.workspace result /\
  Interactive.report r = Interactive.report result /\
  Interactive.report_id r = Interactive.report_id result /\
  Interactive.is_directlake r = str "No" /\
  ((Interactive.extract_visuals_from_pbix content <> [] /\
    Interactive.method r = str "Direct Export" /\
    Interactive.total_visuals r = List.length (Interactive.extract_visuals_from_pbix content) /\
    Interactive.custom_visuals r
    = List.length (filter is_custom (Interactive.extract_visuals_from_pbix content)))
   \/
   (Interactive.extract_visuals_from_pbix content = [] /\
    Interactive.method r = str "Direct Export (No Visuals)" /\
    Interactive.total_visuals r = Interactive.total_visuals result /\
    Interactive.custom_visuals r = Interactive.custom_visuals result)).
Proof.
  unfold Interactive.analyze_pbix. intros H.
  apply se_bind_ok_inv in H as (t1 & fname & _ & H).
  apply se_bind_ok_inv in H as (t2 & [] & _ & H).
  apply se_bind_ok_inv in H as (t3 & [] & _ & H).
  apply se_bind_ok_inv in H as (t4 & [] & _ & H).
  destruct (Interactive.extract_visuals_from_pbix content) as [| v vs] eqn:Hv.
  - inversion H; subst. simpl. repeat split. right. repeat split.
  - apply se_bind_ok_inv in H as (t5 & pages & _ & H).
    inversion H; subst. simpl. repeat split. left. repeat split. discriminate.
Qed.

Lemma Interactive_list_pages_shape result rid w t0 t r :
  Interactive.list_pages result rid w t0 = (t, Ok r) ->
  Interactive.workspace r = Interactive.workspace result /\
  Interactive.report r = Interactive.report result /\
  Interactive.report_id r = Interactive.report_id result /\
  Interactive.is_directlake r = str "Yes" /\
  Interactive.total_visuals r = Interactive.total_visuals result /\
  Interactive.custom_visuals r = Interactive.custom_visuals result /\
  (Interactive.method r = str "Page Listing Only" \/ Interactive.method r = str "Failed").
Proof.
  unfold Interactive.list_pages. intros H.
  apply se_bind_ok_inv in H as (t1 & pages & _ & H).
  destruct (truthy pages).
  - apply se_bind_ok_inv in H as (t2 & n & _ & H).
    apply se_bind_ok_inv in H as (t3 & items & _ & H).
    apply se_bind_ok_inv in H as (t4 & [] & _ & H).
    inversion H; subst. simpl. repeat split. now left.
  - inversion H; subst. simpl. repeat split. now right.
Qed.

(** The four shapes of a result of the interactive script. *)
Lemma Interactive_result_shape wid ws cap report w t0 t r :
  Interactive.analyze_report wid ws cap report w t0 = (t, Ok r) ->
  Interactive.workspace r = ws /\
  Interactive.report r = get_default (rep_name report) (str "Unnamed Report") /\
  Interactive.report_id r = rep_id report /\
  ((exists content, Interactive.export_result (export_response w) = Some content /\
      pbix_truthy (Interactive.export_result (export_response w)) = true /\
      Interactive.is_directlake r = str "No" /\
      ((Interactive.extract_visuals_from_pbix content <> [] /\
        Interactive.method r = str "Direct Export" /\
        Interactive.total_visuals r
        = List.length (Interactive.extract_visuals_from_pbix content) /\
        Interactive.custom_visuals r
        = List.length (filter is_custom (Interactive.extract_visuals_from_pbix content)))
       \/
       (Interactive.extract_visuals_from_pbix content = [] /\
        Interactive.method r = str "Direct Export (No Visuals)" /\
        Interactive.total_visuals r = 0 /\ Interactive.custom_visuals r = 0)))
   \/
   (pbix_truthy (Interactive.export_result (export_response w)) = false /\
    Interactive.is_directlake r = str "Yes" /\
    Interactive.total_visuals r = 0 /\ Interactive.custom_visuals r = 0 /\
    (Interactive.method r = str "Page Listing Only"
     \/ Interactive.method r = str "Failed"))).
Proof.
  unfold Interactive.analyze_report. intros H.
  apply se_bind_ok_inv in H as (t1 & pbix_content & H1 & H).
  inversion H1; subst t1 pbix_content; clear H1.
  assert (Hlist : forall u1 u2 r',
             Interactive.list_pages
               (Interactive.mkResult ws wid cap
                  (get_default (rep_name report) (str "Unnamed Report")) (rep_id report)
                  (str "Failed") 0 (str "Unknown") 0 0) (rep_id report) w u1 = (u2, Ok r') ->
             Interactive.workspace r' = ws /\
             Interactive.report r' = get_default (rep_name report) (str "Unnamed Report") /\
             Interactive.report_id r' = rep_id report /\
             Interactive.is_directlake r' = str "Yes" /\
             Interactive.total_visuals r' = 0 /\ Interactive.custom_visuals r' = 0 /\
             (Interactive.method r' = str "Page Listing Only"
              \/ Interactive.method r' = str "Failed")).
  { intros u1 u2 r' Hl.
    apply Interactive_list_pages_shape in Hl as (Hw & Hr & Hi & Hdl & Ht & Hc & Hm).
    simpl in *. repeat split; auto. }
  destruct (Interactive.export_result (export_response w)) as [content |] eqn:Hp.
  - destruct (pbix_truthy (Some content)) eqn:Ht.
    + apply Interactive_analyze_pbix_shape in H as (Hw & Hr & Hi & Hdl & Hcases).
      simpl in *. repeat split; auto.
      left. exists content. repeat split; auto.
    + destruct (Hlist _ _ _ H) as (Hw & Hr & Hi & Hrest). repeat split; auto.
  - destruct (Hlist _ _ _ H) as (Hw & Hr & Hi & Hrest). repeat split; auto.
Qed.

(** ** Archives with one layout member *)

Lemma for_each_app {S A : Type} (xs ys : list A) (body : A -> SE S unit) (s : S) :
  for_each (xs ++ ys) body s = se_bind (for_each xs body) (fun _ => for_each ys body) s.
Proof.
  revert s. induction xs as [| x xs IH]; intros s; simpl.
  - reflexivity.
  - unfold se_bind. destruct (body x s) as [s1 [[] | e]]; [| reflexivity].
    rewrite IH. reflexivity.
Qed.

Lemma skip_other_members is_custom_visual zip_file (names : list pystr) visuals :
  Forall (fun n => is_layout_member n = false) names ->
  for_each names (visit_member is_custom_visual zip_file) visuals = (visuals, Ok tt).
Proof.
  induction 1 as [| n names Hn _ IH]; simpl; [reflexivity |].
  unfold se_bind, visit_member. rewrite Hn. exact IH.
Qed.

Lemma dict_lookup_skip {V : Type} (k : pystr) (l1 l2 : list (pystr * V)) :
  Forall (fun m => fst m <> k) l1 -> dict_lookup k (l1 ++ l2) = dict_lookup k l2.
Proof.
  induction 1 as [| [k' v] l1 Hk _ IH]; simpl; [reflexivity |].
  destruct (str_eqb k k') eqn:E; [| exact IH].
  apply str_eqb_eq in E. simpl in Hk. congruence.
Qed.

(** Reading the one layout member of an archive gives its payload, whatever
    the other members are. *)
Lemma zip_read_layout (before after : ZipFile) (file_name : pystr) (r : result bytes) :
  is_layout_member file_name = true ->
  Forall (fun m => is_layout_member (fst m) = false) (before ++ after) ->
  zip_read (before ++ (file_name, r) :: after) file_name = r.
Proof.
  intros Hf Ho. unfold zip_read.
  rewrite rev_app_distr. simpl. rewrite <- app_assoc. simpl.
  rewrite dict_lookup_skip.
  - simpl. now rewrite str_eqb_refl.
  - apply Forall_rev. apply Forall_app in Ho as [_ Ha].
    revert Ha. apply Forall_impl. intros m Hm E. rewrite E in Hm. congruence.
Qed.

Lemma try_layout_reads is_custom_visual (z1 z2 : ZipFile) (n1 n2 : pystr) :
  zip_read z1 n1 = zip_read z2 n2 ->
  try_layout is_custom_visual z1 n1 = try_layout is_custom_visual z2 n2.
Proof. intros E. unfold try_layout, read_layout. now rewrite E. Qed.

(** An archive with one layout member is read as that member alone. *)
Lemma extract_one_layout is_custom_visual (before after : ZipFile) (file_name : pystr)
  (payload : bytes) :
  is_layout_member file_name = true ->
  Forall (fun m => is_layout_member (fst m) = false) (before ++ after) ->
  extract_visuals_from_pbix_with is_custom_visual
    (Zip (before ++ (file_name, Ok payload) :: after))
  = fst (try_layout is_custom_visual [(str "Layout", Ok payload)] (str "Layout") []).
Proof.
  intros Hf Ho.
  rewrite <- (try_layout_reads is_custom_visual
                (before ++ (file_name, Ok payload) :: after) _ file_name _)
    by (rewrite zip_read_layout by assumption; now rewrite zip_read_single).
  unfold extract_visuals_from_pbix_with, open_zip.
  unfold se_bind at 1. unfold lift.
  unfold namelist. rewrite map_app. simpl map.
  rewrite for_each_app. unfold se_bind at 1.
  apply Forall_app in Ho as [Hb Ha].
  rewrite skip_other_members by (apply Forall_map; exact Hb).
  simpl for_each. unfold se_bind at 1. unfold visit_member at 1. rewrite Hf.
  destruct (try_layout _ _ _ _) as [v [[] | e]]; [| reflexivity].
  rewrite skip_other_members by (apply Forall_map; exact Ha). reflexivity.
Qed.

(** ** Writing rows *)

Lemma for_each_ext {S A : Type} (xs : list A) (f g : A -> SE S unit) :
  (forall x s, f x s = g x s) -> forall s, for_each xs f s = for_each xs g s.
Proof.
  intros E. induction xs as [| x xs IH]; intros s; simpl; [reflexivity |].
  unfold se_bind. rewrite E. destruct (g x s) as [s1 [[] | e]]; [apply IH | reflexivity].
Qed.

Lemma for_each_concat {S A : Type} (xss : list (list A)) (body : A -> SE S unit) :
  forall s, for_each xss (fun xs => for_each xs body) s = for_each (List.concat xss) body s.
Proof.
  induction xss as [| xs xss IH]; intros s; simpl; [reflexivity |].
  rewrite for_each_app. unfold se_bind.
  destruct (for_each xs body s) as [s1 [[] | e]]; [apply IH | reflexivity].
Qed.

Lemma append_csv_rows (results : list Interactive.ScanResult) (csvfile : bytes) :
  Interactive.append_csv results csvfile
  = for_each results (fun result => writerow (Interactive.row_fields result)) csvfile.
Proof. now destruct results. Qed.

Lemma encode_utf8_app (a b : pystr) :
  encode_utf8 (a ++ b)
  = match encode_utf8 a with
    | Ok x => match encode_utf8 b with Ok y => Ok (x ++ y) | Raise e => Raise e end
    | Raise e => Raise e
    end.
Proof.
  induction a as [| c a IH]; simpl.
  - now destruct (encode_utf8 b).
  - destruct (utf8_char c) as [bc |]; [| reflexivity].
    rewrite IH. destruct (encode_utf8 a) as [x | e]; [| reflexivity].
    destruct (encode_utf8 b) as [y | e]; [| reflexivity].
    now rewrite app_assoc.
Qed.

(** Rows written one after the other are the bytes of their texts put
    together. *)
Lemma write_rows_text {A : Type} (fields : A -> list pystr) (xs : list A) :
  forall csvfile file,
    for_each xs (fun x => writerow (fields x)) csvfile = (file, Ok tt) ->
    exists b, encode_utf8 (flat_map (fun x => csv_row (fields x)) xs) = Ok b
              /\ file = csvfile ++ b.
Proof.
  induction xs as [| x xs IH]; intros csvfile file H; simpl in H.
  - inversion H; subst. exists []. split; [reflexivity | now rewrite app_nil_r].
  - apply se_bind_ok_inv in H as (f1 & [] & H1 & H).
    unfold writerow in H1.
    destruct (encode_utf8 (csv_row (fields x))) as [bx |] eqn:Ex; [| discriminate].
    inversion H1; subst f1; clear H1.
    apply IH in H as (b & Eb & ->).
    exists (bx ++ b). simpl. rewrite encode_utf8_app, Ex, Eb.
    split; [reflexivity | now rewrite app_assoc].
Qed.

Lemma SP_export_keeps resp rid b : keeps deletions (SP.export_report_as_pbix resp rid b).
Proof. unfold SP.export_report_as_pbix. keeps_tac. Qed.

Lemma SP_clone_keeps resp rid : keeps deletions (SP.clone_report resp rid).
Proof. unfold SP.clone_report. keeps_tac. Qed.

Lemma SP_clone_and_export_keeps result direct rid w :
  keeps deletions (SP.clone_and_export result direct rid w).
Proof.
  unfold SP.clone_and_export.
  destruct (negb (pbix_truthy direct)); [| apply keeps_ret].
  apply keeps_bind; [apply SP_clone_keeps |]. intros c.
  destruct (truthy c); [| apply keeps_ret].
  apply keeps_bind; [apply keeps_emit; reflexivity |]. intros _.
  apply keeps_bind; [apply SP_export_keeps | intros; apply keeps_ret].
Qed.

(** An analysis that raises has made no deletion. *)
Lemma SP_analyze_report_raise ws report w t0 t e :
  SP.analyze_report ws report w t0 = (t, Raise e) -> deletions t = deletions t0.
Proof.
  unfold SP.analyze_report.
  destruct (_ || _); [discriminate |]. intros H.
  apply se_bind_inv in H as [(t1 & direct & H1 & H) | (e1 & H1 & _)];
    [| now apply SP_export_keeps in H1].
  apply SP_export_keeps in H1. rewrite <- H1. clear H1.
  apply se_bind_inv in H as [(t2 & [[result pbix_content] clone_id] & H2 & H) | (e2 & H2 & _)];
    [| now apply SP_clone_and_export_keeps in H2].
  apply SP_clone_and_export_keeps in H2. rewrite <- H2. clear H2.
  apply se_bind_inv in H as [(t3 & result' & H3 & H) | (e3 & H3 & _)].
  - exfalso. apply se_bind_inv in H as [(t4 & [] & H4 & H) | (e4 & H4 & _)].
    + discriminate.
    + destruct (truthy clone_id); discriminate.
  - destruct pbix_content as [content |].
    + destruct (pbix_truthy (Some content)).
      * now apply SP_analyze_pbix_keeps in H3.
      * now apply SP_list_pages_keeps in H3.
    + now apply SP_list_pages_keeps in H3.
Qed.

(** ** Invariants of the state *)

Lemma preserves_ret {S A : Type} (P : S -> Prop) (a : A) : preserves P (ret a).
Proof. intros s s' r H. now inversion H. Qed.

Lemma preserves_lift {S A : Type} (P : S -> Prop) (r : result A) : preserves P (lift r).
Proof. intros s s' r' H. now inversion H. Qed.

Lemma preserves_bind {S A B : Type} (P : S -> Prop) (m : SE S A) (k : A -> SE S B) :
  preserves P m -> (forall a, preserves P (k a)) -> preserves P (se_bind m k).
Proof.
  intros Hm Hk s s' r H Hs. apply se_bind_inv in H as [(s1 & a & H1 & H2) | (e & H1 & _)].
  - apply (Hk a _ _ _ H2). now apply (Hm _ _ _ H1).
  - now apply (Hm _ _ _ H1).
Qed.

Lemma preserves_for_each {S A : Type} (P : S -> Prop) (xs : list A) (body : A -> SE S unit) :
  (forall x, preserves P (body x)) -> preserves P (for_each xs body).
Proof.
  intros Hb. induction xs as [| x xs IH]; simpl.
  - apply preserves_ret.
  - apply preserves_bind; [apply Hb | intros _; exact IH].
Qed.

Section Classified.

Variable is_custom_visual : pyobj -> result bool.

Lemma visit_container_classified section_name container :
  preserves (Forall (classified is_custom_visual)) (visit_container is_custom_visual section_name container).
Proof.
  unfold visit_container.
  apply preserves_bind; [apply preserves_lift |]. intros [|]; [| apply preserves_ret].
  apply preserves_bind; [apply preserves_lift |]. intros config_str.
  apply preserves_bind; [apply preserves_lift |]. intros config.
  apply preserves_bind; [apply preserves_lift |]. intros single.
  apply preserves_bind; [apply preserves_lift |]. intros visual_type.
  apply preserves_bind; [apply preserves_lift |]. intros visual_name.
  intros s s' r H Hs. unfold se_bind, lift in H.
  destruct (is_custom_visual visual_type) as [custom |] eqn:Hc.
  - inversion H; subst. apply Forall_app. split; [assumption |].
    constructor; [exact Hc | constructor].
  - now inversion H; subst.
Qed.

Lemma visit_section_classified section :
  preserves (Forall (classified is_custom_visual)) (visit_section is_custom_visual section).
Proof.
  unfold visit_section.
  apply preserves_bind; [apply preserves_lift |]. intros section_name.
  apply preserves_bind; [apply preserves_lift |]. intros [|]; [| apply preserves_ret].
  apply preserves_bind; [apply preserves_lift |]. intros containers.
  apply preserves_for_each. intros c. apply visit_container_classified.
Qed.

Lemma read_layout_classified decode zip_file file_name :
  preserves (Forall (classified is_custom_visual)) (read_layout is_custom_visual decode zip_file file_name).
Proof.
  unfold read_layout.
  apply preserves_bind; [apply preserves_lift |]. intros raw.
  apply preserves_bind; [apply preserves_lift |]. intros layout_content.
  apply preserves_bind; [apply preserves_lift |]. intros layout_data.
  apply preserves_bind; [apply preserves_lift |]. intros [|]; [| apply preserves_ret].
  apply preserves_bind; [apply preserves_lift |]. intros sections.
  apply preserves_for_each. intros s. apply visit_section_classified.
Qed.

Lemma try_layout_classified zip_file file_name :
  preserves (Forall (classified is_custom_visual)) (try_layout is_custom_visual zip_file file_name).
Proof.
  intros s s' r H Hs. unfold try_layout in H.
  destruct (read_layout is_custom_visual decode_utf16le zip_file file_name s)
    as [s1 r1] eqn:H1.
  pose proof (read_layout_classified _ _ _ _ _ _ H1 Hs) as Hs1.
  assert (H8 : forall s2 r2,
             read_layout is_custom_visual decode_utf8 zip_file file_name s1 = (s2, r2) ->
             Forall (classified is_custom_visual) s2).
  { intros s2 r2 H2. exact (read_layout_classified _ _ _ _ _ _ H2 Hs1). }
  destruct r1 as [[] | e].
  - now inversion H; subst.
  - destruct (read_layout is_custom_visual decode_utf8 zip_file file_name s1)
      as [s2 r2] eqn:H2.
    specialize (H8 _ _ eq_refl).
    destruct e; inversion H; subst; assumption.
Qed.

(** Every record of an extraction is classified. *)
Lemma extract_classified pbix_content :
  Forall (classified is_custom_visual) (extract_visuals_from_pbix_with is_custom_visual pbix_content).
Proof.
  unfold extract_visuals_from_pbix_with.
  assert (P : preserves (Forall (classified is_custom_visual))
                (zip_file <- lift (open_zip pbix_content) ;;
                 for_each (namelist zip_file) (visit_member is_custom_visual zip_file))).
  { apply preserves_bind; [apply preserves_lift |]. intros z.
    apply preserves_for_each. intros n. unfold visit_member.
    destruct (is_layout_member n); [apply try_layout_classified | apply preserves_ret]. }
  destruct ((zip_file <- lift (open_zip pbix_content) ;;
             for_each (namelist zip_file) (visit_member is_custom_visual zip_file)) [])
    as [s r] eqn:H.
  exact (P _ _ _ H (Forall_nil _)).
Qed.

End Classified.

Lemma unknown_not_custom (visuals : list VisualRecord) :
  Forall (classified SP.is_custom_visual) visuals ->
  List.length (filter is_custom visuals) + List.length (filter is_unknown visuals)
  <= List.length visuals.
Proof.
  induction 1 as [| v vs Hv _ IH]; simpl; [lia |].
  destruct (is_unknown v) eqn:Hu.
  - unfold is_unknown, eq_str in Hu. unfold classified in Hv.
    destruct (type v) as [| | | | s | |]; try discriminate.
    apply str_eqb_eq in Hu. subst s.
    assert (E : is_custom v = false).
    { change (SP.is_custom_visual (PStr (str "Unknown"))) with (@Ok bool false) in Hv.
      now inversion Hv. }
    rewrite E. simpl. lia.
  - destruct (is_custom v); simpl; lia.
Qed.

(** ** The rows of a workspace *)

Lemma SP_analyze_report_none ws report w t0 t :
  SP.analyze_report ws report w t0 = (t, Ok None) -> SP_skipped report = true.
Proof.
  unfold SP.analyze_report. fold (SP_skipped report).
  destruct (SP_skipped report); [reflexivity |]. intros H. exfalso.
  apply se_bind_ok_inv in H as (t1 & direct & _ & H).
  apply se_bind_ok_inv in H as (t2 & [[result pbix_content] clone_id] & _ & H).
  apply se_bind_ok_inv in H as (t3 & result' & _ & H).
  apply se_bind_ok_inv in H as (t4 & [] & _ & H).
  discriminate.
Qed.

Lemma SP_analyze_reports_rows ws reports :
  forall acc t0 t results,
    SP.analyze_reports ws reports acc t0 = (t, Ok results) ->
    exists rows,
      results = acc ++ rows
      /\ map SP_row_key rows = map SP_report_key (filter SP_kept reports).
Proof.
  induction reports as [| [report w] rest IH]; intros acc t0 t results H; simpl in H.
  - inversion H; subst. exists []. now rewrite app_nil_r.
  - apply se_bind_ok_inv in H as (t1 & r & H1 & H).
    apply IH in H as (rows & -> & Hrows). simpl. unfold SP_kept at 1. simpl.
    destruct r as [row |].
    + pose proof H1 as Hk. apply SP_analyze_report_run in Hk as (Hk & _).
      apply SP_result_shape in H1 as (_ & Hn & Hi & _).
      rewrite Hk. simpl. exists (row :: rows). split.
      * now rewrite <- app_assoc.
      * simpl. rewrite Hrows. unfold SP_row_key at 1, SP_report_key at 1. simpl.
        now rewrite Hn, Hi.
    + apply SP_analyze_report_none in H1. rewrite H1. simpl.
      exists rows. split; [reflexivity | exact Hrows].
Qed.

Lemma Interactive_analyze_reports_rows wid ws cap reports :
  forall acc t0 t results,
    Interactive.analyze_reports wid ws cap reports acc t0 = (t, Ok results) ->
    exists rows,
      results = acc ++ rows
      /\ map Interactive_row_key rows = map Interactive_report_key reports.
Proof.
  induction reports as [| [report w] rest IH]; intros acc t0 t results H; simpl in H.
  - inversion H; subst. exists []. now rewrite app_nil_r.
  - apply se_bind_ok_inv in H as (t1 & row & H1 & H).
    apply IH in H as (rows & -> & Hrows).
    apply Interactive_result_shape in H1 as (_ & Hn & Hi & _).
    exists (row :: rows). split.
    + now rewrite <- app_assoc.
    + simpl. rewrite Hrows. unfold Interactive_row_key at 1, Interactive_report_key at 1.
      simpl. now rewrite Hn, Hi.
Qed.

(** ** The rows of a run *)

Lemma blind_ret {S A : Type} (a : A) : blind (@ret S A a).
Proof. intros s1 s2. reflexivity. Qed.

Lemma blind_lift {S A : Type} (r : result A) : blind (@lift S A r).
Proof. intros s1 s2. reflexivity. Qed.

Lemma blind_emit (c : call) : blind (emit c).
Proof. intros s1 s2. reflexivity. Qed.

Lemma blind_bind {S A B : Type} (m : SE S A) (k : A -> SE S B) :
  blind m -> (forall a, blind (k a)) -> blind (se_bind m k).
Proof.
  intros Hm Hk s1 s2. unfold se_bind. specialize (Hm s1 s2).
  destruct (m s1) as [s1' [a1 | e1]], (m s2) as [s2' [a2 | e2]]; simpl in Hm;
    try discriminate.
  - inversion Hm; subst. apply Hk.
  - simpl. now inversion Hm.
Qed.

Lemma blind_for_each {S A : Type} (xs : list A) (body : A -> SE S unit) :
  (forall x, blind (body x)) -> blind (for_each xs body).
Proof.
  intros Hb. induction xs as [| x xs IH]; simpl.
  - apply blind_ret.
  - apply blind_bind; [apply Hb | intros _; exact IH].
Qed.

Ltac blind_tac :=
  repeat first
    [ apply blind_bind; [| intros ? ]
    | apply blind_for_each; intros ?
    | apply blind_ret
    | apply blind_lift
    | apply blind_emit
    | match goal with
      | |- blind (if ?b then _ else _) => destruct b
      | |- blind (match ?x with _ => _ end) => destruct x
      end ].

Lemma SP_analyze_report_blind ws report w : blind (SP.analyze_report ws report w).
Proof.
  unfold SP.analyze_report, SP.export_report_as_pbix, SP.clone_and_export, SP.clone_report,
    SP.analyze_pbix, SP.list_pages, SP.get_report_pages, SP.delete_report.
  blind_tac.
Qed.

Lemma SP_analyze_reports_blind ws reports : forall acc, blind (SP.analyze_reports ws reports acc).
Proof.
  induction reports as [| [report w] rest IH]; intros acc; simpl.
  - apply blind_ret.
  - apply blind_bind; [apply SP_analyze_report_blind | intros r; apply IH].
Qed.

Lemma SP_analyze_workspace_reports_blind ws ww : blind (SP.analyze_workspace_reports ws ww).
Proof.
  unfold SP.analyze_workspace_reports.
  apply blind_bind; [apply blind_emit | intros _].
  apply blind_bind; [apply blind_lift | intros reports].
  apply SP_analyze_reports_blind.
Qed.

Lemma SP_scan_workspaces_rows workspaces :
  forall all_results t,
    snd (SP.scan_workspaces workspaces all_results t)
    = all_results ++ flat_map SP_workspace_rows workspaces.
Proof.
  induction workspaces as [| [ws ww] rest IH]; intros all_results t; simpl.
  - now rewrite app_nil_r.
  - unfold SP_workspace_rows at 1. simpl.
    pose proof (SP_analyze_workspace_reports_blind
                  (get_default (ws_name ws) (str "Unknown")) ww t []) as Hb.
    destruct (SP.analyze_workspace_reports _ ww t) as [t1 r1].
    simpl in Hb. rewrite <- Hb.
    destruct r1 as [results | e]; rewrite IH.
    + now rewrite app_assoc.
    + reflexivity.
Qed.

Lemma SP_main_file workspaces :
  snd (fst (SP.main workspaces))
  = fst (SP.write_csv (flat_map SP_workspace_rows workspaces)).
Proof.
  unfold SP.main.
  pose proof (SP_scan_workspaces_rows workspaces [] []) as H.
  destruct (SP.scan_workspaces workspaces [] []) as [t all_results].
  simpl in H. subst all_results.
  now destruct (SP.write_csv _) as [csvfile [[] | e]].
Qed.

Lemma Interactive_analyze_report_blind wid ws cap report w :
  blind (Interactive.analyze_report wid ws cap report w).
Proof.
  unfold Interactive.analyze_report, Interactive.export_report_as_pbix,
    Interactive.analyze_pbix, Interactive.list_pages, Interactive.get_report_pages.
  blind_tac.
Qed.

Lemma Interactive_analyze_reports_blind wid ws cap reports :
  forall acc, blind (Interactive.analyze_reports wid ws cap reports acc).
Proof.
  induction reports as [| [report w] rest IH]; intros acc; simpl.
  - apply blind_ret.
  - apply blind_bind; [apply Interactive_analyze_report_blind | intros r; apply IH].
Qed.

Lemma Interactive_analyze_workspace_reports_blind wid ws cap ww :
  blind (Interactive.analyze_workspace_reports wid ws cap ww).
Proof.
  unfold Interactive.analyze_workspace_reports.
  apply blind_bind; [apply blind_emit | intros _].
  apply blind_bind; [apply blind_lift | intros reports].
  apply Interactive_analyze_reports_blind.
Qed.

Lemma Interactive_scan_workspaces_rows workspaces :
  forall all_results csvfile t t' file results,
    Interactive.scan_workspaces workspaces all_results csvfile t = (t', file, Ok results) ->
    results = all_results ++ flat_map Interactive_workspace_rows workspaces
    /\ for_each (flat_map Interactive_workspace_rows workspaces)
         (fun result => writerow (Interactive.row_fields result)) csvfile
       = (file, Ok tt)
    /\ Forall (fun wsw => exists rs, Interactive_workspace_outcome wsw = Ok rs) workspaces.
Proof.
  induction workspaces as [| [ws ww] rest IH]; intros all_results csvfile t t' file results H;
    simpl in H.
  - inversion H; subst. simpl. now rewrite !app_nil_r.
  - pose proof (Interactive_analyze_workspace_reports_blind (ws_id ws)
                  (get_default (ws_name ws) (str "Unnamed Workspace"))
                  (get_default (ws_capacityId ws) []) ww t []) as Hb.
    destruct (Interactive.analyze_workspace_reports _ _ _ ww t) as [t1 [batch | e]];
      [| discriminate].
    simpl in Hb.
    destruct (Interactive.append_csv batch csvfile) as [csvfile1 [[] | e]] eqn:Ha;
      [| discriminate].
    apply IH in H as (-> & Hw & HF).
    assert (Ho : Interactive_workspace_outcome (ws, ww) = Ok batch).
    { unfold Interactive_workspace_outcome. simpl. now rewrite <- Hb. }
    assert (Hr : Interactive_workspace_rows (ws, ww) = batch).
    { unfold Interactive_workspace_rows. now rewrite Ho. }
    cbn [flat_map]. rewrite Hr.
    split; [now rewrite app_assoc |]. split.
    + rewrite for_each_app. unfold se_bind. rewrite <- append_csv_rows, Ha. exact Hw.
    + constructor; [now exists batch | exact HF].
Qed.

Lemma Interactive_main_rows workspaces t file s :
  Interactive.main workspaces = (t, file, Ok s) ->
  Interactive.single_flush (flat_map Interactive_workspace_rows workspaces) = (file, Ok tt)
  /\ Forall (fun wsw => exists rs, Interactive_workspace_outcome wsw = Ok rs) workspaces.
Proof.
  unfold Interactive.main, Interactive.single_flush, Interactive.create_csv, se_bind.
  destruct (writerow Interactive.fieldnames []) as [csvfile [[] | e]]; [| discriminate].
  destruct (Interactive.scan_workspaces workspaces [] csvfile [])
    as [[t1 file1] [all_results | e]] eqn:H; intros E; inversion E; subst.
  apply Interactive_scan_workspaces_rows in H as (_ & Hw & HF).
  split; [exact Hw | exact HF].
Qed.

(** ** Requests stay in the log *)

Lemma preserves_emit_In (c c' : call) : preserves (fun t => In c t) (emit c').
Proof. intros s s' r H Hs. inversion H; subst. apply in_or_app. now left. Qed.

Ltac logged_tac :=
  repeat first
    [ apply preserves_bind; [| intros ? ]
    | apply preserves_for_each; intros ?
    | apply preserves_ret
    | apply preserves_lift
    | apply preserves_emit_In
    | match goal with
      | |- preserves _ (if ?b then _ else _) => destruct b
      | |- preserves _ (match ?x with _ => _ end) => destruct x
      end ].

(** After a direct export that gave nothing, an analysis that returns has
    asked for a clone of the report. *)
Lemma SP_clone_attempted ws report w t0 t r :
  pbix_truthy (SP.export_result (export_response w)) = false ->
  SP.analyze_report ws report w t0 = (t, Ok (Some r)) ->
  exists rid, rep_id report = Some rid /\ In (CloneReport (PStr rid)) t.
Proof.
  intros Hd H.
  unfold SP.analyze_report in H.
  destruct (_ || _); [discriminate |].
  apply se_bind_ok_inv in H as (t1 & direct & H1 & H).
  rewrite SP_export_run in H1. inversion H1; subst t1 direct; clear H1.
  apply se_bind_ok_inv in H as (u2 & [[result pbix_content] clone_id] & H2 & H3).
  unfold SP.clone_and_export in H2. rewrite Hd in H2. cbn [negb] in H2.
  apply se_bind_ok_inv in H2 as (u1 & cid & Hc & H2).
  destruct (rep_id report) as [rid |]; [| discriminate].
  exists rid. split; [reflexivity |].
  rewrite SP_clone_run in Hc. inversion Hc; subst u1 cid; clear Hc.
  assert (I1 : In (CloneReport (PStr rid))
                 ((t0 ++ [ExportReport (id_obj (Some rid))]) ++ [CloneReport (PStr rid)])).
  { apply in_or_app. right. now left. }
  assert (I2 : In (CloneReport (PStr rid)) u2).
  { refine ((_ : preserves (fun t => In (CloneReport (PStr rid)) t) _) _ _ _ H2 I1).
    unfold SP.export_report_as_pbix. logged_tac. }
  refine ((_ : preserves (fun t => In (CloneReport (PStr rid)) t) _) _ _ _ H3 I2).
  unfold SP.analyze_pbix, SP.list_pages, SP.get_report_pages, SP.delete_report. logged_tac.
Qed.

(** ** The fixtures, run *)

Lemma spec_layout_length : List.length (utf8_of_ascii spec_layout) = 133.
Proof. reflexivity. Qed.

Lemma garbage_world_run :
  SP.analyze_report (str "WS") report_r1 garbage_world []
  = (fst (SP.analyze_report (str "WS") report_r1 garbage_world []),
     Ok (Some garbage_world_result)).
Proof. vm_compute. reflexivity. Qed.

Lemma garbage_not_empty : garbage <> [].
Proof. discriminate. Qed.

Lemma clone_world_run :
  SP.analyze_report (str "WS") report_r1 clone_world []
  = (fst (SP.analyze_report (str "WS") report_r1 clone_world []), Ok (Some clone_world_result)).
Proof. vm_compute. reflexivity. Qed.

Lemma page1_archive_has_visuals : SP.extract_visuals_from_pbix page1_archive <> [].
Proof. vm_compute. discriminate. Qed.

Lemma unauthorized_run :
  Interactive.analyze_report None (str "WS") [] report_r1 unauthorized_world []
  = (fst (Interactive.analyze_report None (str "WS") [] report_r1 unauthorized_world []),
     Ok unauthorized_result).
Proof. vm_compute. reflexivity. Qed.

Lemma clone_world_full_run :
  SP.analyze_report (str "WS") report_r1 clone_world []
  = (clone_world_trace, Ok (Some clone_world_result)).
Proof. vm_compute. reflexivity. Qed.

Lemma two_reports_run :
  SP.analyze_workspace_reports (str "WS") (Ok two_reports) []
  = (fst (SP.analyze_workspace_reports (str "WS") (Ok two_reports) []),
     Ok [clone_world_result]).
Proof. vm_compute. reflexivity. Qed.

Lemma three_batches_run :
  Interactive.csv_after three_batches = (fst (Interactive.csv_after three_batches), Ok tt).
Proof. vm_compute. reflexivity. Qed.

(** * The claims *)

(** ** C1: a malformed container *)

(** C1, as amended.  Bytes that [zipfile] cannot open give the empty list of
    visuals in both scripts, the value an archive without visuals gives: the
    failure is printed, not returned.  A report whose export is such bytes
    gets the row of an export without visuals: method
    [Direct Export (No Visuals)], DirectLake [No], no visuals. *)
Theorem C1_malformed_container_gives_empty_list :
  (forall raw : bytes,
      SP.extract_visuals_from_pbix (NotZip raw) = []
      /\ Interactive.extract_visuals_from_pbix (NotZip raw) = [])
  /\ (forall ws report w raw t r,
         SP.export_result (export_response w) = Some (NotZip raw) ->
         raw <> [] ->
         SP.analyze_report ws report w [] = (t, Ok (Some r)) ->
         SP.method r = str "Direct Export (No Visuals)"
         /\ SP.is_directlake r = str "No" /\ SP.total_visuals r = 0)
  /\ (forall wid ws cap report w raw t r,
         Interactive.export_result (export_response w) = Some (NotZip raw) ->
         raw <> [] ->
         Interactive.analyze_report wid ws cap report w [] = (t, Ok r) ->
         Interactive.method r = str "Direct Export (No Visuals)"
         /\ Interactive.is_directlake r = str "No" /\ Interactive.total_visuals r = 0).
Proof.
  split; [intros raw; split; reflexivity |]. split.
  - intros ws report w raw t r He Hraw H.
    assert (Ht : pbix_truthy (Some (NotZip raw)) = true) by now destruct raw.
    assert (Hp : SP_pbix_content w = Some (NotZip raw)).
    { unfold SP_pbix_content. now rewrite He, Ht. }
    apply SP_result_shape in H as (_ & _ & _ & Hs). rewrite Hp, Ht in Hs.
    destruct Hs as [(c & Hc & _ & Hdl & [(Hne & _) | (_ & Hm & Htot & _)]) | (Hf & _)].
    + inversion Hc; subst c. now contradiction Hne.
    + now repeat split.
    + discriminate.
  - intros wid ws cap report w raw t r He Hraw H.
    assert (Ht : pbix_truthy (Some (NotZip raw)) = true) by now destruct raw.
    apply Interactive_result_shape in H as (_ & _ & _ & Hs).
    rewrite He, Ht in Hs.
    destruct Hs as [(c & Hc & _ & Hdl & [(Hne & _) | (_ & Hm & Htot & _)]) | (Hf & _)].
    + inversion Hc; subst c. now contradiction Hne.
    + now repeat split.
    + discriminate.
Qed.

(** The amended C1 at a report whose export is an error page. *)
Lemma C1_malformed_container_gives_empty_list_witness :
  SP.method garbage_world_result = str "Direct Export (No Visuals)"
  /\ SP.is_directlake garbage_world_result = str "No"
  /\ SP.total_visuals garbage_world_result = 0.
Proof.
  exact (proj1 (proj2 C1_malformed_container_gives_empty_list)
           (str "WS") report_r1 garbage_world garbage _ _
           eq_refl garbage_not_empty garbage_world_run).
Defined.

(** C1, as stated, fails: the bytes of an error page are refused by
    [zipfile], an archive without members is opened, and the parser returns
    the same empty list for both; the two reports get the same row. *)
Lemma C1_counterexample_malformed_is_silent :
  open_zip (NotZip garbage) = Raise BadZipFile
  /\ open_zip (Zip []) = Ok []
  /\ SP.extract_visuals_from_pbix (NotZip garbage) = SP.extract_visuals_from_pbix (Zip [])
  /\ Interactive.extract_visuals_from_pbix (NotZip garbage)
     = Interactive.extract_visuals_from_pbix (Zip [])
  /\ snd (SP.analyze_report (str "WS") report_r1 garbage_world [])
     = snd (SP.analyze_report (str "WS") report_r1 empty_archive_world [])
  /\ (exists r, snd (SP.analyze_report (str "WS") report_r1 garbage_world []) = Ok (Some r)
                /\ SP.method r = str "Direct Export (No Visuals)").
Proof.
  repeat split; try reflexivity.
  eexists. split; [vm_compute; reflexivity | reflexivity].
Qed.

(** ** C2: cleanup of the clone *)

(** C2, as amended.  When the analysis of a report returns a result, the log
    holds exactly one deletion if a clone was made, as its last request and
    naming the clone, and none otherwise.  When the analysis ends with an
    exception, no deletion was made. *)
Theorem C2_clone_deleted_once_when_analysis_returns (ws : pystr) (report : Report)
  (w : ReportWorld) (t : trace) :
  (forall r, SP.analyze_report ws report w [] = (t, Ok (Some r)) ->
             deletions t = (if truthy (SP_clone_id w) then 1 else 0)
             /\ (truthy (SP_clone_id w) = true ->
                 exists t', t = t' ++ [DeleteReport (SP_clone_id w)] /\ deletions t' = 0))
  /\ (forall e, SP.analyze_report ws report w [] = (t, Raise e) -> deletions t = 0).
Proof.
  split.
  - intros r H. apply SP_analyze_report_run in H as (_ & t2 & t3 & K2 & Hb & ->).
    assert (K3 : deletions t3 = 0).
    { change 0 with (deletions []). rewrite <- K2. revert Hb. unfold SP_body.
      destruct (SP_pbix_content w) as [content |].
      - destruct (pbix_truthy (Some content)).
        + apply SP_analyze_pbix_keeps.
        + apply SP_list_pages_keeps.
      - apply SP_list_pages_keeps. }
    destruct (truthy (SP_clone_id w)).
    + split.
      * rewrite deletions_app, K3. reflexivity.
      * intros _. now exists t3.
    + split; [exact K3 | discriminate].
  - intros e H. now apply SP_analyze_report_raise in H.
Qed.

(** The amended C2 at a report that is cloned and parsed. *)
Lemma C2_clone_deleted_once_when_analysis_returns_witness :
  deletions clone_world_trace = 1.
Proof.
  exact (proj1 (proj1 (C2_clone_deleted_once_when_analysis_returns
                         (str "WS") report_r1 clone_world clone_world_trace)
                  _ clone_world_full_run)).
Defined.

(** C2, as stated, fails: the direct export is refused, the clone is made
    and exported, and writing the file raises [OSError]; the exception leaves
    the analysis before the cleanup and the log holds no deletion. *)
Lemma C2_counterexample_exception_skips_cleanup :
  SP.clone_result (clone_response disk_full_world) = PStr (str "c1")
  /\ SP.analyze_report (str "WS") report_r1 disk_full_world []
     = ([ExportReport (PStr (str "0123456789abcdef"));
         CloneReport (PStr (str "0123456789abcdef"));
         Sleep; ExportReport (PStr (str "c1")); WriteFile (str "report_01234567.pbix")],
        Raise OSError)
  /\ deletions (fst (SP.analyze_report (str "WS") report_r1 disk_full_world [])) = 0.
Proof. repeat split; vm_compute; reflexivity. Qed.

(** ** C3: export of the clone *)

(** C3, as amended.  When the direct export gives nothing, whatever the
    reason given, the clone is made, its export gives content and the content
    has at least one visual, every result of the analysis has method
    [Direct Export] and DirectLake [No].  The analysis does give a result
    when the report has an identifier and is no leftover clone, the file is
    written and the pages of the visuals can be grouped. *)
Theorem C3_clone_export_success (ws : pystr) (report : Report) (w : ReportWorld)
  (content : pbix) :
  pbix_truthy (SP.export_result (export_response w)) = false ->
  truthy (SP.clone_result (clone_response w)) = true ->
  SP.export_result (clone_export_response w) = Some content ->
  pbix_truthy (Some content) = true ->
  SP.extract_visuals_from_pbix content <> [] ->
  (forall t r, SP.analyze_report ws report w [] = (t, Ok (Some r)) ->
               SP.method r = str "Direct Export" /\ SP.is_directlake r = str "No")
  /\ (forall rid pages,
         SP_skipped report = false ->
         rep_id report = Some rid ->
         write_pbix w = Ok tt ->
         group_pages (SP.extract_visuals_from_pbix content) [] = Ok pages ->
         exists t r, SP.analyze_report ws report w [] = (t, Ok (Some r))
                     /\ SP.method r = str "Direct Export"
                     /\ SP.is_directlake r = str "No").
Proof.
  intros Hd Hc He Ht Hv.
  assert (Hp : SP_pbix_content w = Some content).
  { unfold SP_pbix_content. now rewrite Hd, Hc. }
  assert (A : forall t r, SP.analyze_report ws report w [] = (t, Ok (Some r)) ->
                          SP.method r = str "Direct Export" /\ SP.is_directlake r = str "No").
  { intros t r H. apply SP_result_shape in H as (_ & _ & _ & Hs).
    rewrite Hp in Hs.
    destruct Hs as [(c & Hc' & _ & Hdl & [(_ & Hm & _) | (Hnil & _)]) | (Hf & _)].
    - now split.
    - inversion Hc'; subst c. contradiction.
    - rewrite Ht in Hf. discriminate. }
  split; [exact A |].
  intros rid pages Hs Hid Hw Hg.
  destruct (SP.extract_visuals_from_pbix content) as [| v vs] eqn:Hx; [contradiction |].
  eexists. eexists. split.
  - unfold SP.analyze_report. fold (SP_skipped report).
    rewrite Hs, Hid. unfold se_bind at 1. rewrite SP_export_run.
    unfold se_bind at 1. unfold SP.clone_and_export. rewrite Hd. cbn [negb].
    unfold se_bind at 1. rewrite SP_clone_run. rewrite Hc.
    unfold se_bind at 1. unfold emit at 1. unfold se_bind at 1. rewrite SP_export_run.
    unfold ret at 1. rewrite He, Ht.
    unfold se_bind at 1. unfold SP.analyze_pbix, pbix_filename_of.
    cbv [se_bind lift emit ret]. rewrite Hw, Hx, Hg, Hc.
    unfold SP.delete_report, emit. reflexivity.
  - split; reflexivity.
Qed.

(** The amended C3 at a report refused with the restriction marker. *)
Lemma C3_clone_export_success_witness :
  SP.method clone_world_result = str "Direct Export"
  /\ SP.is_directlake clone_world_result = str "No".
Proof.
  exact (proj1 (@C3_clone_export_success (str "WS") report_r1 clone_world page1_archive
                  eq_refl eq_refl eq_refl eq_refl page1_archive_has_visuals)
           _ _ clone_world_run).
Defined.

(** C3, as stated, fails: the direct export is refused with the restriction
    marker, the export of the clone gives an archive with one visual, and the
    result has method [Direct Export] with DirectLake [No], not [Yes]. *)
Lemma C3_counterexample_directlake_is_no :
  (exists r, export_response clone_world = Ok r
             /\ status_code r = 403%Z
             /\ str_contains Interactive.directlake_marker (text r) = true)
  /\ SP.export_result (export_response clone_world) = None
  /\ SP.export_result (clone_export_response clone_world) = Some page1_archive
  /\ SP.extract_visuals_from_pbix page1_archive = [page1_record]
  /\ snd (SP.analyze_report (str "WS") report_r1 clone_world []) = Ok (Some clone_world_result)
  /\ SP.method clone_world_result = str "Direct Export"
  /\ SP.is_directlake clone_world_result = str "No"
  /\ SP.is_directlake clone_world_result <> str "Yes".
Proof.
  split; [eexists; split; [reflexivity | split; [reflexivity | vm_compute; reflexivity]] |].
  repeat split; try (vm_compute; reflexivity).
  vm_compute. discriminate.
Qed.

(** ** C4: failure of the direct export *)

(** C4, as amended.  An export not answered with status 200 gives [None]
    whatever the error text says.  After a direct export that gave nothing,
    DirectLake is [Yes] in every result of the interactive script; in the
    service-principal script a clone of the report is asked for, and
    DirectLake is [No] when the clone was made and its export gave content,
    and [Yes] otherwise.  It is never left at [Unknown]. *)
Theorem C4_any_export_failure_sets_directlake_yes :
  (forall r, status_code r <> 200%Z ->
             Interactive.export_result (Ok r) = None /\ SP.export_result (Ok r) = None)
  /\ (forall wid ws cap report w t r,
         pbix_truthy (Interactive.export_result (export_response w)) = false ->
         Interactive.analyze_report wid ws cap report w [] = (t, Ok r) ->
         Interactive.is_directlake r = str "Yes")
  /\ (forall ws report w t r,
         pbix_truthy (SP.export_result (export_response w)) = false ->
         SP.analyze_report ws report w [] = (t, Ok (Some r)) ->
         SP.is_directlake r
         = if truthy (SP.clone_result (clone_response w))
              && pbix_truthy (SP.export_result (clone_export_response w))
           then str "No" else str "Yes")
  /\ (forall ws report w t r,
         pbix_truthy (SP.export_result (export_response w)) = false ->
         SP.analyze_report ws report w [] = (t, Ok (Some r)) ->
         exists rid, rep_id report = Some rid /\ In (CloneReport (PStr rid)) t).
Proof.
  split; [| split; [| split]]; [| | | intros ws report w t r; apply SP_clone_attempted].
  - intros r Hs. apply Z.eqb_neq in Hs.
    unfold Interactive.export_result, SP.export_result. rewrite Hs. split.
    + now destruct (str_contains _ _).
    + now destruct (let* body := json r in _)%result.
  - intros wid ws cap report w t r Hd H.
    apply Interactive_result_shape in H as (_ & _ & _ & Hs).
    destruct Hs as [(content & _ & Ht & _) | (_ & Hy & _)]; [congruence | exact Hy].
  - intros ws report w t r Hd H.
    apply SP_result_shape in H as (_ & _ & _ & Hs).
    unfold SP_pbix_content in Hs. rewrite Hd in Hs.
    destruct (truthy (SP.clone_result (clone_response w))); cbn [andb].
    + destruct Hs as [(content & _ & Ht & Hn & _) | (Hf & _ & Hy & _)].
      * now rewrite Ht.
      * now rewrite Hf.
    + rewrite Hd in Hs.
      destruct Hs as [(content & _ & Ht & _) | (_ & _ & Hy & _)]; [discriminate | exact Hy].
Qed.

(** The amended C4 at a report refused with status 401. *)
Lemma C4_any_export_failure_sets_directlake_yes_witness :
  Interactive.is_directlake unauthorized_result = str "Yes".
Proof.
  exact (proj1 (proj2 C4_any_export_failure_sets_directlake_yes)
           None (str "WS") [] report_r1 unauthorized_world _ _ eq_refl unauthorized_run).
Defined.

(** C4, as stated, fails: the export is refused with status 401 and a text
    that does not hold the restriction marker, and DirectLake is [Yes] in the
    result of both scripts, not [Unknown]. *)
Lemma C4_counterexample_unauthorized_is_yes :
  (exists r, export_response unauthorized_world = Ok r
             /\ status_code r = 401%Z
             /\ str_contains Interactive.directlake_marker (text r) = false)
  /\ snd (Interactive.analyze_report None (str "WS") [] report_r1 unauthorized_world [])
     = Ok unauthorized_result
  /\ Interactive.is_directlake unauthorized_result = str "Yes"
  /\ Interactive.is_directlake unauthorized_result <> str "Unknown"
  /\ snd (SP.analyze_report (str "WS") report_r1 unauthorized_world [])
     = Ok (Some unauthorized_result_sp)
  /\ SP.is_directlake unauthorized_result_sp = str "Yes".
Proof.
  split; [eexists; split; [reflexivity | split; [reflexivity | vm_compute; reflexivity]] |].
  repeat split; try (vm_compute; reflexivity).
  vm_compute. discriminate.
Qed.

(** ** C5: the built-in set *)

(** C5, as amended.  The service-principal classifier returns built-in for
    every identifier of its set spelled as in the set, before the dot, length
    and prefix rules; the interactive classifier returns built-in for every
    identifier whose lower case is in its set.  [LINECHART] is built-in in
    both, by the default rule. *)
Theorem C5_builtin_membership :
  (forall t, In t SP.builtin_visuals -> SP.is_custom_visual (PStr t) = Ok false)
  /\ (forall t, In (lower t) Interactive.builtin_visuals ->
                Interactive.is_custom_visual (PStr t) = Ok false)
  /\ SP.is_custom_visual (PStr (str "LINECHART")) = Ok false
  /\ Interactive.is_custom_visual (PStr (str "LINECHART")) = Ok false.
Proof.
  repeat split; try reflexivity.
  - intros t Ht. unfold SP.is_custom_visual.
    destruct (negb (truthy (PStr t)) || eq_str (PStr t) (str "Unknown")); [reflexivity |].
    replace (set_contains SP.builtin_visuals (PStr t)) with (@Ok bool true); [reflexivity |].
    unfold set_contains. f_equal. symmetry. apply existsb_exists.
    exists t. split; [assumption | apply str_eqb_refl].
  - intros t Ht. unfold Interactive.is_custom_visual.
    apply str_mem_In in Ht. now rewrite Ht.
Qed.

(** The amended C5 at a long built-in name and at [GAUGE]. *)
Lemma C5_builtin_membership_witness :
  In (str "hundredPercentStackedBarChart") SP.builtin_visuals
  /\ SP.is_custom_visual (PStr (str "hundredPercentStackedBarChart")) = Ok false
  /\ In (lower (str "GAUGE")) Interactive.builtin_visuals
  /\ Interactive.is_custom_visual (PStr (str "GAUGE")) = Ok false.
Proof.
  assert (H1 : In (str "hundredPercentStackedBarChart") SP.builtin_visuals).
  { apply str_mem_In. vm_compute. reflexivity. }
  assert (H2 : In (lower (str "GAUGE")) Interactive.builtin_visuals).
  { apply str_mem_In. vm_compute. reflexivity. }
  split; [exact H1 |].
  split; [exact (proj1 C5_builtin_membership _ H1) |].
  split; [exact H2 |].
  exact (proj1 (proj2 C5_builtin_membership) _ H2).
Defined.

(** C5, as stated, fails: the all-uppercase variant of a built-in name of 29
    characters is custom for both classifiers, by the length rule. *)
Lemma C5_counterexample_uppercase_long_builtin :
  In (str "hundredPercentStackedBarChart") SP.builtin_visuals
  /\ In (str "hundredPercentStackedBarChart") Interactive.builtin_visuals
  /\ SP.is_custom_visual (PStr (str "HUNDREDPERCENTSTACKEDBARCHART")) = Ok true
  /\ Interactive.is_custom_visual (PStr (str "HUNDREDPERCENTSTACKEDBARCHART")) = Ok true.
Proof.
  split; [apply str_mem_In; vm_compute; reflexivity |].
  split; [apply str_mem_In; vm_compute; reflexivity |].
  split; reflexivity.
Qed.

(** The interactive classifier compares the lower-cased identifier with names
    kept in camel case: a built-in name with a capital in it is not found in
    its own set, and one longer than 25 characters comes out custom. *)
Example Interactive_camel_case_builtin_is_custom :
  In (str "hundredPercentStackedBarChart") Interactive.builtin_visuals
  /\ Interactive.is_custom_visual (PStr (str "hundredPercentStackedBarChart")) = Ok true
  /\ SP.is_custom_visual (PStr (str "hundredPercentStackedBarChart")) = Ok false.
Proof.
  split; [apply str_mem_In; vm_compute; reflexivity |].
  split; reflexivity.
Qed.

(** ** C6: the parser round trip *)

(** C6.  An archive with exactly one member that has [Layout] in its name
    and is no directory, holding the round-trip document in UTF-8, gives
    exactly the record of [v1], a [card] on [Page1], not custom, in both
    scripts: the 133 bytes are refused as UTF-16 and read as UTF-8.  The same
    document in UTF-16 gives the same record. *)
Theorem C6_utf8_layout_gives_the_record (before after : ZipFile) (file_name : pystr) :
  is_layout_member file_name = true ->
  Forall (fun m => is_layout_member (fst m) = false) (before ++ after) ->
  SP.extract_visuals_from_pbix
    (Zip (before ++ (file_name, Ok (utf8_of_ascii spec_layout)) :: after))
  = [page1_record]
  /\ Interactive.extract_visuals_from_pbix
       (Zip (before ++ (file_name, Ok (utf8_of_ascii spec_layout)) :: after))
     = [page1_record]
  /\ decode_utf16le (utf8_of_ascii spec_layout) = Raise UnicodeDecodeError
  /\ SP.extract_visuals_from_pbix
       (Zip (before ++ (file_name, Ok (utf16le_of_ascii spec_layout)) :: after))
     = SP.extract_visuals_from_pbix
         (Zip (before ++ (file_name, Ok (utf8_of_ascii spec_layout)) :: after))
  /\ Interactive.extract_visuals_from_pbix
       (Zip (before ++ (file_name, Ok (utf16le_of_ascii spec_layout)) :: after))
     = Interactive.extract_visuals_from_pbix
         (Zip (before ++ (file_name, Ok (utf8_of_ascii spec_layout)) :: after)).
Proof.
  intros Hf Ho.
  unfold SP.extract_visuals_from_pbix, Interactive.extract_visuals_from_pbix.
  rewrite !(extract_one_layout _ _ _ _ _ Hf Ho).
  repeat split; vm_compute; reflexivity.
Qed.

(** C6 at an archive of three members, the layout between a version file
    and a directory. *)
Lemma C6_utf8_layout_gives_the_record_witness :
  SP.extract_visuals_from_pbix
    (Zip ([(str "Version", Ok [])]
          ++ (str "Report/Layout", Ok (utf8_of_ascii spec_layout))
             :: [(str "Report/Layout/", Ok [])]))
  = [page1_record].
Proof.
  assert (Ho : Forall (fun m : pystr * result bytes => is_layout_member (fst m) = false)
                 ([(str "Version", Ok [])] ++ [(str "Report/Layout/", Ok [])])).
  { repeat constructor. }
  exact (proj1 (C6_utf8_layout_gives_the_record
                  [(str "Version", Ok [])] [(str "Report/Layout/", Ok [])]
                  (str "Report/Layout") eq_refl Ho)).
Defined.

(** The fallback depends on the length of the payload: one more space after
    the document makes the bytes well-formed UTF-16, the text they decode to
    is no JSON, and that exception ends the parse with no record. *)
Example utf8_layout_of_even_length_gives_nothing :
  List.length (utf8_of_ascii (spec_layout ++ str " ")) = 134
  /\ json_loads (spec_layout ++ str " ") = json_loads spec_layout
  /\ SP.extract_visuals_from_pbix
       (Zip [(str "Report/Layout", Ok (utf8_of_ascii (spec_layout ++ str " ")))]) = [].
Proof. repeat split; vm_compute; reflexivity. Qed.

(** ** C7: a row per report *)

(** C7, as amended.  When the analysis of a workspace returns, the
    service-principal script has one row, in listing order, for every listed
    report whose name holds neither [temp_analysis_] nor
    [temp_clone_for_analysis], and none for the others; the interactive
    script has one row for every listed report.  The file of a run of the
    service-principal script holds the rows of the workspaces whose analysis
    returned; the file of a run of the interactive script that reaches its
    end holds the rows of all workspaces. *)
Theorem C7_one_row_per_kept_report :
  (forall ws reports t results,
      SP.analyze_workspace_reports ws (Ok reports) [] = (t, Ok results) ->
      map SP_row_key results = map SP_report_key (filter SP_kept reports))
  /\ (forall wid ws cap reports t results,
         Interactive.analyze_workspace_reports wid ws cap (Ok reports) [] = (t, Ok results) ->
         map Interactive_row_key results = map Interactive_report_key reports)
  /\ (forall workspaces,
         snd (fst (SP.main workspaces))
         = fst (SP.write_csv (flat_map SP_workspace_rows workspaces)))
  /\ (forall workspaces t file s,
         Interactive.main workspaces = (t, file, Ok s) ->
         Interactive.single_flush (flat_map Interactive_workspace_rows workspaces)
         = (file, Ok tt)
         /\ Forall (fun wsw => exists rs, Interactive_workspace_outcome wsw = Ok rs)
              workspaces).
Proof.
  split; [| split; [| split]].
  - intros ws reports t results H. unfold SP.analyze_workspace_reports in H.
    apply se_bind_ok_inv in H as (t1 & [] & _ & H).
    apply se_bind_ok_inv in H as (t2 & reports' & Hl & H).
    inversion Hl; subst.
    apply SP_analyze_reports_rows in H as (rows & -> & Hrows). exact Hrows.
  - intros wid ws cap reports t results H. unfold Interactive.analyze_workspace_reports in H.
    apply se_bind_ok_inv in H as (t1 & [] & _ & H).
    apply se_bind_ok_inv in H as (t2 & reports' & Hl & H).
    inversion Hl; subst.
    apply Interactive_analyze_reports_rows in H as (rows & -> & Hrows). exact Hrows.
  - exact SP_main_file.
  - exact Interactive_main_rows.
Qed.

(** The amended C7 at a workspace of two reports. *)
Lemma C7_one_row_per_kept_report_witness :
  map SP_row_key [clone_world_result] = map SP_report_key (filter SP_kept two_reports).
Proof.
  exact (proj1 C7_one_row_per_kept_report (str "WS") two_reports _ _ two_reports_run).
Defined.

(** C7, as stated, fails: a listed report named like a leftover clone gets
    no row. *)
Lemma C7_counterexample_clone_named_report_dropped :
  In (leftover_clone, unauthorized_world) two_reports
  /\ snd (SP.analyze_workspace_reports (str "WS") (Ok two_reports) [])
     = Ok [clone_world_result]
  /\ ~ In (get_default (rep_name leftover_clone) (str "Unknown"))
          (map SP.report [clone_world_result])
  /\ snd (SP.analyze_workspace_reports (str "WS")
            (Ok [(leftover_clone, unauthorized_world)]) []) = Ok [].
Proof.
  split; [right; left; reflexivity |].
  split; [vm_compute; reflexivity |].
  split; [| vm_compute; reflexivity].
  intros [H | []]. vm_compute in H. discriminate H.
Qed.

(** ** C8: the counts of a result *)

(** C8.  In every result either script produces, the custom visuals are no
    more than the visuals, and there are no visuals when the method is
    [Page Listing Only] or [Failed]. *)
Theorem C8_result_counts :
  (forall ws report w t0 t r,
      SP.analyze_report ws report w t0 = (t, Ok (Some r)) ->
      SP.custom_visuals r <= SP.total_visuals r
      /\ (SP.method r = str "Page Listing Only" \/ SP.method r = str "Failed" ->
          SP.total_visuals r = 0))
  /\ (forall wid ws cap report w t0 t r,
         Interactive.analyze_report wid ws cap report w t0 = (t, Ok r) ->
         Interactive.custom_visuals r <= Interactive.total_visuals r
         /\ (Interactive.method r = str "Page Listing Only"
             \/ Interactive.method r = str "Failed" ->
             Interactive.total_visuals r = 0)).
Proof.
  split.
  - intros ws report w t0 t r H.
    apply SP_result_shape in H as (_ & _ & _ & Hs).
    destruct Hs as [(content & _ & _ & _ & [(_ & Hm & Ht & Hc) | (_ & Hm & Ht & Hc)])
                   | (_ & _ & _ & Ht & Hc & _)].
    + rewrite Ht, Hc, Hm. split; [apply filter_length_le |].
      intros [E | E]; discriminate E.
    + rewrite Ht, Hc. split; [lia | reflexivity].
    + rewrite Ht, Hc. split; [lia | reflexivity].
  - intros wid ws cap report w t0 t r H.
    apply Interactive_result_shape in H as (_ & _ & _ & Hs).
    destruct Hs as [(content & _ & _ & _ & [(_ & Hm & Ht & Hc) | (_ & Hm & Ht & Hc)])
                   | (_ & _ & Ht & Hc & _)].
    + rewrite Ht, Hc, Hm. split; [apply filter_length_le |].
      intros [E | E]; discriminate E.
    + rewrite Ht, Hc. split; [lia | reflexivity].
    + rewrite Ht, Hc. split; [lia | reflexivity].
Qed.

(** C8 at a report that is cloned and parsed. *)
Lemma C8_result_counts_witness :
  SP.custom_visuals clone_world_result <= SP.total_visuals clone_world_result.
Proof.
  exact (proj1 (proj1 C8_result_counts (str "WS") report_r1 clone_world [] _ _
                  clone_world_full_run)).
Defined.

(** ** C9: incremental appends *)

(** C9.  Whatever the batches, appending them in turn to the created file
    gives the bytes, and the outcome, of one write of the header followed by
    all the rows in order; when no row fails to encode, these are the bytes
    of the header once and of every row once, in the order recorded. *)
Theorem C9_incremental_appends_equal_single_flush :
  (forall batches : list (list Interactive.ScanResult),
      Interactive.csv_after batches = Interactive.single_flush (List.concat batches))
  /\ (forall batches file,
         Interactive.csv_after batches = (file, Ok tt) ->
         encode_utf8 (csv_row Interactive.fieldnames
                      ++ flat_map (fun r => csv_row (Interactive.row_fields r))
                           (List.concat batches))
         = Ok file).
Proof.
  assert (E : forall batches,
             Interactive.csv_after batches = Interactive.single_flush (List.concat batches)).
  { intros batches. unfold Interactive.csv_after, Interactive.single_flush, se_bind.
    destruct (writerow Interactive.fieldnames []) as [csvfile [[] | e]]; [| reflexivity].
    rewrite <- for_each_concat. apply for_each_ext. apply append_csv_rows. }
  split; [exact E |].
  intros batches file H. rewrite E in H.
  unfold Interactive.single_flush in H.
  apply se_bind_ok_inv in H as (f1 & [] & H1 & H).
  unfold writerow in H1.
  destruct (encode_utf8 (csv_row Interactive.fieldnames)) as [bh |] eqn:Eh; [| discriminate].
  inversion H1; subst f1; clear H1.
  apply write_rows_text in H as (b & Eb & ->).
  now rewrite encode_utf8_app, Eh, Eb.
Qed.

(** C9 at three batches, the second of them empty. *)
Lemma C9_incremental_appends_equal_single_flush_witness :
  encode_utf8 (csv_row Interactive.fieldnames
               ++ flat_map (fun r => csv_row (Interactive.row_fields r))
                    (List.concat three_batches))
  = Ok (fst (Interactive.csv_after three_batches)).
Proof.
  exact (proj2 C9_incremental_appends_equal_single_flush three_batches _ three_batches_run).
Defined.

(** ** C10: visuals of unknown type *)

(** C10.  The service-principal classifier returns built-in for the empty
    string and for [Unknown].  A container whose config is a dict without
    [singleVisual.visualType] is recorded with type [Unknown] and not custom,
    and so is a visual of a scan result without [visualType].  In every
    extraction the visuals of type [Unknown] count as visuals and never as
    custom ones: custom and unknown together are no more than the total, in
    the list extracted and in the counts of the result. *)
Theorem C10_unknown_type_is_builtin :
  SP.is_custom_visual (PStr []) = Ok false
  /\ SP.is_custom_visual (PStr (str "Unknown")) = Ok false
  /\ (forall section_name container config_str config visuals,
         py_in (str "config") container = Ok true ->
         py_getitem container (str "config") = Ok config_str ->
         json_loads_obj config_str = Ok (PDict config) ->
         lacks_visual_type config = true ->
         visit_container SP.is_custom_visual section_name container visuals
         = (visuals ++ [mkVisual (get_default (dict_lookup (str "name") config)
                                    (PStr (str "Unnamed")))
                          (PStr (str "Unknown")) false section_name], Ok tt))
  /\ (forall page_name visual visuals,
         dict_lookup (str "visualType") visual = None ->
         SP.scan_visual page_name (PDict visual) visuals
         = (visuals ++ [mkVisual (get_default (dict_lookup (str "name") visual)
                                    (PStr (str "Unnamed")))
                          (PStr (str "Unknown")) false page_name], Ok tt))
  /\ (forall pbix_content,
         List.length (filter is_custom (SP.extract_visuals_from_pbix pbix_content))
         + List.length (filter is_unknown (SP.extract_visuals_from_pbix pbix_content))
         <= List.length (SP.extract_visuals_from_pbix pbix_content))
  /\ (forall ws report w t r content,
         SP_pbix_content w = Some content ->
         SP.analyze_report ws report w [] = (t, Ok (Some r)) ->
         SP.custom_visuals r
         + List.length (filter is_unknown (SP.extract_visuals_from_pbix content))
         <= SP.total_visuals r).
Proof.
  split; [reflexivity |]. split; [reflexivity |]. split; [| split; [| split]].
  - intros section_name container config_str config visuals Hin Hget Hload Hlack.
    unfold visit_container, se_bind, lift. rewrite Hin, Hget, Hload.
    unfold lacks_visual_type in Hlack. unfold py_get.
    destruct (dict_lookup (str "singleVisual") config) as [single |] eqn:Hs.
    + destruct single as [| | | | | | single]; try discriminate.
      destruct (dict_lookup (str "visualType") single) eqn:Hv; [discriminate |].
      reflexivity.
    + reflexivity.
  - intros page_name visual visuals Hv.
    unfold SP.scan_visual, se_bind, lift, py_get. rewrite Hv. reflexivity.
  - intros pbix_content. apply unknown_not_custom. apply extract_classified.
  - intros ws report w t r content Hp H.
    apply SP_result_shape in H as (_ & _ & _ & Hs). rewrite Hp in Hs.
    destruct Hs as [(c & Hc & _ & _ & [(_ & _ & Ht & Hcu) | (He & _ & Ht & Hcu)])
                   | (Hf & _ & _ & Ht & Hcu & _)].
    + inversion Hc; subst c. rewrite Ht, Hcu.
      apply unknown_not_custom. apply extract_classified.
    + inversion Hc; subst c. rewrite Ht, Hcu, He. simpl. lia.
    + assert (E : SP.extract_visuals_from_pbix content = []).
      { destruct content as [[| b raw] | z]; [reflexivity | discriminate | discriminate]. }
      rewrite Ht, Hcu, E. simpl. lia.
Qed.

(** C10 at a container whose config only names the visual. *)
Lemma C10_unknown_type_is_builtin_witness :
  visit_container SP.is_custom_visual (PStr (str "Page1")) bare_container []
  = ([mkVisual (PStr (str "v7")) (PStr (str "Unknown")) false (PStr (str "Page1"))], Ok tt).
Proof.
  exact (proj1 (proj2 (proj2 C10_unknown_type_is_builtin))
           (PStr (str "Page1")) bare_container (PStr (unquote "{'name':'v7'}"))
           [(str "name", PStr (str "v7"))] [] eq_refl eq_refl eq_refl eq_refl).
Defined.

(** * Further properties *)

(** ** More fixtures, run *)

Lemma three_layouts_distinct :
  NoDup (namelist (first_layout ++ (str "Report/Layout.old", Ok broken_layout) :: last_layout)).
Proof.
  repeat constructor; simpl; intuition discriminate.
Qed.

Lemma tmp_layout_is_new :
  ~ In (str "Report/Layout.tmp") (namelist (first_layout ++ last_layout)).
Proof. simpl. intuition discriminate. Qed.

Lemma one_workspace_run :
  SP.main one_workspace
  = (fst (fst (SP.main one_workspace)), snd (fst (SP.main one_workspace)),
     Ok (mkSummary 1 0 0 1)).
Proof. vm_compute. reflexivity. Qed.

Lemma closed_workspace_outcome :
  Interactive_workspace_outcome closed_workspace = Ok [closed_workspace_row].
Proof. vm_compute. reflexivity. Qed.

Lemma closed_workspace_file :
  Interactive.single_flush (flat_map Interactive_workspace_rows [closed_workspace])
  = (fst (Interactive.single_flush [closed_workspace_row]), Ok tt).
Proof. vm_compute. reflexivity. Qed.

Lemma one_row_file :
  SP.write_csv [clone_world_result] = (fst (SP.write_csv [clone_world_result]), Ok tt).
Proof. vm_compute. reflexivity. Qed.

(** ** Cutting and stripping strings *)

Lemma str_split_pieces (sep : N) (s : pystr) :
  exists init l,
    str_split sep s = init ++ [l]
    /\ ~ In sep l
    /\ s = flat_map (fun p => p ++ [sep]) init ++ l.
Proof.
  induction s as [| c s (init & l & E & Hl & Hs)]; simpl.
  - exists [], []. repeat split. intros [].
  - destruct (c =? sep)%N eqn:Hc.
    + apply N.eqb_eq in Hc. subst c.
      exists ([] :: init), l. rewrite E. repeat split; [assumption |].
      simpl. now rewrite <- Hs.
    + apply N.eqb_neq in Hc. rewrite E.
      destruct init as [| p init]; simpl.
      * exists [], (c :: l). repeat split.
        -- intros [H | H]; [congruence | contradiction].
        -- simpl in Hs. now rewrite Hs.
      * exists ((c :: p) :: init), l. repeat split; [assumption |].
        simpl. simpl in Hs. now rewrite Hs.
Qed.

Lemma str_split_no_sep (sep : N) (s : pystr) :
  Forall (fun p => ~ In sep p) (str_split sep s).
Proof.
  induction s as [| c s IH]; simpl.
  - constructor; [intros [] | constructor].
  - destruct (c =? sep)%N eqn:Hc.
    + constructor; [intros [] | exact IH].
    + apply N.eqb_neq in Hc.
      destruct (str_split sep s) as [| p ps]; [repeat constructor; intros [H | []]; congruence |].
      inversion IH; subst. constructor; [| assumption].
      intros [H | H]; [congruence | contradiction].
Qed.

Lemma str_split_chars (P : N -> Prop) (sep : N) (s : pystr) :
  Forall P s -> Forall (Forall P) (str_split sep s).
Proof.
  induction 1 as [| c s Hc _ IH]; simpl.
  - repeat constructor.
  - destruct (c =? sep)%N.
    + constructor; [constructor | exact IH].
    + destruct (str_split sep s) as [| p ps]; [repeat constructor; assumption |].
      inversion IH; subst. constructor; [now constructor | assumption].
Qed.

Lemma lstrip_parts (s : pystr) :
  exists blanks,
    s = blanks ++ lstrip s
    /\ Forall (fun c => is_space c = true) blanks
    /\ match lstrip s with
       | c :: _ => is_space c = false
       | [] => True
       end.
Proof.
  induction s as [| c s (blanks & E & Hb & Hh)]; simpl.
  - exists []. repeat split. constructor.
  - destruct (is_space c) eqn:Hc.
    + exists (c :: blanks). repeat split; [simpl; now rewrite <- E | now constructor | exact Hh].
    + exists []. repeat split; [constructor | exact Hc].
Qed.

Lemma lstrip_fixed (s : pystr) :
  match s with c :: _ => is_space c = false | [] => True end -> lstrip s = s.
Proof. destruct s as [| c s]; simpl; [reflexivity |]. now intros ->. Qed.

Lemma lstrip_blank (s : pystr) : Forall (fun c => is_space c = true) s -> lstrip s = [].
Proof. induction 1 as [| c s Hc _ IH]; simpl; [reflexivity |]. now rewrite Hc. Qed.

Lemma strip_blank (s : pystr) : Forall (fun c => is_space c = true) s -> strip s = [].
Proof. intros H. unfold strip. now rewrite (lstrip_blank _ H). Qed.

Lemma In_lstrip (c : N) (s : pystr) : In c (lstrip s) -> In c s.
Proof.
  destruct (lstrip_parts s) as (blanks & E & _). intros H. rewrite E.
  apply in_or_app. now right.
Qed.

Lemma In_strip (c : N) (s : pystr) : In c (strip s) -> In c s.
Proof.
  unfold strip. intros H. apply In_lstrip. apply in_rev. apply In_lstrip. now apply in_rev.
Qed.

(** What [strip] leaves starts and ends with a character that is no
    space. *)
Lemma strip_ends (s : pystr) :
  match strip s with c :: _ => is_space c = false | [] => True end
  /\ match rev (strip s) with c :: _ => is_space c = false | [] => True end.
Proof.
  unfold strip. rewrite rev_involutive.
  destruct (lstrip_parts s) as (b1 & E1 & _ & H1).
  destruct (lstrip_parts (rev (lstrip s))) as (b2 & E2 & Hb2 & H2).
  split; [| exact H2].
  set (t := lstrip (rev (lstrip s))) in *.
  destruct (rev t) as [| c r] eqn:Er; [exact I |].
  assert (Ea : lstrip s = rev t ++ rev b2).
  { rewrite <- rev_app_distr, <- E2. now rewrite rev_involutive. }
  rewrite Er in Ea. simpl in Ea. rewrite Ea in H1. exact H1.
Qed.

Lemma strip_fixed (s : pystr) : strip (strip s) = strip s.
Proof.
  destruct (strip_ends s) as [Hh Hl].
  unfold strip at 1. rewrite (lstrip_fixed _ Hh), (lstrip_fixed _ Hl).
  apply rev_involutive.
Qed.

Lemma bind_ok_inv {A B : Type} (r : result A) (k : A -> result B) (b : B) :
  bind r k = Ok b -> exists a, r = Ok a /\ k a = Ok b.
Proof. destruct r as [a | e]; simpl; [now exists a | discriminate]. Qed.

Lemma lift_inv {S A : Type} (x : result A) (s s' : S) (r : result A) :
  lift x s = (s', r) -> s' = s /\ r = x.
Proof. unfold lift. intros H. now inversion H. Qed.

Lemma emit_inv (c : call) (t t' : trace) (r : result unit) :
  emit c t = (t', r) -> t' = t ++ [c] /\ r = Ok tt.
Proof. unfold emit. intros H. now inversion H. Qed.

Lemma strip_nil_blank (s : pystr) : strip s = [] -> Forall (fun c => is_space c = true) s.
Proof.
  unfold strip. intros H.
  destruct (lstrip_parts s) as (b1 & E1 & Hb1 & H1).
  destruct (lstrip_parts (rev (lstrip s))) as (b2 & E2 & Hb2 & _).
  apply (f_equal (@rev N)) in H. rewrite rev_involutive in H. simpl in H.
  rewrite H, app_nil_r in E2.
  assert (Hl : Forall (fun c => is_space c = true) (lstrip s)).
  { rewrite <- (rev_involutive (lstrip s)), E2. now apply Forall_rev. }
  destruct (lstrip s) as [| c l]; [rewrite E1, app_nil_r; exact Hb1 |].
  inversion Hl; subst. congruence.
Qed.

Lemma filter_result_ok {A : Type} (test : A -> result bool) (xs kept : list A) :
  filter_result test xs = Ok kept ->
  kept = filter (fun x => match test x with Ok true => true | _ => false end) xs
  /\ Forall (fun x => test x = Ok true) kept.
Proof.
  revert kept. induction xs as [| x xs IH]; intros kept H; simpl in H.
  - inversion H; subst. split; [reflexivity | constructor].
  - apply bind_ok_inv in H as (keep & Hx & H).
    apply bind_ok_inv in H as (kept' & Hk & H).
    destruct (IH _ Hk) as [E F]. inversion H; subst kept; clear H.
    simpl. rewrite Hx. destruct keep.
    + split; [now rewrite <- E | now constructor].
    + split; assumption.
Qed.

Lemma filter_result_ext_in {A : Type} (f g : A -> result bool) (xs : list A) :
  (forall x, In x xs -> f x = g x) -> filter_result f xs = filter_result g xs.
Proof.
  induction xs as [| x xs IH]; intros H; simpl; [reflexivity |].
  rewrite (H x) by now left. rewrite IH; [reflexivity |].
  intros y Hy. apply H. now right.
Qed.

Lemma str_split_last (sep : N) (s : pystr) :
  ~ In sep (last (str_split sep s) [])
  /\ (s = last (str_split sep s) []
      \/ exists p, s = p ++ sep :: last (str_split sep s) []).
Proof.
  destruct (str_split_pieces sep s) as (init & l & E & Hl & Hs).
  rewrite E, last_last. split; [exact Hl |].
  destruct init as [| p init] using rev_ind; [now left |].
  right. rewrite flat_map_app in Hs. simpl in Hs. rewrite app_nil_r in Hs.
  exists (flat_map (fun p => p ++ [sep]) init ++ p).
  rewrite Hs. now rewrite <- !app_assoc.
Qed.

(** X1.  [scan_workspace] gives a scan identifier only for an answer of
    status 202 whose Location header is not empty: the identifier is what
    follows the last slash of the header (the whole header when it holds
    none) and holds no slash itself, and every such answer gives one.
    Without Location header, or with an empty one, the function returns
    [None]; an exception of the request is not caught. *)
Theorem scan_id_is_last_segment :
  (forall r id,
      SP.scan_workspace (Ok r) = Ok (Some id) ->
      SP.scan_status r = 202%Z
      /\ ~ In (ch "/") id
      /\ exists location,
           SP.scan_location r = Some location
           /\ location <> []
           /\ (location = id \/ exists p, location = p ++ ch "/" :: id))
  /\ (forall r location,
         SP.scan_status r = 202%Z ->
         SP.scan_location r = Some location ->
         location <> [] ->
         exists id, SP.scan_workspace (Ok r) = Ok (Some id))
  /\ (forall r,
         SP.scan_location r = None \/ SP.scan_location r = Some [] ->
         SP.scan_workspace (Ok r) = Ok None)
  /\ (forall e, SP.scan_workspace (Raise e) = Raise e).
Proof.
  split; [| split; [| split]].
  - intros r id H. unfold SP.scan_workspace in H. simpl in H.
    destruct (SP.scan_status r =? 202)%Z eqn:Hs; [| discriminate].
    apply Z.eqb_eq in Hs. split; [exact Hs |].
    destruct (SP.scan_location r) as [location |]; [| discriminate].
    simpl in H. unfold SP.scan_id_of_location in H.
    destruct location as [| c location]; [discriminate |].
    inversion H; subst id; clear H.
    destruct (str_split_last (ch "/") (c :: location)) as [Hn Hp].
    split; [exact Hn |]. exists (c :: location).
    split; [reflexivity |]. split; [discriminate | exact Hp].
  - intros r location Hs Hl Hne. unfold SP.scan_workspace. simpl.
    rewrite Hs, Hl. simpl. destruct location as [| c location]; [contradiction |].
    eexists. reflexivity.
  - intros r [H | H]; unfold SP.scan_workspace; simpl; rewrite H;
      now destruct (SP.scan_status r =? 202)%Z.
  - reflexivity.
Qed.

Lemma scan_id_is_last_segment_witness : ~ In (ch "/") (str "e7d03602").
Proof.
  exact (proj1 (proj2 (proj1 scan_id_is_last_segment
                         (SP.mkScanAnswer 202
                            (Some (str "https://api.powerbi.com/v1.0/myorg/admin/workspaces/scanStatus/e7d03602")))
                         (str "e7d03602") eq_refl))).
Defined.

(** X2.  The capacity filter [main] of the interactive script reads: it
    asks for no filter exactly when the line typed holds white space only;
    otherwise every identifier it keeps is not empty, holds no comma and has
    no white space at either end.  A line of commas and white space only
    filters nothing: [get_workspaces] answers as it does without filter. *)
Theorem capacity_input_is_cut_and_stripped :
  (forall line,
      Interactive.capacity_ids_of_input line = None
      <-> Forall (fun c => is_space c = true) line)
  /\ (forall line ids,
         Interactive.capacity_ids_of_input line = Some ids ->
         Forall (fun c => c <> [] /\ ~ In (ch ",") c /\ strip c = c) ids)
  /\ (forall line str_lower response exclude_personal,
         Forall (fun c => is_space c = true \/ c = ch ",") line ->
         Interactive.get_workspaces str_lower response exclude_personal
           (Interactive.capacity_ids_of_input line)
         = Interactive.get_workspaces str_lower response exclude_personal None).
Proof.
  split; [| split].
  - intros line. unfold Interactive.capacity_ids_of_input. split.
    + destruct (strip line) eqn:E; [| discriminate]. intros _. now apply strip_nil_blank.
    + intros H. now rewrite (strip_blank _ H).
  - intros line ids. unfold Interactive.capacity_ids_of_input.
    generalize (str_split_no_sep (ch ",") (strip line)).
    generalize (str_split (ch ",") (strip line)). intros pieces Hsep.
    destruct (strip line) as [| c0 rest]; [discriminate |].
    intros H. inversion H; subst ids; clear H.
    induction Hsep as [| p ps Hp _ IH]; simpl; [constructor |].
    destruct (strip p) as [| c q] eqn:Ep; [exact IH |].
    simpl. constructor; [| exact IH].
    rewrite Ep. split; [discriminate |]. split.
    + intros Hin. apply Hp. apply In_strip. now rewrite Ep.
    + rewrite <- Ep. apply strip_fixed.
  - intros line str_lower response exclude_personal Hline.
    assert (E : Interactive.capacity_ids_of_input line = None
                \/ Interactive.capacity_ids_of_input line = Some []).
    { unfold Interactive.capacity_ids_of_input.
      assert (Hs : Forall (fun c => is_space c = true \/ c = ch ",") (strip line)).
      { apply Forall_forall. intros c Hc. apply In_strip in Hc.
        revert c Hc. now apply Forall_forall. }
      generalize (str_split_no_sep (ch ",") (strip line)).
      generalize (str_split_chars _ (ch ",") _ Hs).
      generalize (str_split (ch ",") (strip line)). intros pieces Hch Hsep.
      destruct (strip line) as [| c0 rest]; [now left | right].
      f_equal.
      induction Hsep as [| p ps Hp _ IH]; simpl; [reflexivity |].
      inversion Hch as [| ? ? Hpc Hpsc]; subst.
      rewrite strip_blank; [now apply IH |].
      apply Forall_forall. intros c Hc.
      destruct (proj1 (Forall_forall _ _) Hpc c Hc) as [Hb | Hb]; [exact Hb |].
      subst c. contradiction. }
    destruct E as [-> | ->]; reflexivity.
Qed.

Lemma capacity_input_is_cut_and_stripped_witness :
  Forall (fun c => c <> [] /\ ~ In (ch ",") c /\ strip c = c) [str "a1B2"; str "c3"].
Proof.
  exact (proj1 (proj2 capacity_input_is_cut_and_stripped) (str " a1B2 , ,c3 ") _ eq_refl).
Defined.

Lemma str_mem_same (x : pystr) (xs ys : list pystr) :
  (forall c, In c xs <-> In c ys) -> str_mem x xs = str_mem x ys.
Proof.
  intros H. destruct (str_mem x ys) eqn:E.
  - apply str_mem_In. apply H. now apply str_mem_In.
  - destruct (str_mem x xs) eqn:E'; [| reflexivity].
    apply str_mem_In, H, str_mem_In in E'. congruence.
Qed.

(** X3.  What [get_workspaces] of the interactive script returns when
    personal workspaces are excluded is a list; none of its elements has the
    type [PersonalGroup], and under a filter that is not empty the capacity of
    each, in lower case, is one of the filter's in lower case.  With a filter
    it returns the workspaces it returns without one, filtered, in their
    order.  Two filters with the same identifiers in lower case give the same
    answer. *)
Theorem get_workspaces_filters (str_lower : pystr -> pystr) (response : result Response) :
  (forall ids out,
      Interactive.get_workspaces str_lower response true ids = Ok out ->
      exists kept,
        out = PList kept
        /\ Forall (fun ws => Interactive.not_personal ws = Ok true) kept
        /\ (forall c cs, ids = Some (c :: cs) ->
              Forall (fun ws => Interactive.on_capacity str_lower (map str_lower (c :: cs)) ws
                                = Ok true) kept))
  /\ (forall ids out listed,
         Interactive.get_workspaces str_lower response true (Some ids) = Ok out ->
         Interactive.get_workspaces str_lower response true None = Ok (PList listed) ->
         ids = [] /\ out = PList listed
         \/ ids <> [] /\ out = PList (filter (on_capacity_bool str_lower ids) listed))
  /\ (forall ids1 ids2 exclude_personal,
         (forall c, In c (map str_lower ids1) <-> In c (map str_lower ids2)) ->
         Interactive.get_workspaces str_lower response exclude_personal (Some ids1)
         = Interactive.get_workspaces str_lower response exclude_personal (Some ids2)).
Proof.
  split; [| split].
  - intros ids out H. unfold Interactive.get_workspaces in H.
    apply bind_ok_inv in H as (r & _ & H).
    apply bind_ok_inv in H as ([] & _ & H).
    apply bind_ok_inv in H as (body & _ & H).
    apply bind_ok_inv in H as (value & _ & H).
    apply bind_ok_inv in H as (workspaces & Hp & H).
    apply bind_ok_inv in Hp as (items & _ & Hp).
    apply bind_ok_inv in Hp as (kept & Hk & Hp).
    inversion Hp; subst workspaces; clear Hp.
    apply filter_result_ok in Hk as [_ Hk].
    destruct ids as [[| c cs] |].
    + inversion H; subst. exists kept. repeat split; [assumption | discriminate].
    + apply bind_ok_inv in H as (items2 & Hi & H). inversion Hi; subst items2; clear Hi.
      apply bind_ok_inv in H as (kept2 & Hk2 & H). inversion H; subst out; clear H.
      apply filter_result_ok in Hk2 as [E2 Hk2].
      exists kept2. repeat split.
      * rewrite E2. apply Forall_forall. intros ws Hws. apply filter_In in Hws as [Hws _].
        revert ws Hws. now apply Forall_forall.
      * intros c' cs' E. inversion E; subst. exact Hk2.
    + inversion H; subst. exists kept. repeat split; [assumption | discriminate].
  - intros ids out listed H H0. unfold Interactive.get_workspaces in H, H0.
    destruct (let* r := response in
              let* _ := raise_for_status r in
              let* body := json r in
              let* workspaces := py_get body (str "value") (PList []) in
              let* items := py_iter workspaces in
              let* kept := filter_result Interactive.not_personal items in
              Ok (PList kept)) as [ws |] eqn:E.
    2: { exfalso. revert E H0. unfold bind.
         repeat match goal with
                | |- context [match ?x with Ok _ => _ | Raise _ => _ end] =>
                    destruct x; try discriminate
                end. }
    assert (K : forall (k : pyobj -> result pyobj) o,
               (let* r := response in
                let* _ := raise_for_status r in
                let* body := json r in
                let* workspaces := py_get body (str "value") (PList []) in
                let* workspaces := (let* items := py_iter workspaces in
                                    let* kept := filter_result Interactive.not_personal items in
                                    Ok (PList kept)) in
                k workspaces) = Ok o -> k ws = Ok o).
    { intros k o. revert E. unfold bind.
      repeat match goal with
             | |- context [match ?x with Ok _ => _ | Raise _ => _ end] =>
                 destruct x; try discriminate
             end.
      intros E. inversion E; subst. auto. }
    apply (K (fun w => Ok w)) in H0. inversion H0; subst ws; clear H0.
    apply K in H. clear K E.
    destruct ids as [| c cs].
    + left. inversion H; subst. now split.
    + right. split; [discriminate |].
      apply bind_ok_inv in H as (items2 & Hi & H). inversion Hi; subst items2; clear Hi.
      apply bind_ok_inv in H as (kept2 & Hk2 & H). inversion H; subst out; clear H.
      apply filter_result_ok in Hk2 as [E2 _]. now rewrite E2.
  - intros ids1 ids2 exclude_personal Hsame. unfold Interactive.get_workspaces.
    assert (Hf : forall ws, Interactive.on_capacity str_lower (map str_lower ids1) ws
                            = Interactive.on_capacity str_lower (map str_lower ids2) ws).
    { intros ws. unfold Interactive.on_capacity.
      destruct (py_get ws (str "capacityId") (PStr [])) as [[| | | | s | |] |]; simpl;
        try reflexivity.
      now rewrite (str_mem_same _ _ _ Hsame). }
    destruct response as [r |]; [| reflexivity]. cbn [bind].
    destruct (raise_for_status r); [| reflexivity]. cbn [bind].
    destruct (json r) as [body |]; [| reflexivity]. cbn [bind].
    destruct (py_get body (str "value") (PList [])) as [value |]; [| reflexivity]. cbn [bind].
    destruct (if exclude_personal then _ else _) as [ws |]; [| reflexivity]. cbn [bind].
    destruct ids1 as [| c1 cs1], ids2 as [| c2 cs2]; try reflexivity.
    + exfalso. apply (proj2 (Hsame (str_lower c2))). now left.
    + exfalso. apply (proj1 (Hsame (str_lower c1))). now left.
    + destruct (py_iter ws) as [items |]; [| reflexivity]. cbn [bind].
      now rewrite (filter_result_ext_in _ _ items (fun x _ => Hf x)).
Qed.

Lemma get_workspaces_filters_witness :
  exists kept,
    PList [sales_workspace] = PList kept
    /\ Forall (fun ws => Interactive.not_personal ws = Ok true) kept
    /\ (forall c cs, Some [str "abcd-12"] = Some (c :: cs) ->
          Forall (fun ws => Interactive.on_capacity lower (map lower (c :: cs)) ws = Ok true)
            kept).
Proof.
  exact (proj1 (get_workspaces_filters lower listing_response)
           (Some [str "abcd-12"]) (PList [sales_workspace]) eq_refl).
Defined.

(** ** The classifiers *)

Lemma startswith_app (s p q : pystr) : startswith s (p ++ q) = true -> startswith s p = true.
Proof.
  revert s. induction p as [| c p IH]; intros s H; [now destruct s |].
  destruct s as [| d s]; [discriminate |]. simpl in *.
  apply andb_prop in H as [H1 H2]. rewrite H1. simpl. now apply IH.
Qed.

Lemma existsb_eq_str_In (s : pystr) (xs : list pystr) :
  existsb (eq_str (PStr s)) xs = true -> In s xs.
Proof.
  intros H. apply existsb_exists in H as (x & Hx & E).
  simpl in E. apply str_eqb_eq in E. now subst.
Qed.

Lemma startswith_parts (s p : pystr) : startswith s p = true -> exists r, s = p ++ r.
Proof.
  revert s. induction p as [| c p IH]; intros s H; [now exists s |].
  destruct s as [| d s]; [discriminate |]. simpl in H.
  apply andb_prop in H as [H1 H2]. apply N.eqb_eq in H1. subst d.
  destruct (IH _ H2) as [r ->]. now exists r.
Qed.

Lemma startswith_prefix (p r : pystr) : startswith (p ++ r) p = true.
Proof. induction p as [| c p IH]; simpl; [now destruct r |]. now rewrite N.eqb_refl. Qed.

Lemma str_contains_char (c : N) (s : pystr) : str_contains [c] s = true -> In c s.
Proof.
  induction s as [| d s IH]; simpl; [discriminate |].
  destruct (c =? d)%N eqn:E; simpl.
  - apply N.eqb_eq in E. now left.
  - intros H. right. now apply IH.
Qed.

Lemma lower_app (a b : pystr) : lower (a ++ b) = lower a ++ lower b.
Proof. apply flat_map_app. Qed.

Lemma lower_no_capital (s : pystr) : forallb (fun c => negb (in_range 65 90 c)) (lower s) = true.
Proof.
  induction s as [| c s IH]; [reflexivity |].
  change (lower (c :: s)) with (lower_char c ++ lower s).
  rewrite forallb_app, IH, andb_true_r. unfold lower_char.
  destruct (in_range 65 90 c) eqn:E.
  - simpl. rewrite andb_true_r. unfold in_range in *.
    apply andb_prop in E as [E1 E2]. apply N.leb_le in E1, E2.
    apply negb_true_iff. apply andb_false_iff. right. apply N.leb_gt. lia.
  - destruct (c =? 8490)%N; [reflexivity |].
    destruct (c =? 304)%N; [reflexivity |]. simpl. now rewrite E.
Qed.

Lemma lower_length (s : pystr) : List.length s <= List.length (lower s).
Proof.
  induction s as [| c s IH]; [simpl; lia |].
  change (lower (c :: s)) with (lower_char c ++ lower s).
  rewrite length_app. unfold lower_char.
  destruct (in_range 65 90 c); [simpl; lia |].
  destruct (c =? 8490)%N; [simpl; lia |].
  destruct (c =? 304)%N; simpl; lia.
Qed.

Lemma lower_keeps_dot (s : pystr) : In (ch ".") s -> In (ch ".") (lower s).
Proof.
  induction s as [| c s IH]; [intros [] |].
  change (lower (c :: s)) with (lower_char c ++ lower s).
  intros [H | H]; apply in_or_app; [left | right; now apply IH].
  subst c. now left.
Qed.

(** An identifier whose lower case is a name of the interactive set is not
    custom for the service-principal classifier. *)
Lemma lower_builtin_not_sp_custom (s : pystr) :
  In (lower s) Interactive.builtin_visuals -> SP.is_custom_visual (PStr s) <> Ok true.
Proof.
  intros Hin.
  assert (Hcap := lower_no_capital s).
  assert (Hlen := lower_length s).
  assert (Hdot : str_contains (str ".") s = true ->
                 existsb (N.eqb (ch ".")) (lower s) = true).
  { intros H. apply existsb_exists. exists (ch "."). split; [| apply N.eqb_refl].
    apply lower_keeps_dot. now apply str_contains_char. }
  assert (Hpre : forall p, startswith s p = true -> startswith (lower s) (lower p) = true).
  { intros p H. apply startswith_parts in H as [r ->]. rewrite lower_app.
    apply startswith_prefix. }
  pose proof (Hpre (str "PBI_CV")) as H1.
  pose proof (Hpre (str "custom")) as H2.
  pose proof (Hpre (str "Custom")) as H3.
  clear Hpre. unfold SP.is_custom_visual.
  destruct (negb (truthy (PStr s)) || eq_str (PStr s) (str "Unknown")); [discriminate |].
  cbn [set_contains bind].
  destruct (existsb (eq_str (PStr s)) SP.builtin_visuals); [discriminate |].
  cbn [py_in bind].
  destruct (str_contains (str ".") s).
  { exfalso. specialize (Hdot eq_refl). revert Hdot.
    unfold Interactive.builtin_visuals in Hin. cbn [map In] in Hin.
    repeat (destruct Hin as [Hin | Hin]; [rewrite <- Hin; vm_compute; discriminate |]).
    contradiction. }
  cbn [py_len bind].
  destruct (25 <? List.length s)%nat eqn:Hn.
  { exfalso. apply Nat.ltb_lt in Hn.
    unfold Interactive.builtin_visuals in Hin. cbn [map In] in Hin.
    repeat (destruct Hin as [Hin | Hin];
            [rewrite <- Hin in Hlen, Hcap;
             first [vm_compute in Hcap; discriminate Hcap | cbn in Hlen; lia] |]).
    contradiction. }
  unfold SP.custom_prefixes. cbn [map any_startswith py_startswith bind].
  destruct (startswith s (str "PBI_CV")).
  { exfalso. specialize (H1 eq_refl). revert H1.
    unfold Interactive.builtin_visuals in Hin. cbn [map In] in Hin.
    repeat (destruct Hin as [Hin | Hin]; [rewrite <- Hin; vm_compute; discriminate |]).
    contradiction. }
  destruct (startswith s (str "custom")).
  { exfalso. specialize (H2 eq_refl). revert H2.
    unfold Interactive.builtin_visuals in Hin. cbn [map In] in Hin.
    repeat (destruct Hin as [Hin | Hin]; [rewrite <- Hin; vm_compute; discriminate |]).
    contradiction. }
  destruct (startswith s (str "Custom")); [| discriminate].
  exfalso. specialize (H3 eq_refl). revert H3.
  unfold Interactive.builtin_visuals in Hin. cbn [map In] in Hin.
  repeat (destruct Hin as [Hin | Hin]; [rewrite <- Hin; vm_compute; discriminate |]).
  contradiction.
Qed.

(** X4.  Where the two classifiers part on a string.  The interactive one
    says custom and the service-principal one built-in only for the five
    built-in names of more than 25 characters.  The service-principal one
    says custom and the interactive one does not only for a name of at most
    25 characters, without dot, that starts with [PBI_CV], [custom] or
    [Custom] and not with [PBI_CV_]. *)
Theorem classifiers_disagree_only_on (s : pystr) :
  (Interactive.is_custom_visual (PStr s) = Ok true ->
   SP.is_custom_visual (PStr s) = Ok false ->
   In s long_builtins)
  /\ (SP.is_custom_visual (PStr s) = Ok true ->
      Interactive.is_custom_visual (PStr s) = Ok false ->
      List.length s <= 25
      /\ str_contains (str ".") s = false
      /\ startswith s (str "PBI_CV_") = false
      /\ (startswith s (str "PBI_CV") = true
          \/ startswith s (str "custom") = true
          \/ startswith s (str "Custom") = true)).
Proof.
  split.
  - unfold Interactive.is_custom_visual, SP.is_custom_visual.
    destruct (str_mem (lower s) Interactive.builtin_visuals) eqn:Hl; [discriminate |].
    destruct (str_contains (str ".") s || (25 <? List.length s)%nat
              || startswith s (str "PBI_CV_")) eqn:Hc; [| discriminate].
    intros _.
    destruct (negb (truthy (PStr s)) || eq_str (PStr s) (str "Unknown")) eqn:Hu.
    { intros _. exfalso. apply orb_prop in Hu as [Hu | Hu].
      - destruct s; [discriminate Hc | discriminate Hu].
      - simpl in Hu. apply str_eqb_eq in Hu. subst s. discriminate Hc. }
    cbn [set_contains bind].
    destruct (existsb (eq_str (PStr s)) SP.builtin_visuals) eqn:Hb.
    { intros _. apply existsb_eq_str_In in Hb.
      unfold SP.builtin_visuals in Hb. cbn [map In] in Hb.
      repeat (destruct Hb as [Hb | Hb];
              [subst s; first [discriminate Hc | discriminate Hl
                              | vm_compute; tauto] |]).
      contradiction. }
    cbn [py_in bind].
    destruct (str_contains (str ".") s); [discriminate |].
    cbn [py_len bind].
    destruct (25 <? List.length s)%nat; [discriminate |].
    simpl in Hc. apply (startswith_app s (str "PBI_CV") (str "_")) in Hc.
    unfold SP.custom_prefixes. cbn [map any_startswith py_startswith bind].
    rewrite Hc. discriminate.
  - intros Hsp. unfold Interactive.is_custom_visual.
    destruct (str_mem (lower s) Interactive.builtin_visuals) eqn:Hl.
    { apply str_mem_In in Hl. now apply lower_builtin_not_sp_custom in Hl. }
    revert Hsp. unfold SP.is_custom_visual.
    destruct (negb (truthy (PStr s)) || eq_str (PStr s) (str "Unknown")); [discriminate |].
    cbn [set_contains bind].
    destruct (existsb (eq_str (PStr s)) SP.builtin_visuals); [discriminate |].
    cbn [py_in bind].
    destruct (str_contains (str ".") s); [discriminate |].
    cbn [py_len bind].
    destruct (25 <? List.length s)%nat eqn:Hn; [discriminate |].
    apply Nat.ltb_ge in Hn.
    unfold SP.custom_prefixes. cbn [map any_startswith py_startswith bind orb].
    destruct (startswith s (str "PBI_CV_")); [discriminate |].
    intros H _. repeat split; try assumption.
    destruct (startswith s (str "PBI_CV")); [now left |].
    destruct (startswith s (str "custom")); [now right; left |].
    destruct (startswith s (str "Custom")); [now right; right | discriminate].
Qed.

Lemma classifiers_disagree_only_on_witness :
  In (str "hundredPercentStackedAreaChart") long_builtins.
Proof.
  exact (proj1 (classifiers_disagree_only_on (str "hundredPercentStackedAreaChart"))
           eq_refl eq_refl).
Defined.

(** X5.  On a string both classifiers answer.  On a value that is no
    string the service-principal classifier answers [False] when the value is
    falsy and raises [TypeError] when it is not; the interactive classifier
    raises [AttributeError]. *)
Theorem classifiers_on_other_values :
  (forall s, exists b, SP.is_custom_visual (PStr s) = Ok b)
  /\ (forall x, truthy x = false -> SP.is_custom_visual x = Ok false)
  /\ (forall x, truthy x = true -> is_str x = false ->
                SP.is_custom_visual x = Raise TypeError)
  /\ (forall s, exists b, Interactive.is_custom_visual (PStr s) = Ok b)
  /\ (forall x, is_str x = false -> Interactive.is_custom_visual x = Raise AttributeError).
Proof.
  split; [| split; [| split; [| split]]].
  - intros s. unfold SP.is_custom_visual.
    destruct (negb (truthy (PStr s)) || eq_str (PStr s) (str "Unknown")); [now exists false |].
    cbn [set_contains bind].
    destruct (existsb (eq_str (PStr s)) SP.builtin_visuals); [now exists false |].
    cbn [py_in bind]. destruct (str_contains (str ".") s); [now exists true |].
    cbn [py_len bind]. destruct (25 <? List.length s)%nat; [now exists true |].
    unfold SP.custom_prefixes. cbn [map any_startswith py_startswith bind].
    destruct (startswith s (str "PBI_CV")); [now exists true |].
    destruct (startswith s (str "custom")); [now exists true |].
    destruct (startswith s (str "Custom")); [now exists true | now exists false].
  - intros x H. unfold SP.is_custom_visual. now rewrite H.
  - intros x H Hs. unfold SP.is_custom_visual. rewrite H.
    destruct x as [| b | z | f | s | l | d]; try discriminate; reflexivity.
  - intros s. unfold Interactive.is_custom_visual.
    destruct (str_mem (lower s) Interactive.builtin_visuals); [now exists false |].
    destruct (_ || _); [now exists true | now exists false].
  - intros x H. now destruct x.
Qed.

Lemma classifiers_on_other_values_witness :
  SP.is_custom_visual PNone = Ok false
  /\ SP.is_custom_visual (PInt 7) = Raise TypeError
  /\ Interactive.is_custom_visual PNone = Raise AttributeError.
Proof.
  split; [exact (proj1 (proj2 classifiers_on_other_values) PNone eq_refl) |].
  split; [exact (proj1 (proj2 (proj2 classifiers_on_other_values)) (PInt 7) eq_refl eq_refl) |].
  exact (proj2 (proj2 (proj2 (proj2 classifiers_on_other_values))) PNone eq_refl).
Defined.

(** ** Members of an archive *)

Lemma for_each_filter {S A : Type} (p : A -> bool) (xs : list A) (body : A -> SE S unit) :
  (forall x s, p x = false -> body x s = (s, Ok tt)) ->
  forall s, for_each (filter p xs) body s = for_each xs body s.
Proof.
  intros Hp. induction xs as [| x xs IH]; intros s; simpl; [reflexivity |].
  destruct (p x) eqn:E; simpl.
  - unfold se_bind. destruct (body x s) as [s1 [[] | e]]; [apply IH | reflexivity].
  - unfold se_bind. rewrite (Hp x s E). apply IH.
Qed.

Lemma for_each_ext_in {S A : Type} (xs : list A) (f g : A -> SE S unit) :
  (forall x s, In x xs -> f x s = g x s) -> forall s, for_each xs f s = for_each xs g s.
Proof.
  induction xs as [| x xs IH]; intros E s; simpl; [reflexivity |].
  unfold se_bind. rewrite (E x s) by now left.
  destruct (g x s) as [s1 [[] | e]]; [| reflexivity].
  apply IH. intros y s' Hy. apply E. now right.
Qed.

Lemma dict_lookup_filter {V : Type} (k : pystr) (f : pystr * V -> bool) (l : list (pystr * V)) :
  (forall m, fst m = k -> f m = true) ->
  dict_lookup k (filter f l) = dict_lookup k l.
Proof.
  intros Hf. induction l as [| [k' v] l IH]; simpl; [reflexivity |].
  destruct (str_eqb k k') eqn:E.
  - apply str_eqb_eq in E. subst k'. rewrite (Hf (k, v) eq_refl). simpl.
    now rewrite str_eqb_refl.
  - destruct (f (k', v)); simpl; [now rewrite E | exact IH].
Qed.

Lemma dict_lookup_app {V : Type} (k : pystr) (l1 l2 : list (pystr * V)) :
  dict_lookup k (l1 ++ l2)
  = match dict_lookup k l1 with
    | Some v => Some v
    | None => dict_lookup k l2
    end.
Proof.
  induction l1 as [| [k' v] l1 IH]; simpl; [reflexivity |].
  now destruct (str_eqb k k').
Qed.

Lemma dict_lookup_absent {V : Type} (k : pystr) (l : list (pystr * V)) :
  ~ In k (map fst l) -> dict_lookup k l = None.
Proof.
  induction l as [| [k' v] l IH]; simpl; [reflexivity |]. intros H.
  destruct (str_eqb k k') eqn:E.
  - apply str_eqb_eq in E. exfalso. apply H. now left.
  - apply IH. intros Hin. apply H. now right.
Qed.

Lemma zip_read_filter (z : ZipFile) (n : pystr) :
  is_layout_member n = true ->
  zip_read (filter (fun m => is_layout_member (fst m)) z) n = zip_read z n.
Proof.
  intros Hn. unfold zip_read. rewrite <- filter_rev. rewrite dict_lookup_filter; [reflexivity |].
  intros m <-. exact Hn.
Qed.

(** A member is read as if a member of another name were not there. *)
Lemma zip_read_without (before after : ZipFile) (m : pystr * result bytes) (n : pystr) :
  n <> fst m ->
  zip_read (before ++ m :: after) n = zip_read (before ++ after) n.
Proof.
  intros Hn. unfold zip_read. rewrite !rev_app_distr. simpl. rewrite <- app_assoc.
  rewrite !dict_lookup_app. destruct (dict_lookup n (rev after)); [reflexivity |].
  destruct m as [k r]. simpl in *.
  destruct (str_eqb n k) eqn:E; [| reflexivity].
  apply str_eqb_eq in E. contradiction.
Qed.

Lemma zip_read_before (z1 z2 : ZipFile) (n : pystr) :
  ~ In n (namelist z2) -> zip_read (z1 ++ z2) n = zip_read z1 n.
Proof.
  intros Hn. unfold zip_read. rewrite rev_app_distr, dict_lookup_app.
  rewrite dict_lookup_absent; [reflexivity |].
  rewrite map_rev. intros H. apply in_rev in H. exact (Hn H).
Qed.

Lemma zip_read_here (before after : ZipFile) (n : pystr) (r : result bytes) :
  ~ In n (namelist after) -> zip_read (before ++ (n, r) :: after) n = r.
Proof.
  intros Hn. unfold zip_read. rewrite rev_app_distr. simpl. rewrite <- app_assoc.
  rewrite dict_lookup_app, dict_lookup_absent.
  - simpl. now rewrite str_eqb_refl.
  - rewrite map_rev. intros H. apply in_rev in H. exact (Hn H).
Qed.

Lemma visit_member_reads is_custom_visual (z1 z2 : ZipFile) (n : pystr) :
  zip_read z1 n = zip_read z2 n ->
  visit_member is_custom_visual z1 n = visit_member is_custom_visual z2 n.
Proof.
  intros E. unfold visit_member. destruct (is_layout_member n); [| reflexivity].
  now apply try_layout_reads.
Qed.

Lemma extract_zip is_custom_visual (z : ZipFile) :
  extract_visuals_from_pbix_with is_custom_visual (Zip z)
  = fst (for_each (namelist z) (visit_member is_custom_visual z) []).
Proof. reflexivity. Qed.

Lemma json_loads_raises (s : pystr) (e : exn) : json_loads s = Raise e -> e = JSONDecodeError.
Proof.
  unfold json_loads, json_loads_fuel.
  destruct (startswith s [65279%N]); [intros H; now inversion H |].
  destruct (scan_once _ _) as [[v r] |]; [| intros H; now inversion H].
  destruct (skip_ws r); intros H; now inversion H.
Qed.

Lemma extract_only_layout_members is_custom_visual (z : ZipFile) :
  extract_visuals_from_pbix_with is_custom_visual (Zip z)
  = extract_visuals_from_pbix_with is_custom_visual
      (Zip (filter (fun m => is_layout_member (fst m)) z)).
Proof.
  rewrite !extract_zip. f_equal. unfold namelist.
  rewrite <- (for_each_filter is_layout_member).
  - rewrite filter_map_swap.
    apply for_each_ext_in. intros n s Hn.
    apply in_map_iff in Hn as (m & <- & Hm). apply filter_In in Hm as [_ Hm].
    rewrite (visit_member_reads is_custom_visual z
               (filter (fun m => is_layout_member (fst m)) z)); [reflexivity |].
    symmetry. now apply zip_read_filter.
  - intros n s Hn. unfold visit_member. now rewrite Hn.
Qed.

(** X6.  [extract_visuals_from_pbix] of either script returns for an
    archive what it returns for the archive without the members whose name is
    not that of a layout: those members are not read, whether reading them
    would fail or not. *)
Theorem only_layout_members_are_read (z : ZipFile) :
  SP.extract_visuals_from_pbix (Zip z)
  = SP.extract_visuals_from_pbix (Zip (filter (fun m => is_layout_member (fst m)) z))
  /\ Interactive.extract_visuals_from_pbix (Zip z)
     = Interactive.extract_visuals_from_pbix
         (Zip (filter (fun m => is_layout_member (fst m)) z)).
Proof. split; apply extract_only_layout_members. Qed.

Lemma extract_stops_at_bad_layout is_custom_visual (before after : ZipFile) (n : pystr)
  (raw : bytes) (text : pystr) (e : exn) :
  NoDup (namelist (before ++ (n, Ok raw) :: after)) ->
  is_layout_member n = true ->
  decode_utf16le raw = Ok text ->
  json_loads text = Raise e ->
  extract_visuals_from_pbix_with is_custom_visual (Zip (before ++ (n, Ok raw) :: after))
  = extract_visuals_from_pbix_with is_custom_visual (Zip before).
Proof.
  intros Hnd Hn Hd Hj. rewrite !extract_zip.
  unfold namelist in *. rewrite map_app in *. simpl map in *.
  rewrite for_each_app. unfold se_bind at 1.
  rewrite (for_each_ext_in (map fst before)
             (visit_member is_custom_visual (before ++ (n, Ok raw) :: after))
             (visit_member is_custom_visual before)).
  - destruct (for_each (map fst before) (visit_member is_custom_visual before) [])
      as [v1 [[] | e1]]; [| reflexivity].
    simpl for_each. unfold se_bind at 1. unfold visit_member at 1. rewrite Hn.
    unfold try_layout, read_layout, se_bind, lift.
    rewrite zip_read_here.
    + rewrite Hd, Hj. apply json_loads_raises in Hj. subst e. reflexivity.
    + apply NoDup_remove_2 in Hnd. intros H. apply Hnd. apply in_or_app. now right.
  - intros n' s Hn'.
    rewrite (visit_member_reads is_custom_visual (before ++ (n, Ok raw) :: after) before);
      [reflexivity |].
    apply (zip_read_before before ((n, Ok raw) :: after)).
    intros H. change (In n' (map fst ((n, Ok raw) :: after))) in H.
    simpl in H.
    assert (Hd' : forall a, In a (map fst before) -> ~ In a (n :: map fst after)).
    { clear - Hnd. induction (map fst before) as [| b l IH]; [intros a [] |].
      simpl in Hnd. inversion Hnd as [| ? ? Hb Hl]; subst.
      intros a [-> | Ha]; [| now apply IH].
      intros H. apply Hb. apply in_or_app. now right. }
    exact (Hd' n' Hn' H).
Qed.

(** X7.  A layout member that decodes as UTF-16 and whose text is no JSON
    ends the extraction, in either script: the result is that of the members
    before it, and the members after it are not looked at.  The names of the
    members are distinct. *)
Theorem bad_layout_ends_the_extraction (before after : ZipFile) (n : pystr)
  (raw : bytes) (text : pystr) (e : exn) :
  NoDup (namelist (before ++ (n, Ok raw) :: after)) ->
  is_layout_member n = true ->
  decode_utf16le raw = Ok text ->
  json_loads text = Raise e ->
  SP.extract_visuals_from_pbix (Zip (before ++ (n, Ok raw) :: after))
  = SP.extract_visuals_from_pbix (Zip before)
  /\ Interactive.extract_visuals_from_pbix (Zip (before ++ (n, Ok raw) :: after))
     = Interactive.extract_visuals_from_pbix (Zip before).
Proof. intros. split; eapply extract_stops_at_bad_layout; eassumption. Qed.

Lemma bad_layout_ends_the_extraction_witness :
  SP.extract_visuals_from_pbix
    (Zip (first_layout ++ (str "Report/Layout.old", Ok broken_layout) :: last_layout))
  = SP.extract_visuals_from_pbix (Zip first_layout).
Proof.
  exact (proj1 (bad_layout_ends_the_extraction first_layout last_layout
                  (str "Report/Layout.old") broken_layout (str "{sections") JSONDecodeError
                  three_layouts_distinct eq_refl eq_refl eq_refl)).
Defined.

Lemma decode_utf16le_raises (b : bytes) (e : exn) :
  decode_utf16le b = Raise e -> e = UnicodeDecodeError.
Proof.
  unfold decode_utf16le. destruct (utf16le_units b) as [us |]; [| intros H; now inversion H].
  destruct (utf16_join us); intros H; now inversion H.
Qed.

Lemma extract_skips_undecoded is_custom_visual (before after : ZipFile) (n : pystr)
  (raw : bytes) (e : exn) :
  ~ In n (namelist (before ++ after)) ->
  is_layout_member n = true ->
  decode_utf16le raw = Raise e ->
  (exists e8, decode_utf8 raw = Raise e8)
  \/ (exists text e8, decode_utf8 raw = Ok text /\ json_loads text = Raise e8) ->
  extract_visuals_from_pbix_with is_custom_visual (Zip (before ++ (n, Ok raw) :: after))
  = extract_visuals_from_pbix_with is_custom_visual (Zip (before ++ after)).
Proof.
  intros Hnew Hn Hd H8. rewrite !extract_zip.
  assert (Hread : forall n', In n' (namelist (before ++ after)) ->
            visit_member is_custom_visual (before ++ (n, Ok raw) :: after) n'
            = visit_member is_custom_visual (before ++ after) n').
  { intros n' Hn'. apply visit_member_reads. apply zip_read_without.
    simpl. intros ->. contradiction. }
  unfold namelist in *. rewrite !map_app in *. simpl map.
  rewrite !for_each_app. unfold se_bind at 1 2.
  rewrite (for_each_ext_in (map fst before)
             (visit_member is_custom_visual (before ++ (n, Ok raw) :: after))
             (visit_member is_custom_visual (before ++ after)))
    by (intros n' s Hn'; rewrite Hread; [reflexivity | apply in_or_app; now left]).
  destruct (for_each (map fst before) (visit_member is_custom_visual (before ++ after)) [])
    as [v1 [[] | e1]]; [| reflexivity].
  simpl for_each. unfold se_bind at 1.
  assert (Hm : visit_member is_custom_visual (before ++ (n, Ok raw) :: after) n v1
               = (v1, Ok tt)).
  { unfold visit_member. rewrite Hn. unfold try_layout, read_layout, se_bind, lift.
    rewrite zip_read_here by (intros H; apply Hnew; apply in_or_app; now right).
    rewrite Hd. apply decode_utf16le_raises in Hd. subst e.
    destruct H8 as [(e8 & H8) | (text & e8 & H8 & Hj)].
    - now rewrite H8.
    - now rewrite H8, Hj. }
  rewrite Hm. f_equal.
  apply for_each_ext_in. intros n' s Hn'. rewrite Hread; [reflexivity |].
  apply in_or_app. now right.
Qed.

(** X8.  A layout member whose bytes are no UTF-16 and which, read as
    UTF-8, does not decode or does not parse, is passed over by either script:
    the result is that of the archive without the member.  The name of the
    member is not that of another. *)
Theorem undecoded_layout_is_passed_over (before after : ZipFile) (n : pystr)
  (raw : bytes) (e : exn) :
  ~ In n (namelist (before ++ after)) ->
  is_layout_member n = true ->
  decode_utf16le raw = Raise e ->
  (exists e8, decode_utf8 raw = Raise e8)
  \/ (exists text e8, decode_utf8 raw = Ok text /\ json_loads text = Raise e8) ->
  SP.extract_visuals_from_pbix (Zip (before ++ (n, Ok raw) :: after))
  = SP.extract_visuals_from_pbix (Zip (before ++ after))
  /\ Interactive.extract_visuals_from_pbix (Zip (before ++ (n, Ok raw) :: after))
     = Interactive.extract_visuals_from_pbix (Zip (before ++ after)).
Proof. intros. split; eapply extract_skips_undecoded; eassumption. Qed.

Lemma undecoded_layout_is_passed_over_witness :
  SP.extract_visuals_from_pbix
    (Zip (first_layout ++ (str "Report/Layout.tmp", Ok [Byte.xff]) :: last_layout))
  = SP.extract_visuals_from_pbix (Zip (first_layout ++ last_layout)).
Proof.
  exact (proj1 (undecoded_layout_is_passed_over first_layout last_layout
                  (str "Report/Layout.tmp") [Byte.xff] UnicodeDecodeError
                  tmp_layout_is_new eq_refl eq_refl
                  (or_introl (ex_intro _ UnicodeDecodeError eq_refl)))).
Defined.

(** ** The records of a section *)

Lemma visit_container_adds is_custom_visual (section_name container : pyobj)
  (visuals visuals' : list VisualRecord) (r : result unit) :
  visit_container is_custom_visual section_name container visuals = (visuals', r) ->
  (exists v, visuals' = visuals ++ [v] /\ page v = section_name
             /\ r = Ok tt /\ has_config container = true)
  \/ (visuals' = visuals /\ (r = Ok tt -> has_config container = false)).
Proof.
  unfold visit_container, has_config, se_bind, lift, append, ret.
  destruct (py_in (str "config") container) as [[|] | e];
    [| intros H; inversion H; now right | intros H; inversion H; right; split; [reflexivity | discriminate]].
  repeat match goal with
         | |- (match ?x with Ok _ => _ | Raise _ => _ end) = _ -> _ =>
             destruct x; [| intros H; inversion H; right; split; [reflexivity | discriminate]]
         end.
  intros H. inversion H; subst. left. eexists. repeat split.
Qed.

Lemma containers_add is_custom_visual (section_name : pyobj) (containers : list pyobj) :
  forall visuals visuals' r,
    for_each containers (visit_container is_custom_visual section_name) visuals
    = (visuals', r) ->
    exists new,
      visuals' = visuals ++ new
      /\ Forall (fun v => page v = section_name) new
      /\ List.length new <= List.length (filter has_config containers)
      /\ (r = Ok tt -> List.length new = List.length (filter has_config containers)).
Proof.
  induction containers as [| c cs IH]; intros visuals visuals' r H; simpl in H.
  - inversion H; subst. exists []. rewrite app_nil_r.
    split; [reflexivity |]. split; [constructor |]. split; [simpl; lia | reflexivity].
  - unfold se_bind in H.
    destruct (visit_container is_custom_visual section_name c visuals) as [v1 r1] eqn:Hc.
    apply visit_container_adds in Hc
      as [(v & -> & Hp & -> & Hcfg) | (-> & Hcfg)].
    + apply IH in H as (new & -> & Hn & Hle & Heq).
      exists (v :: new). rewrite <- app_assoc. simpl. rewrite Hcfg. simpl.
      repeat split; [now constructor | lia |]. intros E. rewrite (Heq E). reflexivity.
    + destruct r1 as [[] | e].
      * apply IH in H as (new & -> & Hn & Hle & Heq).
        exists new. simpl. rewrite (Hcfg eq_refl). repeat split; assumption.
      * inversion H; subst. exists []. rewrite app_nil_r.
        split; [reflexivity |]. split; [constructor |]. split; [simpl; lia | discriminate].
Qed.

Ltac nothing_new :=
  exists []; rewrite app_nil_r;
  split; [reflexivity |];
  split; [constructor |];
  split; [simpl; lia |];
  first [discriminate | intros _; reflexivity].

(** X9.  The walk of a section only appends records.  Each of them has
    for page the [displayName] of the section, or [Unnamed Section].  There is
    at most one per container with a config, and exactly one per such
    container when the walk ends without exception. *)
Theorem section_gives_a_record_per_config (is_custom_visual : pyobj -> result bool)
  (section : pyobj) (visuals visuals' : list VisualRecord) (r : result unit) :
  visit_section is_custom_visual section visuals = (visuals', r) ->
  exists new,
    visuals' = visuals ++ new
    /\ Forall (fun v => py_get section (str "displayName") (PStr (str "Unnamed Section"))
                        = Ok (page v)) new
    /\ List.length new <= List.length (filter has_config (section_containers section))
    /\ (r = Ok tt ->
        List.length new = List.length (filter has_config (section_containers section))).
Proof.
  unfold visit_section, section_containers. intros H.
  unfold se_bind at 1 in H. unfold lift at 1 in H.
  destruct (py_get section (str "displayName") (PStr (str "Unnamed Section")))
    as [section_name | e]; [| inversion H; subst; nothing_new].
  unfold se_bind at 1 in H. unfold lift at 1 in H.
  destruct (py_in (str "visualContainers") section) as [[|] | e];
    [| inversion H; subst; nothing_new | inversion H; subst; nothing_new].
  unfold se_bind at 1 in H. unfold lift at 1 in H.
  destruct (let* c := py_getitem section (str "visualContainers") in py_iter c)
    as [containers | e]; [| inversion H; subst; nothing_new].
  apply containers_add in H as (new & -> & Hn & Hle & Heq).
  exists new. repeat split; try assumption.
  revert Hn. apply Forall_impl. now intros v ->.
Qed.

Lemma section_gives_a_record_per_config_witness :
  exists new,
    [mkVisual (PStr (str "v7")) (PStr (str "Unknown")) false (PStr (str "Page1"))] = [] ++ new
    /\ Forall (fun v => py_get page1_section (str "displayName") (PStr (str "Unnamed Section"))
                        = Ok (page v)) new
    /\ List.length new <= List.length (filter has_config (section_containers page1_section))
    /\ (Ok tt = Ok tt ->
        List.length new = List.length (filter has_config (section_containers page1_section))).
Proof.
  exact (section_gives_a_record_per_config SP.is_custom_visual page1_section [] _ _ eq_refl).
Defined.

(** X10.  Every record [extract_visuals_from_pbix] returns carries in
    [is_custom] what the classifier of the script answers on its type.  The
    type of a record the service-principal script marks custom is a string;
    the type of every record of the interactive script is. *)
Theorem records_carry_the_verdict :
  (forall pbix_content v,
      In v (SP.extract_visuals_from_pbix pbix_content) ->
      SP.is_custom_visual (type v) = Ok (is_custom v))
  /\ (forall pbix_content v,
         In v (SP.extract_visuals_from_pbix pbix_content) ->
         is_custom v = true -> exists s, type v = PStr s)
  /\ (forall pbix_content v,
         In v (Interactive.extract_visuals_from_pbix pbix_content) ->
         exists s, type v = PStr s
                   /\ Interactive.is_custom_visual (PStr s) = Ok (is_custom v)).
Proof.
  assert (A : forall pbix_content v,
             In v (SP.extract_visuals_from_pbix pbix_content) ->
             SP.is_custom_visual (type v) = Ok (is_custom v)).
  { intros pbix_content v Hv.
    exact (proj1 (Forall_forall _ _) (extract_classified SP.is_custom_visual pbix_content)
             v Hv). }
  split; [exact A |]. split.
  - intros pbix_content v Hv Hc. apply A in Hv. rewrite Hc in Hv.
    destruct (type v) as [| b | z | f | s | l | d] eqn:E; try (now exists s);
      exfalso; revert Hv; unfold SP.is_custom_visual.
    + discriminate.
    + destruct b; discriminate.
    + simpl. destruct (Z.eqb z 0); discriminate.
    + destruct f; discriminate.
    + destruct l; discriminate.
    + destruct d; discriminate.
  - intros pbix_content v Hv.
    pose proof (proj1 (Forall_forall _ _)
                  (extract_classified Interactive.is_custom_visual pbix_content) v Hv) as H.
    unfold classified in H.
    destruct (type v) as [| b | z | f | s | l | d]; try discriminate H.
    now exists s.
Qed.

Lemma records_carry_the_verdict_witness :
  SP.is_custom_visual (type page1_record) = Ok (is_custom page1_record).
Proof.
  exact (proj1 records_carry_the_verdict page1_archive page1_record (or_introl eq_refl)).
Defined.

(** ** The requests of an analysis *)

Lemma for_each_lift_state {S A : Type} (xs : list A) (r : A -> result unit) (s s' : S) o :
  for_each xs (fun x => lift (r x)) s = (s', o) -> s' = s.
Proof.
  intros H.
  exact (keeps_for_each (fun s => s) xs (fun x => lift (r x))
           (fun x => keeps_lift (fun s => s) (r x)) s s' o H).
Qed.

Lemma SP_analyze_pbix_trace result rid w content t0 t r :
  SP.analyze_pbix result rid w content t0 = (t, Ok r) ->
  t = t0 ++ map WriteFile (saved_file rid).
Proof.
  unfold SP.analyze_pbix, saved_file. intros H.
  apply se_bind_ok_inv in H as (t1 & fname & H1 & H).
  apply lift_inv in H1 as [-> H1]. rewrite <- H1.
  apply se_bind_ok_inv in H as (t2 & [] & H2 & H).
  apply emit_inv in H2 as [-> _].
  apply se_bind_ok_inv in H as (t3 & [] & H3 & H).
  apply lift_inv in H3 as [-> _].
  destruct (SP.extract_visuals_from_pbix content).
  - now inversion H.
  - apply se_bind_ok_inv in H as (t4 & pages & H4 & H).
    apply lift_inv in H4 as [-> _]. now inversion H.
Qed.

Lemma SP_list_pages_trace result rid w t0 t r :
  SP.list_pages result rid w t0 = (t, Ok r) ->
  t = t0 ++ [GetReportPages (id_obj rid)].
Proof.
  unfold SP.list_pages, SP.get_report_pages. intros H.
  apply se_bind_ok_inv in H as (t1 & pages & H1 & H).
  apply se_bind_ok_inv in H1 as (t1' & [] & H0 & H1).
  apply emit_inv in H0 as [-> _]. inversion H1; subst t1 pages; clear H1.
  destruct (truthy _).
  - apply se_bind_ok_inv in H as (t2 & n & H2 & H). apply lift_inv in H2 as [-> _].
    apply se_bind_ok_inv in H as (t3 & items & H3 & H). apply lift_inv in H3 as [-> _].
    apply se_bind_ok_inv in H as (t4 & [] & H4 & H).
    apply for_each_lift_state in H4. subst t4. now inversion H.
  - now inversion H.
Qed.

Lemma SP_body_trace ws report w t0 t r :
  SP_body ws report w t0 = (t, Ok r) ->
  t = t0 ++ (if pbix_truthy (SP_pbix_content w)
             then map WriteFile (saved_file (rep_id report))
             else [GetReportPages (id_obj (rep_id report))]).
Proof.
  unfold SP_body. destruct (SP_pbix_content w) as [content |].
  - destruct (pbix_truthy (Some content)).
    + apply SP_analyze_pbix_trace.
    + apply SP_list_pages_trace.
  - apply SP_list_pages_trace.
Qed.

Lemma SP_analyze_report_trace ws report w t0 t r :
  SP.analyze_report ws report w t0 = (t, Ok (Some r)) ->
  t = t0 ++ SP_requests report w.
Proof.
  unfold SP.analyze_report. fold (SP_skipped report).
  destruct (SP_skipped report); [discriminate |]. intros H.
  apply se_bind_ok_inv in H as (t1 & direct & H1 & H).
  rewrite SP_export_run in H1. inversion H1; subst t1 direct; clear H1.
  apply se_bind_ok_inv in H as (t2 & [[result pbix_content] clone_id] & H2 & H).
  apply se_bind_ok_inv in H as (t3 & result' & H3 & H).
  apply se_bind_ok_inv in H as (t4 & [] & H4 & H).
  inversion H; subst t4 result'; clear H.
  unfold SP_requests, SP_clone_id.
  assert (Hb : forall init,
             result = SP_initial ws report w -> pbix_content = SP_pbix_content w ->
             t2 = t0 ++ init ->
             t3 = (t0 ++ init)
                  ++ (if pbix_truthy (SP_pbix_content w)
                      then map WriteFile (saved_file (rep_id report))
                      else [GetReportPages (id_obj (rep_id report))])).
  { intros init -> -> ->. now apply (SP_body_trace ws report w _ _ r). }
  unfold SP.clone_and_export in H2.
  destruct (pbix_truthy (SP.export_result (export_response w))) eqn:Hd; simpl in H2.
  - inversion H2; subst t2 result pbix_content clone_id; clear H2.
    simpl in H4. inversion H4; subst t; clear H4.
    rewrite (Hb [ExportReport (id_obj (rep_id report))]); try reflexivity.
    + now rewrite <- !app_assoc, app_nil_r.
    + unfold SP_initial. now rewrite Hd.
    + unfold SP_pbix_content. now rewrite Hd.
  - apply se_bind_ok_inv in H2 as (t1 & cid & Hc & H2).
    destruct (rep_id report) as [rid |] eqn:Hrid; [| discriminate].
    rewrite SP_clone_run in Hc. inversion Hc; subst t1 cid; clear Hc.
    destruct (truthy (SP.clone_result (clone_response w))) eqn:Ht.
    + simpl in H2. inversion H2; subst t2 result pbix_content clone_id; clear H2.
      rewrite Ht in H4. inversion H4; subst t; clear H4.
      rewrite (Hb [ExportReport (PStr rid); CloneReport (PStr rid); Sleep;
                   ExportReport (SP.clone_result (clone_response w))]).
      * simpl. now rewrite <- !app_assoc.
      * unfold SP_initial. now rewrite Hd, Hrid.
      * unfold SP_pbix_content. now rewrite Hd, Ht.
      * simpl. now rewrite <- !app_assoc.
    + simpl in H2. inversion H2; subst t2 result pbix_content clone_id; clear H2.
      rewrite Ht in H4. inversion H4; subst t; clear H4.
      rewrite (Hb [ExportReport (PStr rid); CloneReport (PStr rid)]).
      * simpl. now rewrite <- !app_assoc, app_nil_r.
      * unfold SP_initial. now rewrite Hd, Hrid.
      * unfold SP_pbix_content. now rewrite Hd, Ht.
      * simpl. now rewrite <- !app_assoc.
Qed.

Lemma Interactive_analyze_pbix_trace result rid w content t0 t r :
  Interactive.analyze_pbix result rid w content t0 = (t, Ok r) ->
  t = t0 ++ flat_map (fun f => [WriteFile f; RemoveFile f]) (saved_file rid).
Proof.
  unfold Interactive.analyze_pbix, saved_file. intros H.
  apply se_bind_ok_inv in H as (t1 & fname & H1 & H).
  apply lift_inv in H1 as [-> H1]. rewrite <- H1.
  apply se_bind_ok_inv in H as (t2 & [] & H2 & H).
  apply emit_inv in H2 as [-> _].
  apply se_bind_ok_inv in H as (t3 & [] & H3 & H).
  apply lift_inv in H3 as [-> _].
  apply se_bind_ok_inv in H as (t4 & [] & H4 & H).
  apply emit_inv in H4 as [-> _].
  destruct (Interactive.extract_visuals_from_pbix content).
  - inversion H. simpl. now rewrite <- app_assoc.
  - apply se_bind_ok_inv in H as (t5 & pages & H5 & H).
    apply lift_inv in H5 as [-> _]. inversion H. simpl. now rewrite <- app_assoc.
Qed.

Lemma Interactive_list_pages_trace result rid w t0 t r :
  Interactive.list_pages result rid w t0 = (t, Ok r) ->
  t = t0 ++ [GetReportPages (id_obj rid)].
Proof.
  unfold Interactive.list_pages, Interactive.get_report_pages. intros H.
  apply se_bind_ok_inv in H as (t1 & pages & H1 & H).
  apply se_bind_ok_inv in H1 as (t1' & [] & H0 & H1).
  apply emit_inv in H0 as [-> _]. inversion H1; subst t1 pages; clear H1.
  destruct (truthy _).
  - apply se_bind_ok_inv in H as (t2 & n & H2 & H). apply lift_inv in H2 as [-> _].
    apply se_bind_ok_inv in H as (t3 & items & H3 & H). apply lift_inv in H3 as [-> _].
    apply se_bind_ok_inv in H as (t4 & [] & H4 & H).
    apply for_each_lift_state in H4. subst t4. now inversion H.
  - now inversion H.
Qed.

Lemma Interactive_analyze_report_trace wid ws cap report w t0 t r :
  Interactive.analyze_report wid ws cap report w t0 = (t, Ok r) ->
  t = t0 ++ Interactive_requests report w.
Proof.
  unfold Interactive.analyze_report, Interactive_requests. intros H.
  apply se_bind_ok_inv in H as (t1 & pbix_content & H1 & H).
  inversion H1; subst t1 pbix_content; clear H1.
  change (t0 ++ ExportReport (id_obj (rep_id report)) :: ?l)
    with (t0 ++ [ExportReport (id_obj (rep_id report))] ++ l).
  rewrite app_assoc.
  destruct (Interactive.export_result (export_response w)) as [content |].
  - destruct (pbix_truthy (Some content)).
    + now apply Interactive_analyze_pbix_trace in H.
    + now apply Interactive_list_pages_trace in H.
  - now apply Interactive_list_pages_trace in H.
Qed.

(** X11.  The requests of an analysis of the service-principal script that
    gives a result, in their order: the direct export; when it gave nothing,
    the clone and, when there is one, a pause and the export of the clone;
    the file written when content was obtained, the listing of pages when
    not; the deletion of the clone when there is one.  These are six calls at
    most, and no file is removed. *)
Theorem SP_requests_in_order (ws : pystr) (report : Report) (w : ReportWorld)
  (t0 t : trace) (r : SP.ScanResult) :
  SP.analyze_report ws report w t0 = (t, Ok (Some r)) ->
  t = t0 ++ SP_requests report w
  /\ List.length (SP_requests report w) <= 6
  /\ (forall f, ~ In (RemoveFile f) (SP_requests report w)).
Proof.
  intros H. split; [now apply SP_analyze_report_trace in H |].
  unfold SP_requests, saved_file.
  destruct (pbix_truthy (SP.export_result (export_response w)));
    destruct (truthy (SP.clone_result (clone_response w)));
    destruct (pbix_truthy (SP_pbix_content w));
    destruct (truthy (SP_clone_id w));
    destruct (pbix_filename_of (rep_id report)); simpl;
    (split; [lia | intros f Hf; repeat (destruct Hf as [Hf | Hf]; [discriminate Hf |]);
                   contradiction]).
Qed.

Lemma SP_requests_in_order_witness :
  clone_world_trace = [] ++ SP_requests report_r1 clone_world.
Proof.
  exact (proj1 (SP_requests_in_order (str "WS") report_r1 clone_world [] _ _
                  clone_world_full_run)).
Defined.

(** X12.  The requests of an analysis of the interactive script that gives
    a result, in their order: the export, then the file written and removed
    when content was obtained, the listing of pages when not.  Every file
    written is removed, and no report is deleted. *)
Theorem Interactive_requests_in_order (wid : option pystr) (ws cap : pystr)
  (report : Report) (w : ReportWorld) (t0 t : trace) (r : Interactive.ScanResult) :
  Interactive.analyze_report wid ws cap report w t0 = (t, Ok r) ->
  t = t0 ++ Interactive_requests report w
  /\ (forall f, In (WriteFile f) (Interactive_requests report w)
                <-> In (RemoveFile f) (Interactive_requests report w))
  /\ (forall c, In c (Interactive_requests report w) -> is_delete c = false).
Proof.
  intros H. split; [now apply Interactive_analyze_report_trace in H |].
  unfold Interactive_requests, saved_file.
  destruct (pbix_truthy (Interactive.export_result (export_response w)));
    destruct (pbix_filename_of (rep_id report)); simpl;
    (split; [intros f; split; intros Hf;
             repeat (destruct Hf as [Hf | Hf];
                     [first [discriminate Hf | inversion Hf; subst; tauto] |]);
             contradiction
            | intros c Hc; repeat (destruct Hc as [<- | Hc]; [reflexivity |]);
              contradiction]).
Qed.

Lemma Interactive_requests_in_order_witness :
  fst (Interactive.analyze_report None (str "WS") [] report_r1 unauthorized_world [])
  = [] ++ Interactive_requests report_r1 unauthorized_world.
Proof.
  exact (proj1 (Interactive_requests_in_order None (str "WS") [] report_r1 unauthorized_world
                  [] _ _ unauthorized_run)).
Defined.

(** ** Names of clones *)

Lemma str_contains_startswith (p s : pystr) :
  startswith s p = true -> str_contains p s = true.
Proof. intros H. destruct s; cbn [str_contains]; now rewrite H. Qed.

Lemma str_contains_app (p a b : pystr) : str_contains p (a ++ p ++ b) = true.
Proof.
  induction a as [| c a IH].
  - change ([] ++ p ++ b) with (p ++ b). apply str_contains_startswith, startswith_prefix.
  - cbn [app str_contains]. rewrite IH. apply orb_true_r.
Qed.

(** X13.  A report whose name holds [temp_analysis_] or
    [temp_clone_for_analysis], so every report named as [clone_report] names
    its clones, is passed over by the service-principal analysis: no request
    is made and no row is given. *)
Theorem leftover_clones_are_passed_over (ws : pystr) (report : Report) (w : ReportWorld)
  (t : trace) :
  (exists report_id, rep_name report = Some (SP_clone_name report_id))
  \/ (exists a b, rep_name report = Some (a ++ str "temp_analysis_" ++ b))
  \/ (exists a b, rep_name report = Some (a ++ str "temp_clone_for_analysis" ++ b)) ->
  SP.analyze_report ws report w t = (t, Ok None).
Proof.
  intros H. unfold SP.analyze_report.
  assert (E : str_contains (str "temp_analysis_") (get_default (rep_name report) (str "Unknown"))
              || str_contains (str "temp_clone_for_analysis")
                   (get_default (rep_name report) (str "Unknown")) = true).
  { destruct H as [(rid & ->) | [(a & b & ->) | (a & b & ->)]]; cbn [get_default].
    - unfold SP_clone_name.
      pose proof (str_contains_app (str "temp_analysis_") [] (str_prefix 8 rid)) as E.
      change ([] ++ ?x) with x in E. now rewrite E.
    - now rewrite str_contains_app.
    - rewrite (str_contains_app (str "temp_clone_for_analysis")). apply orb_true_r. }
  now rewrite E.
Qed.

Lemma leftover_clones_are_passed_over_witness :
  SP.analyze_report (str "WS") leftover_clone unauthorized_world [] = ([], Ok None).
Proof.
  exact (leftover_clones_are_passed_over (str "WS") leftover_clone unauthorized_world []
           (or_introl (ex_intro _ (str "0123456789abcdef") eq_refl))).
Defined.

(** ** Pages *)

Lemma group_pages_length (visuals : list VisualRecord) :
  forall pages pages',
    group_pages visuals pages = Ok pages' ->
    List.length pages <= List.length pages'
    /\ List.length pages' <= List.length pages + List.length visuals
    /\ (visuals <> [] -> 1 <= List.length pages').
Proof.
  induction visuals as [| v vs IH]; intros pages pages' H; simpl in H.
  - inversion H; subst. repeat split; [lia | simpl; lia | congruence].
  - destruct (hashable (page v)); [| discriminate].
    apply IH in H as (H1 & H2 & _).
    destruct (existsb (key_eqb (page v)) pages) eqn:E.
    + simpl. repeat split; try lia. intros _.
      destruct pages as [| p ps]; [discriminate E | simpl in H1; lia].
    + rewrite length_app in H1, H2. simpl in *. repeat split; lia.
Qed.

Lemma truthy_len (x : pyobj) (n : nat) : truthy x = true -> py_len x = Ok n -> 1 <= n.
Proof.
  destruct x as [| b | z | f | s | l | d]; simpl; try discriminate;
    intros Ht H; inversion H; subst.
  - destruct s; [discriminate | simpl; lia].
  - destruct l; [discriminate | simpl; lia].
  - destruct d; [discriminate | simpl; lia].
Qed.

Lemma SP_analyze_pbix_pages result rid w content t0 t r :
  SP.analyze_pbix result rid w content t0 = (t, Ok r) ->
  (SP.method r = str "Direct Export"
   /\ 1 <= SP.num_pages r /\ SP.num_pages r <= SP.total_visuals r)
  \/ (SP.method r = str "Direct Export (No Visuals)" /\ SP.num_pages r = SP.num_pages result).
Proof.
  unfold SP.analyze_pbix. intros H.
  apply se_bind_ok_inv in H as (t1 & fname & _ & H).
  apply se_bind_ok_inv in H as (t2 & [] & _ & H).
  apply se_bind_ok_inv in H as (t3 & [] & _ & H).
  destruct (SP.extract_visuals_from_pbix content) as [| v vs] eqn:Hv.
  - inversion H; subst. right. split; reflexivity.
  - apply se_bind_ok_inv in H as (t4 & pages & Hg & H).
    apply lift_inv in Hg as [_ Hg]. symmetry in Hg.
    apply group_pages_length in Hg as (_ & H2 & H3).
    inversion H; subst. left. simpl in *. repeat split; [apply H3; discriminate | lia].
Qed.

Lemma SP_list_pages_pages result rid w t0 t r :
  SP.list_pages result rid w t0 = (t, Ok r) ->
  (SP.method r = str "Page Listing Only" /\ 1 <= SP.num_pages r)
  \/ (SP.method r = str "Failed" /\ SP.num_pages r = SP.num_pages result).
Proof.
  unfold SP.list_pages. intros H.
  apply se_bind_ok_inv in H as (t1 & pages & _ & H).
  destruct (truthy pages) eqn:Ht.
  - apply se_bind_ok_inv in H as (t2 & n & Hn & H). apply lift_inv in Hn as [_ Hn].
    symmetry in Hn. apply (truthy_len _ _ Ht) in Hn.
    apply se_bind_ok_inv in H as (t3 & items & _ & H).
    apply se_bind_ok_inv in H as (t4 & [] & _ & H).
    inversion H; subst. left. now split.
  - inversion H; subst. right. now split.
Qed.

Lemma Interactive_analyze_pbix_pages result rid w content t0 t r :
  Interactive.analyze_pbix result rid w content t0 = (t, Ok r) ->
  (Interactive.method r = str "Direct Export"
   /\ 1 <= Interactive.num_pages r
   /\ Interactive.num_pages r <= Interactive.total_visuals r)
  \/ (Interactive.method r = str "Direct Export (No Visuals)"
      /\ Interactive.num_pages r = Interactive.num_pages result).
Proof.
  unfold Interactive.analyze_pbix. intros H.
  apply se_bind_ok_inv in H as (t1 & fname & _ & H).
  apply se_bind_ok_inv in H as (t2 & [] & _ & H).
  apply se_bind_ok_inv in H as (t3 & [] & _ & H).
  apply se_bind_ok_inv in H as (t3' & [] & _ & H).
  destruct (Interactive.extract_visuals_from_pbix content) as [| v vs] eqn:Hv.
  - inversion H; subst. right. split; reflexivity.
  - apply se_bind_ok_inv in H as (t4 & pages & Hg & H).
    apply lift_inv in Hg as [_ Hg]. symmetry in Hg.
    apply group_pages_length in Hg as (_ & H2 & H3).
    inversion H; subst. left. simpl in *. repeat split; [apply H3; discriminate | lia].
Qed.

Lemma Interactive_list_pages_pages result rid w t0 t r :
  Interactive.list_pages result rid w t0 = (t, Ok r) ->
  (Interactive.method r = str "Page Listing Only" /\ 1 <= Interactive.num_pages r)
  \/ (Interactive.method r = str "Failed"
      /\ Interactive.num_pages r = Interactive.num_pages result).
Proof.
  unfold Interactive.list_pages. intros H.
  apply se_bind_ok_inv in H as (t1 & pages & _ & H).
  destruct (truthy pages) eqn:Ht.
  - apply se_bind_ok_inv in H as (t2 & n & Hn & H). apply lift_inv in Hn as [_ Hn].
    symmetry in Hn. apply (truthy_len _ _ Ht) in Hn.
    apply se_bind_ok_inv in H as (t3 & items & _ & H).
    apply se_bind_ok_inv in H as (t4 & [] & _ & H).
    inversion H; subst. left. now split.
  - inversion H; subst. right. now split.
Qed.

(** X14.  The pages a result of either script counts, by its method, which
    is one of four: from one to as many as there are visuals under
    [Direct Export], none under [Direct Export (No Visuals)] and [Failed], one
    at least under [Page Listing Only]. *)
Theorem result_counts_its_pages :
  (forall ws report w t0 t r,
      SP.analyze_report ws report w t0 = (t, Ok (Some r)) ->
      pages_by_method (SP.method r) (SP.num_pages r) (SP.total_visuals r))
  /\ (forall wid ws cap report w t0 t r,
         Interactive.analyze_report wid ws cap report w t0 = (t, Ok r) ->
         pages_by_method (Interactive.method r) (Interactive.num_pages r)
           (Interactive.total_visuals r)).
Proof.
  split.
  - intros ws report w t0 t r H.
    apply SP_analyze_report_run in H as (_ & t2 & t3 & _ & Hb & _).
    unfold SP_body in Hb. unfold pages_by_method.
    assert (Hl : forall u1 u2,
               SP.list_pages (SP_initial ws report w) (rep_id report) w u1 = (u2, Ok r) ->
               (SP.method r = str "Page Listing Only" /\ 1 <= SP.num_pages r)
               \/ (SP.method r = str "Failed" /\ SP.num_pages r = 0)).
    { intros u1 u2 Hl. now apply SP_list_pages_pages in Hl. }
    destruct (SP_pbix_content w) as [content |].
    + destruct (pbix_truthy (Some content)).
      * apply SP_analyze_pbix_pages in Hb as [Hb | Hb]; [now left | right; now left].
      * apply Hl in Hb as [Hb | Hb]; [right; right; now left | right; right; now right].
    + apply Hl in Hb as [Hb | Hb]; [right; right; now left | right; right; now right].
  - intros wid ws cap report w t0 t r H.
    unfold Interactive.analyze_report in H.
    apply se_bind_ok_inv in H as (t1 & pbix_content & H1 & H).
    inversion H1; subst t1 pbix_content; clear H1.
    unfold pages_by_method.
    assert (Hl : forall result u1 u2,
               Interactive.num_pages result = 0 ->
               Interactive.list_pages result (rep_id report) w u1 = (u2, Ok r) ->
               (Interactive.method r = str "Page Listing Only" /\ 1 <= Interactive.num_pages r)
               \/ (Interactive.method r = str "Failed" /\ Interactive.num_pages r = 0)).
    { intros result u1 u2 E Hl. apply Interactive_list_pages_pages in Hl. now rewrite E in Hl. }
    destruct (Interactive.export_result (export_response w)) as [content |].
    + destruct (pbix_truthy (Some content)).
      * apply Interactive_analyze_pbix_pages in H as [H | H]; [now left | right; now left].
      * apply Hl in H as [H | H]; [right; right; now left | right; right; now right | reflexivity].
    + apply Hl in H as [H | H]; [right; right; now left | right; right; now right | reflexivity].
Qed.

Lemma result_counts_its_pages_witness :
  pages_by_method (SP.method clone_world_result) (SP.num_pages clone_world_result)
    (SP.total_visuals clone_world_result).
Proof.
  exact (proj1 result_counts_its_pages (str "WS") report_r1 clone_world [] _ _
           clone_world_full_run).
Defined.

(** ** The figures of a run *)

Lemma SP_row_sorted ws report w t0 t r :
  SP.analyze_report ws report w t0 = (t, Ok (Some r)) ->
  row_sorted (SP.is_directlake r) (SP.method r) (SP.custom_visuals r).
Proof.
  intros H. apply SP_result_shape in H as (_ & _ & _ & Hs). unfold row_sorted.
  destruct Hs as [(content & _ & _ & -> & [(_ & -> & _) | (_ & -> & _)])
                 | (_ & _ & -> & _ & -> & [-> | ->])];
    [right | right | left | left]; repeat split.
Qed.

Lemma Interactive_row_sorted wid ws cap report w t0 t r :
  Interactive.analyze_report wid ws cap report w t0 = (t, Ok r) ->
  row_sorted (Interactive.is_directlake r) (Interactive.method r)
    (Interactive.custom_visuals r).
Proof.
  intros H. apply Interactive_result_shape in H as (_ & _ & _ & Hs). unfold row_sorted.
  destruct Hs as [(content & _ & _ & -> & [(_ & -> & _) | (_ & -> & _)])
                 | (_ & -> & _ & -> & [-> | ->])];
    [right | right | left | left]; repeat split.
Qed.

Lemma SP_analyze_reports_sorted ws reports :
  forall acc t0 t results,
    SP.analyze_reports ws reports acc t0 = (t, Ok results) ->
    Forall (fun r => row_sorted (SP.is_directlake r) (SP.method r) (SP.custom_visuals r)) acc ->
    Forall (fun r => row_sorted (SP.is_directlake r) (SP.method r) (SP.custom_visuals r))
      results.
Proof.
  induction reports as [| [report w] rest IH]; intros acc t0 t results H Ha; simpl in H.
  - now inversion H; subst.
  - apply se_bind_ok_inv in H as (t1 & r & H1 & H).
    apply IH in H; [exact H |].
    destruct r as [row |]; [| exact Ha].
    apply Forall_app. split; [exact Ha |].
    constructor; [| constructor]. now apply SP_row_sorted in H1.
Qed.

Lemma Interactive_analyze_reports_sorted wid ws cap reports :
  forall acc t0 t results,
    Interactive.analyze_reports wid ws cap reports acc t0 = (t, Ok results) ->
    Forall (fun r => row_sorted (Interactive.is_directlake r) (Interactive.method r)
                       (Interactive.custom_visuals r)) acc ->
    Forall (fun r => row_sorted (Interactive.is_directlake r) (Interactive.method r)
                       (Interactive.custom_visuals r)) results.
Proof.
  induction reports as [| [report w] rest IH]; intros acc t0 t results H Ha; simpl in H.
  - now inversion H; subst.
  - apply se_bind_ok_inv in H as (t1 & row & H1 & H).
    apply IH in H; [exact H |].
    apply Forall_app. split; [exact Ha |].
    constructor; [| constructor]. now apply Interactive_row_sorted in H1.
Qed.

Lemma SP_workspace_rows_sorted wsw :
  Forall (fun r => row_sorted (SP.is_directlake r) (SP.method r) (SP.custom_visuals r))
    (SP_workspace_rows wsw).
Proof.
  unfold SP_workspace_rows.
  destruct (SP.analyze_workspace_reports _ (snd wsw) []) as [t [results | e]] eqn:H;
    simpl; [| constructor].
  unfold SP.analyze_workspace_reports in H.
  apply se_bind_ok_inv in H as (t1 & [] & _ & H).
  apply se_bind_ok_inv in H as (t2 & reports & _ & H).
  apply SP_analyze_reports_sorted in H; [exact H | constructor].
Qed.

Lemma Interactive_workspace_rows_sorted wsw :
  Forall (fun r => row_sorted (Interactive.is_directlake r) (Interactive.method r)
                     (Interactive.custom_visuals r))
    (Interactive_workspace_rows wsw).
Proof.
  unfold Interactive_workspace_rows, Interactive_workspace_outcome.
  destruct (Interactive.analyze_workspace_reports _ _ _ (snd wsw) [])
    as [t [results | e]] eqn:H; simpl; [| constructor].
  unfold Interactive.analyze_workspace_reports in H.
  apply se_bind_ok_inv in H as (t1 & [] & _ & H).
  apply se_bind_ok_inv in H as (t2 & reports & _ & H).
  apply Interactive_analyze_reports_sorted in H; [exact H | constructor].
Qed.

Lemma Forall_flat_map_all {A B : Type} (P : B -> Prop) (f : A -> list B) (xs : list A) :
  (forall x, Forall P (f x)) -> Forall P (flat_map f xs).
Proof.
  intros H. induction xs as [| x xs IH]; simpl; [constructor |].
  apply Forall_app. split; [apply H | exact IH].
Qed.

Lemma sorted_counts {R : Type} (dl me : R -> pystr) (cu : R -> nat) (rows : list R) :
  Forall (fun r => row_sorted (dl r) (me r) (cu r)) rows ->
  List.length (filter (fun r => str_eqb (dl r) (str "Yes")) rows)
  + List.length (filter (fun r => str_contains (str "Export") (me r)) rows)
  = List.length rows
  /\ List.length (filter (fun r => (0 <? cu r)%nat) rows)
     <= List.length (filter (fun r => str_contains (str "Export") (me r)) rows).
Proof.
  induction 1 as [| r rows Hr _ [IH1 IH2]]; simpl; [split; reflexivity |].
  destruct Hr as [(-> & -> & ->) | (-> & ->)]; simpl.
  - split; lia.
  - destruct (0 <? cu r)%nat; simpl; split; lia.
Qed.

(** X15.  In the summary of a run of either script, the DirectLake reports
    and the successful exports add up to the total of reports, and the reports
    with custom visuals are at most the successful exports. *)
Theorem summary_sorts_every_report :
  (forall workspaces t file s,
      SP.main workspaces = (t, file, Ok s) ->
      directlake_reports s + successful_exports s = total_reports s
      /\ reports_with_custom s <= successful_exports s)
  /\ (forall workspaces t file s,
         Interactive.main workspaces = (t, file, Ok s) ->
         directlake_reports s + successful_exports s = total_reports s
         /\ reports_with_custom s <= successful_exports s).
Proof.
  split.
  - intros workspaces t file s H. unfold SP.main in H.
    pose proof (SP_scan_workspaces_rows workspaces [] []) as Hr.
    destruct (SP.scan_workspaces workspaces [] []) as [t1 all_results].
    simpl in Hr. subst all_results.
    destruct (SP.write_csv _) as [csvfile [[] | e]]; [| discriminate].
    inversion H; subst. unfold SP.summary. simpl.
    apply (sorted_counts SP.is_directlake SP.method SP.custom_visuals).
    apply Forall_flat_map_all. apply SP_workspace_rows_sorted.
  - intros workspaces t file s H. unfold Interactive.main in H.
    destruct Interactive.create_csv as [csvfile [[] | e]]; [| discriminate].
    destruct (Interactive.scan_workspaces workspaces [] csvfile [])
      as [[t1 file1] [all_results | e]] eqn:Hs; [| discriminate].
    apply Interactive_scan_workspaces_rows in Hs as (-> & _ & _).
    inversion H; subst. unfold Interactive.summary. simpl.
    apply (sorted_counts Interactive.is_directlake Interactive.method
             Interactive.custom_visuals).
    apply Forall_flat_map_all. apply Interactive_workspace_rows_sorted.
Qed.

Lemma summary_sorts_every_report_witness :
  directlake_reports (mkSummary 1 0 0 1) + successful_exports (mkSummary 1 0 0 1)
  = total_reports (mkSummary 1 0 0 1)
  /\ reports_with_custom (mkSummary 1 0 0 1) <= successful_exports (mkSummary 1 0 0 1).
Proof.
  exact (proj1 summary_sorts_every_report one_workspace _ _ _ one_workspace_run).
Defined.

(** ** Reports without an identifier, analyses that raise *)

(** X16.  A report without [id].  The service-principal analysis, unless
    it passes over the report, raises [TypeError] after the direct export,
    whatever the export gives.  The interactive analysis raises [TypeError]
    after the export when the export gives content; the result it gives
    otherwise has no report identifier and says DirectLake. *)
Theorem report_without_id_raises (ws : pystr) (report : Report) (w : ReportWorld) (t0 : trace) :
  rep_id report = None ->
  (SP_skipped report = false ->
   SP.analyze_report ws report w t0 = (t0 ++ [ExportReport PNone], Raise TypeError))
  /\ (forall wid cap,
         pbix_truthy (Interactive.export_result (export_response w)) = true ->
         Interactive.analyze_report wid ws cap report w t0
         = (t0 ++ [ExportReport PNone], Raise TypeError))
  /\ (forall wid cap t r,
         Interactive.analyze_report wid ws cap report w t0 = (t, Ok r) ->
         Interactive.report_id r = None /\ Interactive.is_directlake r = str "Yes").
Proof.
  intros Hid. split; [| split].
  - intros Hs. unfold SP.analyze_report. fold (SP_skipped report). rewrite Hs, Hid.
    unfold se_bind at 1. rewrite SP_export_run.
    unfold se_bind at 1. unfold SP.clone_and_export.
    destruct (pbix_truthy (SP.export_result (export_response w))) eqn:Hd; cbn [negb].
    + unfold ret at 1.
      destruct (SP.export_result (export_response w)) as [content |]; [| discriminate].
      rewrite Hd. reflexivity.
    + reflexivity.
  - intros wid cap Hd. unfold Interactive.analyze_report. rewrite Hid.
    unfold se_bind at 1. unfold Interactive.export_report_as_pbix, se_bind at 1, emit, ret.
    destruct (Interactive.export_result (export_response w)) as [content |]; [| discriminate].
    rewrite Hd. reflexivity.
  - intros wid cap t r H.
    pose proof H as Hshape. apply Interactive_result_shape in Hshape as (_ & _ & Hi & Hs).
    rewrite Hid in Hi. split; [exact Hi |].
    destruct Hs as [(content & Hc & Ht & _) | (_ & Hy & _)]; [| exact Hy].
    exfalso. revert H. unfold Interactive.analyze_report. rewrite Hid.
    unfold se_bind at 1. unfold Interactive.export_report_as_pbix, se_bind at 1, emit, ret.
    rewrite Hc. rewrite Hc in Ht. rewrite Ht. discriminate.
Qed.

Lemma report_without_id_raises_witness :
  SP.analyze_report (str "WS") draft_report unauthorized_world []
  = ([] ++ [ExportReport PNone], Raise TypeError).
Proof.
  exact (proj1 (report_without_id_raises (str "WS") draft_report unauthorized_world []
                  eq_refl) eq_refl).
Defined.

Lemma SP_analyze_reports_raise ws reports report w e :
  In (report, w) reports ->
  snd (SP.analyze_report ws report w []) = Raise e ->
  forall acc t, exists e', snd (SP.analyze_reports ws reports acc t) = Raise e'.
Proof.
  intros Hin He. induction reports as [| [report' w'] rest IH]; [contradiction |].
  intros acc t. simpl. unfold se_bind.
  pose proof (SP_analyze_report_blind ws report' w' t []) as Hb.
  destruct (SP.analyze_report ws report' w' t) as [t1 [r | e1]]; [| now exists e1].
  destruct Hin as [E | Hin].
  - inversion E; subst. simpl in Hb. congruence.
  - apply IH. exact Hin.
Qed.

Lemma SP_main_rows workspaces :
  snd (fst (SP.main workspaces)) = fst (SP.write_csv (flat_map SP_workspace_rows workspaces))
  /\ (forall s, snd (SP.main workspaces) = Ok s ->
                s = SP.summary (flat_map SP_workspace_rows workspaces)).
Proof.
  unfold SP.main.
  pose proof (SP_scan_workspaces_rows workspaces [] []) as H.
  destruct (SP.scan_workspaces workspaces [] []) as [t all_results].
  simpl in H. subst all_results.
  destruct (SP.write_csv _) as [csvfile [[] | e]]; simpl; split; try reflexivity.
  - intros s E. now inversion E.
  - discriminate.
Qed.

(** X17.  When the analysis of a report raises, the service-principal run
    keeps no row of the workspace of the report, not those of the reports
    analysed before it either: the file and the summary are those of the run
    without the workspace. *)
Theorem raising_report_costs_the_workspace (ws : Workspace) (reports : list (Report * ReportWorld))
  (report : Report) (w : ReportWorld) (e : exn) :
  In (report, w) reports ->
  snd (SP.analyze_report (get_default (ws_name ws) (str "Unknown")) report w []) = Raise e ->
  SP_workspace_rows (ws, Ok reports) = []
  /\ (forall before after,
         snd (fst (SP.main (before ++ (ws, Ok reports) :: after)))
         = snd (fst (SP.main (before ++ after)))
         /\ snd (SP.main (before ++ (ws, Ok reports) :: after))
            = snd (SP.main (before ++ after))).
Proof.
  intros Hin He.
  assert (E : SP_workspace_rows (ws, Ok reports) = []).
  { unfold SP_workspace_rows, SP.analyze_workspace_reports. simpl.
    unfold se_bind, emit, lift.
    destruct (SP_analyze_reports_raise _ _ _ _ _ Hin He [] ([] ++ [GetReports])) as [e' H].
    destruct (SP.analyze_reports _ reports [] _) as [t r]. simpl in H. now rewrite H. }
  split; [exact E |].
  intros before after.
  assert (F : flat_map SP_workspace_rows (before ++ (ws, Ok reports) :: after)
              = flat_map SP_workspace_rows (before ++ after)).
  { rewrite !flat_map_app. simpl. now rewrite E. }
  split.
  - now rewrite !(proj1 (SP_main_rows _)), F.
  - unfold SP.main.
    pose proof (SP_scan_workspaces_rows (before ++ (ws, Ok reports) :: after) [] []) as H1.
    pose proof (SP_scan_workspaces_rows (before ++ after) [] []) as H2.
    destruct (SP.scan_workspaces (before ++ (ws, Ok reports) :: after) [] []) as [t1 r1].
    destruct (SP.scan_workspaces (before ++ after) [] []) as [t2 r2].
    simpl in H1, H2. rewrite F in H1. subst r1 r2.
    now destruct (SP.write_csv _) as [csvfile [[] | e']].
Qed.

Lemma raising_report_costs_the_workspace_witness :
  SP_workspace_rows (workspace_ws, Ok [(report_r1, disk_full_world)]) = [].
Proof.
  exact (proj1 (raising_report_costs_the_workspace workspace_ws
                  [(report_r1, disk_full_world)] report_r1 disk_full_world OSError
                  (or_introl eq_refl) eq_refl)).
Defined.

Lemma Interactive_scan_abort (ws1 ws2 : list (Workspace * WorkspaceWorld))
  (bad : Workspace * WorkspaceWorld) (e : exn) :
  Interactive_workspace_outcome bad = Raise e ->
  forall all_results csvfile t file,
    Forall (fun wsw => exists rs, Interactive_workspace_outcome wsw = Ok rs) ws1 ->
    for_each (flat_map Interactive_workspace_rows ws1)
      (fun result => writerow (Interactive.row_fields result)) csvfile = (file, Ok tt) ->
    exists t',
      Interactive.scan_workspaces (ws1 ++ bad :: ws2) all_results csvfile t
      = (t', file, Raise e).
Proof.
  intros Hbad. induction ws1 as [| [ws ww] ws1 IH]; intros all_results csvfile t file Hok Hw.
  - simpl in Hw. inversion Hw; subst file. destruct bad as [ws ww]. simpl.
    pose proof (Interactive_analyze_workspace_reports_blind (ws_id ws)
                  (get_default (ws_name ws) (str "Unnamed Workspace"))
                  (get_default (ws_capacityId ws) []) ww t []) as Hb.
    unfold Interactive_workspace_outcome in Hbad. simpl in Hbad. rewrite Hbad in Hb.
    destruct (Interactive.analyze_workspace_reports _ _ _ ww t) as [t1 r1].
    simpl in Hb. subst r1. now exists t1.
  - inversion Hok as [| ? ? [rs Hrs] Hok']; subst. simpl.
    pose proof (Interactive_analyze_workspace_reports_blind (ws_id ws)
                  (get_default (ws_name ws) (str "Unnamed Workspace"))
                  (get_default (ws_capacityId ws) []) ww t []) as Hb.
    pose proof Hrs as Hrows.
    unfold Interactive_workspace_outcome in Hrs. simpl in Hrs. rewrite Hrs in Hb.
    destruct (Interactive.analyze_workspace_reports _ _ _ ww t) as [t1 r1].
    simpl in Hb. subst r1.
    cbn [flat_map] in Hw. unfold Interactive_workspace_rows at 1 in Hw. rewrite Hrows in Hw.
    rewrite for_each_app in Hw.
    apply se_bind_ok_inv in Hw as (file1 & [] & Hw1 & Hw2).
    rewrite append_csv_rows, Hw1.
    now apply IH.
Qed.

(** X18.  When a workspace of the interactive run raises, [main] raises
    the same exception and the workspaces after it are not visited; the file
    holds the header and the rows of the workspaces before it. *)
Theorem rows_before_a_failure_are_saved (ws1 ws2 : list (Workspace * WorkspaceWorld))
  (bad : Workspace * WorkspaceWorld) (e : exn) (file : bytes) :
  Forall (fun wsw => exists rs, Interactive_workspace_outcome wsw = Ok rs) ws1 ->
  Interactive_workspace_outcome bad = Raise e ->
  Interactive.single_flush (flat_map Interactive_workspace_rows ws1) = (file, Ok tt) ->
  exists t, Interactive.main (ws1 ++ bad :: ws2) = (t, file, Raise e).
Proof.
  intros Hok Hbad Hf. unfold Interactive.single_flush in Hf.
  apply se_bind_ok_inv in Hf as (csvfile & [] & Hc & Hw).
  unfold Interactive.main, Interactive.create_csv. rewrite Hc.
  destruct (Interactive_scan_abort ws1 ws2 bad e Hbad [] csvfile [] file Hok Hw) as [t' ->].
  now exists t'.
Qed.

Lemma rows_before_a_failure_are_saved_witness :
  exists t,
    Interactive.main ([closed_workspace] ++ unlisted_workspace :: [])
    = (t, fst (Interactive.single_flush [closed_workspace_row]), Raise HTTPError).
Proof.
  exact (rows_before_a_failure_are_saved [closed_workspace] [] unlisted_workspace HTTPError _
           (Forall_cons _ (ex_intro _ [closed_workspace_row] closed_workspace_outcome)
              (Forall_nil _))
           eq_refl closed_workspace_file).
Defined.

(** ** The walk of a scan result *)

Lemma for_each_stops {S A : Type} (xs ys : list A) (x : A) (body : A -> SE S unit)
  (s s1 s2 : S) (e : exn) :
  for_each xs body s = (s1, Ok tt) ->
  body x s1 = (s2, Raise e) ->
  for_each (xs ++ x :: ys) body s = (s2, Raise e).
Proof.
  intros H1 H2. rewrite for_each_app. unfold se_bind. rewrite H1. simpl.
  unfold se_bind. now rewrite H2.
Qed.

Lemma for_each_raised {S A : Type} (xs ys : list A) (body : A -> SE S unit)
  (s s1 : S) (e : exn) :
  for_each xs body s = (s1, Raise e) ->
  for_each (xs ++ ys) body s = (s1, Raise e).
Proof. intros H. rewrite for_each_app. unfold se_bind. now rewrite H. Qed.

Lemma scan_report_outcome (report : pyobj) (rv : SP.ReportVisuals) :
  snd (SP.scan_report report rv) = snd (SP.scan_report report [])
  /\ (forall e, snd (SP.scan_report report []) = Raise e ->
                SP.scan_report report rv = (rv, Raise e)).
Proof.
  assert (R : forall (e1 : exn) (x y : SP.ReportVisuals),
             snd (x, @Raise unit e1) = snd (y, @Raise unit e1)
             /\ (forall e, snd (y, @Raise unit e1) = Raise e -> (x, @Raise unit e1) = (x, Raise e))).
  { intros e1 x y. split; [reflexivity |]. simpl. intros e0 H. now inversion H. }
  unfold SP.scan_report, se_bind, lift.
  destruct (py_get report (str "id") PNone) as [report_id | e1]; [| apply R].
  destruct (py_get report (str "name") (PStr (str "Unknown"))) as [report_name | e1];
    [| apply R].
  destruct (let* p := py_get report (str "pages") (PList []) in py_iter p) as [pages | e1];
    [| apply R].
  destruct (for_each pages SP.scan_page []) as [all_visuals [[] | e1]]; [| apply R].
  destruct (hashable report_id); [| apply R].
  split; [reflexivity |]. intros e0 H. discriminate H.
Qed.

Lemma extract_scan_run (workspaces : list pyobj) :
  SP.extract_visuals_from_scan (scan_of workspaces)
  = fst (for_each workspaces SP.scan_workspace_reports []).
Proof. reflexivity. Qed.

Lemma scan_workspace_run (reports : list pyobj) (rv : SP.ReportVisuals) :
  SP.scan_workspace_reports (workspace_of reports) rv = for_each reports SP.scan_report rv.
Proof. reflexivity. Qed.

(** X19.  A report of a scan result whose walk raises ends
    [extract_visuals_from_scan]: the result is that of the scan cut before the
    report; the reports and the workspaces after it are not visited. *)
Theorem scan_walk_ends_at_a_bad_report (before after : list pyobj)
  (reports later : list pyobj) (bad : pyobj) (e : exn) :
  snd (SP.scan_report bad []) = Raise e ->
  SP.extract_visuals_from_scan
    (scan_of (before ++ workspace_of (reports ++ bad :: later) :: after))
  = SP.extract_visuals_from_scan (scan_of (before ++ [workspace_of reports])).
Proof.
  intros Hbad. rewrite !extract_scan_run, !for_each_app. unfold se_bind.
  destruct (for_each before SP.scan_workspace_reports []) as [rv1 [[] | e1]]; [| reflexivity].
  simpl for_each. unfold se_bind. rewrite !scan_workspace_run.
  destruct (for_each reports SP.scan_report rv1) as [rv2 [[] | e2]] eqn:Hr.
  - rewrite (for_each_stops reports later bad SP.scan_report rv1 rv2 rv2 e Hr);
      [reflexivity |].
    now apply scan_report_outcome.
  - now rewrite (for_each_raised reports (bad :: later) SP.scan_report rv1 rv2 e2 Hr).
Qed.

Lemma scan_walk_ends_at_a_bad_report_witness :
  SP.extract_visuals_from_scan
    (scan_of ([] ++ workspace_of ([scanned_report] ++ unread_report :: [scanned_report]) :: []))
  = SP.extract_visuals_from_scan (scan_of ([] ++ [workspace_of [scanned_report]])).
Proof.
  exact (scan_walk_ends_at_a_bad_report [] [] [scanned_report] [scanned_report]
           unread_report TypeError eq_refl).
Defined.

Lemma scan_visual_classified page_name visual :
  preserves (Forall (classified SP.is_custom_visual)) (SP.scan_visual page_name visual).
Proof.
  unfold SP.scan_visual.
  apply preserves_bind; [apply preserves_lift |]. intros visual_type.
  apply preserves_bind; [apply preserves_lift |]. intros visual_name.
  intros s s' r H Hs. unfold se_bind, lift in H.
  destruct (SP.is_custom_visual visual_type) as [custom |] eqn:Hc.
  - inversion H; subst. apply Forall_app. split; [assumption |].
    constructor; [exact Hc | constructor].
  - now inversion H; subst.
Qed.

Lemma scan_page_classified scan_page :
  preserves (Forall (classified SP.is_custom_visual)) (SP.scan_page scan_page).
Proof.
  unfold SP.scan_page.
  apply preserves_bind; [apply preserves_lift |]. intros page_name.
  apply preserves_bind; [apply preserves_lift |]. intros visuals.
  apply preserves_for_each. intros v. apply scan_visual_classified.
Qed.

Lemma store_report_classified report_id entry report_visuals :
  entry_classified (report_id, entry) ->
  Forall entry_classified report_visuals ->
  Forall entry_classified (SP.store_report report_id entry report_visuals).
Proof.
  intros He. induction 1 as [| [k v] rest Hk Hrest IH]; simpl.
  - constructor; [exact He | constructor].
  - destruct (key_eqb report_id k).
    + constructor; [| assumption]. split; [apply Hk | apply He].
    + now constructor.
Qed.

Lemma scan_report_classified report :
  preserves (Forall entry_classified) (SP.scan_report report).
Proof.
  unfold SP.scan_report.
  apply preserves_bind; [apply preserves_lift |]. intros report_id.
  apply preserves_bind; [apply preserves_lift |]. intros report_name.
  apply preserves_bind; [apply preserves_lift |]. intros pages.
  destruct (for_each pages SP.scan_page []) as [all_visuals [[] | e]] eqn:Hp;
    [| apply preserves_lift].
  destruct (hashable report_id) eqn:Hh; [| apply preserves_lift].
  intros s s' r H Hs. inversion H; subst.
  apply store_report_classified; [| assumption].
  split; [exact Hh |]. simpl.
  refine (preserves_for_each _ pages SP.scan_page scan_page_classified _ _ _ Hp _).
  constructor.
Qed.

Lemma extract_scan_classified scan_data :
  Forall entry_classified (SP.extract_visuals_from_scan scan_data).
Proof.
  unfold SP.extract_visuals_from_scan.
  assert (P : preserves (Forall entry_classified)
                (workspaces <- lift (let* w := py_get scan_data (str "workspaces") (PList []) in
                                     py_iter w) ;;
                 for_each workspaces SP.scan_workspace_reports)).
  { apply preserves_bind; [apply preserves_lift |]. intros workspaces.
    apply preserves_for_each. intros ws. unfold SP.scan_workspace_reports.
    apply preserves_bind; [apply preserves_lift |]. intros reports.
    apply preserves_for_each. intros r. apply scan_report_classified. }
  destruct ((workspaces <- lift (let* w := py_get scan_data (str "workspaces") (PList []) in
                                 py_iter w) ;;
             for_each workspaces SP.scan_workspace_reports) []) as [s r] eqn:H.
  exact (P _ _ _ H (Forall_nil _)).
Qed.

(** X20.  Every entry [extract_visuals_from_scan] returns has a report
    identifier that can be hashed, and its records carry in [is_custom] what
    the classifier answers on their type. *)
Theorem scan_entries_are_classified (scan_data : pyobj) :
  forall report_id report_name visuals,
    In (report_id, (report_name, visuals)) (SP.extract_visuals_from_scan scan_data) ->
    hashable report_id = true
    /\ forall v, In v visuals -> SP.is_custom_visual (type v) = Ok (is_custom v).
Proof.
  intros report_id report_name visuals Hin.
  pose proof (proj1 (Forall_forall _ _) (extract_scan_classified scan_data) _ Hin) as [Hh Hc].
  split; [exact Hh |]. intros v Hv.
  exact (proj1 (Forall_forall _ _) Hc v Hv).
Qed.

Lemma scan_entries_are_classified_witness :
  hashable (PStr (str "r1")) = true
  /\ forall v, In v [page1_record] -> SP.is_custom_visual (type v) = Ok (is_custom v).
Proof.
  exact (scan_entries_are_classified (scan_of [workspace_of [scanned_report]])
           (PStr (str "r1")) (PStr (str "Sales")) [page1_record] (or_introl eq_refl)).
Defined.

(** ** UTF-8, there and back *)

Lemma byte_of_to_N (n : N) : (n < 256)%N -> Byte.to_N (byte_of n) = n.
Proof.
  intros H. unfold byte_of.
  destruct (Byte.of_N n) as [b |] eqn:E.
  - now apply Byte.to_of_N.
  - apply Byte.of_N_None_iff in E. lia.
Qed.

Lemma cut64 (c : N) :
  exists q r, (c = 64 * q + r /\ r < 64 /\ c / 64 = q /\ c mod 64 = r)%N.
Proof.
  exists (c / 64)%N, (c mod 64)%N. repeat split.
  - apply N.div_mod. discriminate.
  - apply N.mod_lt. discriminate.
Qed.

Ltac decide_tests :=
  repeat match goal with
         | |- context [(?a =? ?b)%N] =>
             let T := fresh "T" in destruct (N.eqb_spec a b) as [T | T]; try lia
         | |- context [(?a <? ?b)%N] =>
             let T := fresh "T" in destruct (N.ltb_spec a b) as [T | T]; try lia
         | |- context [(?a <=? ?b)%N] =>
             let T := fresh "T" in destruct (N.leb_spec a b) as [T | T]; try lia
         end.

Lemma utf8_char_step (c : N) (bc : bytes) (rest : list N) :
  utf8_char c = Some bc ->
  utf8_step (map Byte.to_N bc ++ rest) = Some (c, rest).
Proof.
  unfold utf8_char.
  destruct (cut64 c) as (q1 & r1 & E1 & R1 & D1 & M1).
  destruct (cut64 q1) as (q2 & r2 & E2 & R2 & D2 & M2).
  destruct (cut64 q2) as (q3 & r3 & E3 & R3 & D3 & M3).
  assert (D4096 : (c / 4096 = q2)%N).
  { change 4096%N with (64 * 64)%N. rewrite <- N.Div0.div_div.
    now rewrite D1. }
  assert (D262144 : (c / 262144 = q3)%N).
  { change 262144%N with (4096 * 64)%N. rewrite <- N.Div0.div_div.
    now rewrite D4096. }
  rewrite ?D1, ?M1, ?D4096, ?D262144, ?M2, ?M3.
  clear D1 M1 D2 M2 D3 M3 D4096 D262144.
  destruct (N.ltb_spec c 128) as [L1 | L1].
  { intros H. assert (E : bc = [byte_of c]) by congruence. subst bc. cbn [map app].
    rewrite (byte_of_to_N c) by lia.
    unfold utf8_step. decide_tests. reflexivity. }
  destruct (N.ltb_spec c 2048) as [L2 | L2].
  { intros H. assert (E : bc = [byte_of (192 + q1); byte_of (128 + r1)]) by congruence.
    subst bc. cbn [map app].
    rewrite (byte_of_to_N (192 + q1)), (byte_of_to_N (128 + r1)) by lia.
    unfold utf8_step, in_range, is_cont, in_range. decide_tests; cbv beta iota; decide_tests; cbn [andb];
      f_equal; f_equal; lia. }
  destruct (N.ltb_spec c 65536) as [L3 | L3].
  { unfold in_range. destruct (N.leb_spec 55296 c) as [S1 | S1];
      destruct (N.leb_spec c 57343) as [S2 | S2]; cbn [andb];
      try discriminate;
      (intros H;
       assert (E : bc = [byte_of (224 + q2); byte_of (128 + r2); byte_of (128 + r1)])
         by congruence;
       subst bc; cbn [map app];
       rewrite (byte_of_to_N (224 + q2)), (byte_of_to_N (128 + r2)),
         (byte_of_to_N (128 + r1)) by lia;
       unfold utf8_step, in_range, is_cont, in_range; decide_tests; cbv beta iota; decide_tests; cbn [andb];
       f_equal; f_equal; lia). }
  destruct (N.ltb_spec c 1114112) as [L4 | L4]; [| discriminate].
  intros H.
  assert (E : bc = [byte_of (240 + q3); byte_of (128 + r3); byte_of (128 + r2);
                    byte_of (128 + r1)]) by congruence.
  subst bc. cbn [map app].
  rewrite (byte_of_to_N (240 + q3)), (byte_of_to_N (128 + r3)),
    (byte_of_to_N (128 + r2)), (byte_of_to_N (128 + r1)) by lia.
  unfold utf8_step, in_range, is_cont, in_range. decide_tests; cbv beta iota; decide_tests; cbn [andb];
    f_equal; f_equal; lia.
Qed.

Lemma utf8_char_length (c : N) (bc : bytes) : utf8_char c = Some bc -> 1 <= List.length bc.
Proof.
  unfold utf8_char.
  repeat match goal with
         | |- (if ?b then _ else _) = _ -> _ => destruct b
         end; intros H; inversion H; simpl; lia.
Qed.

Lemma utf8_points_encode (s : pystr) :
  forall b fuel,
    encode_utf8 s = Ok b -> List.length b <= fuel ->
    utf8_points fuel (map Byte.to_N b) = Some s.
Proof.
  induction s as [| c s IH]; intros b fuel H Hf; simpl in H.
  - inversion H; subst. now destruct fuel.
  - destruct (utf8_char c) as [bc |] eqn:Ec; [| discriminate].
    destruct (encode_utf8 s) as [bs |] eqn:Es; [| discriminate].
    inversion H; subst b; clear H.
    pose proof (utf8_char_length _ _ Ec) as Hl.
    rewrite length_app in Hf. rewrite map_app.
    destruct fuel as [| fuel]; [lia |].
    pose proof (utf8_char_step c bc (map Byte.to_N bs) Ec) as Hs.
    destruct (map Byte.to_N bc ++ map Byte.to_N bs) as [| x xs] eqn:Ex.
    + destruct bc; [simpl in Hl; lia | discriminate Ex].
    + cbn [utf8_points]. rewrite Hs. rewrite (IH bs fuel eq_refl) by lia. reflexivity.
Qed.

(** X21.  Text written as UTF-8, as the rows of the file are, reads back
    as UTF-8, as a layout is read, to the same text. *)
Theorem utf8_encoded_text_decodes (s : pystr) (b : bytes) :
  encode_utf8 s = Ok b -> decode_utf8 b = Ok s.
Proof.
  intros H. unfold decode_utf8. now rewrite (utf8_points_encode s b _ H (Nat.le_refl _)).
Qed.

Lemma utf8_encoded_text_decodes_witness :
  decode_utf8 [Byte.x6e; Byte.xc3; Byte.xa9; Byte.xe2; Byte.x82; Byte.xac;
               Byte.xf0; Byte.x9f; Byte.x98; Byte.x80]
  = Ok [110%N; 233%N; 8364%N; 128512%N].
Proof.
  exact (utf8_encoded_text_decodes [110%N; 233%N; 8364%N; 128512%N] _ eq_refl).
Defined.

(** ** Rows that cannot be written *)

Lemma encode_utf8_fails (s : pystr) (c : N) :
  In c s -> utf8_char c = None -> encode_utf8 s = Raise UnicodeEncodeError.
Proof.
  induction s as [| d s IH]; [intros [] |]. intros [-> | Hin] Hc; simpl.
  - now rewrite Hc.
  - destruct (utf8_char d); [| reflexivity]. now rewrite (IH Hin Hc).
Qed.

Lemma In_csv_field (c : N) (field : pystr) : In c field -> In c (csv_field field).
Proof.
  unfold csv_field. destruct (needs_quotes field); [| auto].
  intros H. right. apply in_or_app. left.
  apply in_flat_map. exists c. split; [assumption |].
  destruct (c =? quote)%N eqn:E; [| now left].
  apply N.eqb_eq in E. subst. now left.
Qed.

Lemma In_join_fields (c : N) (field : pystr) (fields : list pystr) :
  In field fields -> In c field -> In c (join_fields fields).
Proof.
  induction fields as [| f fs IH]; [intros [] |]. intros [-> | Hin] Hc.
  - destruct fs; simpl; [assumption | apply in_or_app; now left].
  - destruct fs as [| g gs]; [contradiction |].
    change (join_fields (f :: g :: gs)) with (f ++ ch "," :: join_fields (g :: gs)).
    apply in_or_app. right. right. now apply IH.
Qed.

Lemma In_csv_row (c : N) (field : pystr) (fields : list pystr) :
  In field fields -> In c field -> In c (csv_row fields).
Proof.
  intros Hf Hc. unfold csv_row. apply in_or_app. left.
  apply (In_join_fields c (csv_field field)); [now apply in_map | now apply In_csv_field].
Qed.

Lemma surrogate_has_no_utf8 (c : N) : is_surrogate c = true -> utf8_char c = None.
Proof.
  unfold is_surrogate, utf8_char, in_range. intros H.
  apply andb_prop in H as [H1 H2]. apply N.leb_le in H1, H2.
  decide_tests; reflexivity.
Qed.

(** X22.  A row with a surrogate in one of its fields cannot be written:
    the service-principal script raises [UnicodeEncodeError] there, and the
    file holds what the rows before it gave, and nothing of the rows after
    it. *)
Theorem csv_ends_at_a_row_with_a_surrogate (rows later : list SP.ScanResult)
  (bad : SP.ScanResult) (field : pystr) (c : N) (file : bytes) :
  SP.write_csv rows = (file, Ok tt) ->
  In field (SP.row_fields bad) -> In c field -> is_surrogate c = true ->
  SP.write_csv (rows ++ bad :: later) = (file, Raise UnicodeEncodeError).
Proof.
  intros Hw Hf Hc Hs. unfold SP.write_csv in *.
  apply se_bind_ok_inv in Hw as (f1 & [] & H1 & Hw).
  unfold se_bind at 1. rewrite H1.
  apply (for_each_stops rows later bad _ f1 file file UnicodeEncodeError Hw).
  unfold writerow.
  now rewrite (encode_utf8_fails _ c (In_csv_row c field _ Hf Hc)
                 (surrogate_has_no_utf8 c Hs)).
Qed.

Lemma csv_ends_at_a_row_with_a_surrogate_witness :
  SP.write_csv ([clone_world_result] ++ surrogate_row :: [])
  = (fst (SP.write_csv [clone_world_result]), Raise UnicodeEncodeError).
Proof.
  exact (csv_ends_at_a_row_with_a_surrogate [clone_world_result] [] surrogate_row
           [55357%N; 97%N] 55357%N _ one_row_file
           (or_intror (or_introl eq_refl)) (or_introl eq_refl) eq_refl).
Defined.

(** ** Byte order marks *)

Lemma json_loads_after_mark (s : pystr) : json_loads (65279%N :: s) = Raise JSONDecodeError.
Proof. unfold json_loads, json_loads_fuel. cbn [startswith]. now destruct s. Qed.

(** The first two bytes of the UTF-8 mark, read as one UTF-16 unit, start no
    JSON text. *)
Lemma json_loads_after_half_mark (s : pystr) :
  json_loads (48111%N :: s) = Raise JSONDecodeError.
Proof.
  unfold json_loads, json_loads_fuel.
  replace (2 * List.length (48111%N :: s) + 2) with (S (2 * List.length s + 3))
    by (cbn [List.length]; lia).
  destruct s; reflexivity.
Qed.

Lemma utf16le_units_pair (lo hi : byte) (b : bytes) :
  utf16le_units (lo :: hi :: b)
  = match utf16le_units b with
    | Some us => Some ((Byte.to_N lo + 256 * Byte.to_N hi)%N :: us)
    | None => None
    end.
Proof. reflexivity. Qed.

Lemma utf16_join_plain (u : N) (us : list N) :
  is_high_surrogate u = false -> is_low_surrogate u = false ->
  utf16_join (u :: us)
  = match utf16_join us with
    | Some s => Some (u :: s)
    | None => None
    end.
Proof. intros H L. cbn [utf16_join]. now rewrite H, L. Qed.

Lemma decode_utf16le_mark (payload : bytes) :
  match decode_utf16le (bom_utf16le ++ payload) with
  | Ok text => exists s, text = 65279%N :: s
  | Raise e => e = UnicodeDecodeError
  end.
Proof.
  unfold decode_utf16le, bom_utf16le. cbn [app]. rewrite utf16le_units_pair.
  destruct (utf16le_units payload) as [us |]; [| reflexivity].
  change (Byte.to_N Byte.xff + 256 * Byte.to_N Byte.xfe)%N with 65279%N.
  rewrite utf16_join_plain by reflexivity.
  destruct (utf16_join us) as [s |]; [now exists s | reflexivity].
Qed.

Lemma decode_utf16le_utf8_mark (payload : bytes) :
  match decode_utf16le (bom_utf8 ++ payload) with
  | Ok text => exists s, text = 48111%N :: s
  | Raise e => e = UnicodeDecodeError
  end.
Proof.
  unfold decode_utf16le, bom_utf8. cbn [app]. rewrite utf16le_units_pair.
  destruct (utf16le_units (Byte.xbf :: payload)) as [us |]; [| reflexivity].
  change (Byte.to_N Byte.xef + 256 * Byte.to_N Byte.xbb)%N with 48111%N.
  rewrite utf16_join_plain by reflexivity.
  destruct (utf16_join us) as [s |]; [now exists s | reflexivity].
Qed.

Lemma utf8_points_step (fuel : nat) (x : N) (l : list N) :
  utf8_points (S fuel) (x :: l)
  = match utf8_step (x :: l) with
    | Some (c, r) =>
        match utf8_points fuel r with
        | Some s => Some (c :: s)
        | None => None
        end
    | None => None
    end.
Proof. reflexivity. Qed.

Lemma decode_utf8_mark (payload : bytes) :
  match decode_utf8 (bom_utf8 ++ payload) with
  | Ok text => exists s, text = 65279%N :: s
  | Raise e => True
  end.
Proof.
  unfold decode_utf8, bom_utf8. cbn [app List.length map]. rewrite utf8_points_step.
  change (utf8_step (Byte.to_N Byte.xef :: Byte.to_N Byte.xbb :: Byte.to_N Byte.xbf
                     :: map Byte.to_N payload))
    with (Some (65279%N, map Byte.to_N payload)).
  cbv iota.
  destruct (utf8_points (S (S (List.length payload))) (map Byte.to_N payload)) as [s |];
    [now exists s | exact I].
Qed.

Lemma decode_utf8_utf16_mark (payload : bytes) :
  decode_utf8 (bom_utf16le ++ payload) = Raise UnicodeDecodeError.
Proof. reflexivity. Qed.

(** A layout whose text starts with a mark gives no record, whatever
    follows. *)
Lemma marked_layout_adds_nothing is_custom_visual (n : pystr) (payload : bytes)
  (visuals : list VisualRecord) :
  fst (try_layout is_custom_visual [(n, Ok (bom_utf16le ++ payload))] n visuals) = visuals
  /\ fst (try_layout is_custom_visual [(n, Ok (bom_utf8 ++ payload))] n visuals) = visuals.
Proof.
  split.
  - unfold try_layout, read_layout, se_bind, lift. rewrite !zip_read_single.
    pose proof (decode_utf16le_mark payload) as H.
    destruct (decode_utf16le (bom_utf16le ++ payload)) as [text | e].
    + destruct H as [s ->]. now rewrite json_loads_after_mark.
    + subst e. now rewrite decode_utf8_utf16_mark.
  - unfold try_layout, read_layout, se_bind, lift. rewrite !zip_read_single.
    pose proof (decode_utf16le_utf8_mark payload) as H.
    destruct (decode_utf16le (bom_utf8 ++ payload)) as [text | e].
    + destruct H as [s ->]. now rewrite json_loads_after_half_mark.
    + subst e. pose proof (decode_utf8_mark payload) as H8.
      destruct (decode_utf8 (bom_utf8 ++ payload)) as [text |]; [| reflexivity].
      destruct H8 as [s ->]. now rewrite json_loads_after_mark.
Qed.

(** X23.  An archive whose one layout member starts with a byte order
    mark, that of UTF-16 or that of UTF-8, gives no record in either script,
    whatever follows the mark. *)
Theorem marked_layout_gives_no_visuals (before after : ZipFile) (n : pystr) (payload : bytes) :
  is_layout_member n = true ->
  Forall (fun m => is_layout_member (fst m) = false) (before ++ after) ->
  SP.extract_visuals_from_pbix (Zip (before ++ (n, Ok (bom_utf16le ++ payload)) :: after)) = []
  /\ SP.extract_visuals_from_pbix (Zip (before ++ (n, Ok (bom_utf8 ++ payload)) :: after)) = []
  /\ Interactive.extract_visuals_from_pbix
       (Zip (before ++ (n, Ok (bom_utf16le ++ payload)) :: after)) = []
  /\ Interactive.extract_visuals_from_pbix
       (Zip (before ++ (n, Ok (bom_utf8 ++ payload)) :: after)) = [].
Proof.
  intros Hn Ho.
  unfold SP.extract_visuals_from_pbix, Interactive.extract_visuals_from_pbix.
  rewrite !(extract_one_layout _ _ _ _ _ Hn Ho).
  repeat split; apply marked_layout_adds_nothing.
Qed.

Lemma marked_layout_gives_no_visuals_witness :
  SP.extract_visuals_from_pbix
    (Zip ([] ++ (str "Report/Layout", Ok (bom_utf16le ++ utf16le_of_ascii spec_layout)) :: []))
  = [].
Proof.
  exact (proj1 (marked_layout_gives_no_visuals [] [] (str "Report/Layout")
                  (utf16le_of_ascii spec_layout) eq_refl (Forall_nil _))).
Defined.

(** ** The head of the file *)

Lemma writerow_extends (fields : list pystr) (csvfile file : bytes) (r : result unit) :
  writerow fields csvfile = (file, r) -> exists rest, file = csvfile ++ rest.
Proof.
  unfold writerow. destruct (encode_utf8 (csv_row fields)) as [b | e]; intros H; inversion H.
  - now exists b.
  - exists []. now rewrite app_nil_r.
Qed.

Lemma writerows_extend {A : Type} (fields : A -> list pystr) (xs : list A) :
  forall csvfile file r,
    for_each xs (fun x => writerow (fields x)) csvfile = (file, r) ->
    exists rest, file = csvfile ++ rest.
Proof.
  induction xs as [| x xs IH]; intros csvfile file r H; simpl in H.
  - inversion H. exists []. now rewrite app_nil_r.
  - unfold se_bind in H.
    destruct (writerow (fields x) csvfile) as [f1 [[] | e]] eqn:Hx.
    + apply writerow_extends in Hx as [r1 ->]. apply IH in H as [r2 ->].
      exists (r1 ++ r2). now rewrite app_assoc.
    + inversion H; subst. now apply writerow_extends in Hx.
Qed.

Lemma Interactive_scan_extends workspaces :
  forall all_results csvfile t t' file r,
    Interactive.scan_workspaces workspaces all_results csvfile t = (t', file, r) ->
    exists rest, file = csvfile ++ rest.
Proof.
  induction workspaces as [| [ws ww] rest IH]; intros all_results csvfile t t' file r H;
    simpl in H.
  - inversion H. exists []. now rewrite app_nil_r.
  - destruct (Interactive.analyze_workspace_reports _ _ _ ww t) as [t1 [batch | e]].
    + destruct (Interactive.append_csv batch csvfile) as [csvfile1 [[] | e]] eqn:Ha;
        rewrite append_csv_rows in Ha; apply writerows_extend in Ha as [r1 ->].
      * apply IH in H as [r2 ->]. exists (r1 ++ r2). now rewrite app_assoc.
      * inversion H. now exists r1.
    + inversion H. exists []. now rewrite app_nil_r.
Qed.

(** X24.  The file of either script starts with the line of its column
    names, whatever the run; a run over no workspace leaves nothing else in
    it. *)
Theorem csv_starts_with_the_header :
  (forall workspaces,
      exists rest, snd (fst (SP.main workspaces)) = utf8_of_ascii SP_header ++ rest)
  /\ (forall workspaces,
         exists rest,
           snd (fst (Interactive.main workspaces)) = utf8_of_ascii Interactive_header ++ rest)
  /\ snd (fst (SP.main [])) = utf8_of_ascii SP_header
  /\ snd (fst (Interactive.main [])) = utf8_of_ascii Interactive_header.
Proof.
  split; [| split; [| split; vm_compute; reflexivity]].
  - intros workspaces. rewrite SP_main_file. unfold SP.write_csv, se_bind.
    change (writerow SP.fieldnames []) with (utf8_of_ascii SP_header, @Ok unit tt).
    destruct (for_each (flat_map SP_workspace_rows workspaces)
                (fun result => writerow (SP.row_fields result)) (utf8_of_ascii SP_header))
      as [file r] eqn:H.
    now apply writerows_extend in H.
  - intros workspaces. unfold Interactive.main.
    change Interactive.create_csv with (utf8_of_ascii Interactive_header, @Ok unit tt).
    destruct (Interactive.scan_workspaces workspaces [] (utf8_of_ascii Interactive_header) [])
      as [[t file] [all_results | e]] eqn:H; rewrite H; cbn [fst snd];
      apply Interactive_scan_extends in H as [rest ->]; now exists rest.
Qed.
